(** * EvaBoard: the HD44780 character-LCD driver (Tests/LCD/lcd.c, lcd.h)

    A shallow embedding of the driver as it is configured in lcd.h:
    - every LCD line sits on port A (RS = PA4, EN = PA5, R/W = PA6,
      DB4..DB7 = PA0..PA3);
    - [LCD_BUSY_TIMEOUT] is not defined, so [SEND_BYTE] is [sendByte]
      followed by a fixed delay;
    - [LCD_CC_TILDE] = 1 and [LCD_CC_BACKSLASH] = 2 are defined,
      [LCD_CC_IXI] is not.

    The driver's globals ([utf8Buffer], [lcdCursor]) and the two I/O
    registers it touches are the fields of an explicit [state]; every
    register write and every delay is appended to a log, [bus].  The
    display controller's side of the wires is [lcd_sees]: it samples RS
    and DB7..DB4 on each falling edge of EN.

    Two computations of the other test programs that need no hardware are
    embedded as well: the tick count of Tests/RTC/main.c and the character
    map of the echo in Tests/Serial/main.c. *)

From Stdlib Require Import ZArith List Bool Lia.
Import ListNotations.
Local Open Scope Z_scope.

(** ** Fixed-width integers *)

(** Truncation to 8, 16, 32 and 64 bits (see [uint8_mod] and its
    companions: these are the remainders modulo 2^8, ..., 2^64). *)
Definition uint8 (x : Z) : Z := Z.land x 0xff.
Definition uint16 (x : Z) : Z := Z.land x 0xffff.
Definition uint32 (x : Z) : Z := Z.land x 0xffffffff.
Definition uint64 (x : Z) : Z := Z.land x 0xffffffffffffffff.

(** [char] is signed for avr-gcc. *)
Definition int8 (x : Z) : Z := uint8 (x + 128) - 128.

(** ** Pin assignment (lcd.h) *)

Definition RS_PIN : Z := 4.
Definition RW_PIN : Z := 6.
Definition EN_PIN : Z := 5.
Definition DB4_PIN : Z := 0.
Definition DB5_PIN : Z := 1.
Definition DB6_PIN : Z := 2.
Definition DB7_PIN : Z := 3.

(** ** Driver state and the log of what it does to the outside *)

Inductive ioreg : Type := RegPORTA | RegDDRA.

Inductive event : Type :=
| Out (r : ioreg) (old new : Z)   (* a store to an I/O register *)
| DelayUs (us : Z)                (* _delay_us *)
| DelayMs (ms : Z).               (* delayMs *)

Record state : Type := mkState {
  PORTA : Z;            (* RS_REG_PORT = EN_REG_PORT = DBx_REG_PORT = PORTA *)
  DDRA : Z;             (* RS_REG_DDR = ... = DDRA *)
  utf8Buffer : Z;       (* uint32_t utf8Buffer = 0 *)
  lcdCursor : Z;        (* uint8_t lcdCursor = 0 *)
  bus : list event
}.

(** The state after reset of the microcontroller: the globals hold their
    initialisers, both registers read zero. *)
Definition reset_state : state := mkState 0 0 0 0 [].

Definition cmd : Type := state -> state.

Definition seq (a b : cmd) : cmd := fun st => b (a st).
Notation "a ;; b" := (seq a b) (at level 61, right associativity).

Definition skip : cmd := fun st => st.

Definition set_PORTA (f : Z -> Z) : cmd := fun st =>
  let v := uint8 (f (PORTA st)) in
  mkState v (DDRA st) (utf8Buffer st) (lcdCursor st)
          (bus st ++ [Out RegPORTA (PORTA st) v]).

Definition set_DDRA (f : Z -> Z) : cmd := fun st =>
  let v := uint8 (f (DDRA st)) in
  mkState (PORTA st) v (utf8Buffer st) (lcdCursor st)
          (bus st ++ [Out RegDDRA (DDRA st) v]).

Definition set_utf8Buffer (v : Z) : cmd := fun st =>
  mkState (PORTA st) (DDRA st) v (lcdCursor st) (bus st).

Definition set_lcdCursor (v : Z) : cmd := fun st =>
  mkState (PORTA st) (DDRA st) (utf8Buffer st) v (bus st).

Definition _delay_us (us : Z) : cmd := fun st =>
  mkState (PORTA st) (DDRA st) (utf8Buffer st) (lcdCursor st)
          (bus st ++ [DelayUs us]).

Definition delayMs (ms : Z) : cmd := fun st =>
  mkState (PORTA st) (DDRA st) (utf8Buffer st) (lcdCursor st)
          (bus st ++ [DelayMs ms]).

(** [reg |= (1 << pin)] and [reg &= ~(1 << pin)]. *)
Definition set_bit (pin : Z) (p : Z) : Z := Z.lor p (Z.shiftl 1 pin).
Definition clear_bit (pin : Z) (p : Z) : Z := Z.land p (Z.lnot (Z.shiftl 1 pin)).

(** [reg = (reg & ~(1 << pin)) | (v << pin)]. *)
Definition put_bit (pin v : Z) (p : Z) : Z :=
  Z.lor (Z.land p (Z.lnot (Z.shiftl 1 pin))) (Z.shiftl v pin).

(** ** Nibble and byte transfer *)

Definition sendNibble (regSel nibble : Z) : cmd :=
  let regSel := uint8 regSel in
  let nibble := uint8 nibble in
  (* Register select *)
  set_PORTA (put_bit RS_PIN regSel) ;;
  (* Put n[4:0] on DB[7:4] *)
  set_PORTA (put_bit DB4_PIN (Z.land (Z.shiftr nibble 0) 1)) ;;
  set_PORTA (put_bit DB5_PIN (Z.land (Z.shiftr nibble 1) 1)) ;;
  set_PORTA (put_bit DB6_PIN (Z.land (Z.shiftr nibble 2) 1)) ;;
  set_PORTA (put_bit DB7_PIN (Z.land (Z.shiftr nibble 3) 1)) ;;
  (* Address setup time *)
  _delay_us 1 ;;
  (* Drive EN high *)
  set_PORTA (set_bit EN_PIN) ;;
  (* Enable pulse width *)
  _delay_us 1 ;;
  (* Pull EN low *)
  set_PORTA (clear_bit EN_PIN) ;;
  (* Hold time *)
  _delay_us 1.

(** [ATOMIC_BLOCK] only masks interrupts; with no interrupt source in the
    model it is the plain sequence of its body. *)
Definition sendByte (regSel c : Z) : cmd :=
  let c := uint8 c in
  (* Send upper nibble *)
  sendNibble regSel (Z.shiftr c 4) ;;
  (* Send lower nibble *)
  sendNibble regSel (Z.land c 0x0f).

(** [SEND_BYTE] with [LCD_BUSY_TIMEOUT] undefined. *)
Definition SEND_BYTE (regSel c delay : Z) : cmd :=
  sendByte regSel c ;; _delay_us delay.

(** ** Cursor *)

Definition ddram_address (cursor : Z) : Z :=
  if cursor <? 16 then cursor
  else if cursor <? 32 then Z.lor 0x40 (Z.land cursor 0x0f)
  else 0x00.

Definition updateCursor : cmd := fun st =>
  (* Calculate DDRAM address *)
  let address := ddram_address (lcdCursor st) in
  (* "Set DDRAM address" command: 1 A6 A5 A4 A3 A2 A1 A0 *)
  SEND_BYTE 0 (Z.lor 0x80 address) 42 st.

(** ** What the display controller sees

    The HD44780 latches RS and the four data lines on the falling edge of
    EN; between edges it only experiences the passage of time. *)

Inductive signal : Type :=
| Latch (rs : Z) (db : Z)
| WaitUs (us : Z)
| WaitMs (ms : Z).

Definition db_lines (p : Z) : Z :=
  Z.b2z (Z.testbit p DB4_PIN) + 2 * Z.b2z (Z.testbit p DB5_PIN)
  + 4 * Z.b2z (Z.testbit p DB6_PIN) + 8 * Z.b2z (Z.testbit p DB7_PIN).

Definition lcd_sees (e : event) : list signal :=
  match e with
  | Out RegPORTA old new =>
      if Z.testbit old EN_PIN && negb (Z.testbit new EN_PIN)
      then [Latch (Z.b2z (Z.testbit new RS_PIN)) (db_lines new)]
      else []
  | Out RegDDRA _ _ => []
  | DelayUs us => [WaitUs us]
  | DelayMs ms => [WaitMs ms]
  end.

Definition wire (st : state) : list signal := flat_map lcd_sees (bus st).

(** One nibble transfer and one byte transfer as the controller sees them. *)
Definition nibble_xfer (rs n : Z) : list signal :=
  [WaitUs 1; WaitUs 1; Latch rs n; WaitUs 1].

Definition byte_xfer (rs c delay : Z) : list signal :=
  nibble_xfer rs (c / 16) ++ nibble_xfer rs (c mod 16) ++ [WaitUs delay].

(** ** Public functions: cursor movement *)

Definition lcd_line1 : cmd :=
  set_lcdCursor 0 ;; updateCursor.

Definition lcd_line2 : cmd :=
  set_lcdCursor 16 ;; updateCursor.

Definition lcd_goto (row column : Z) : cmd := fun st =>
  let row := uint8 row in
  let column := uint8 column in
  (* Boundary checks on row and column *)
  let row := if row <? 1 then 1 else row in
  let row := if row >? 2 then 2 else row in
  let column := if column <? 1 then 1 else column in
  let column := if column >? 16 then 16 else column in
  (set_lcdCursor (uint8 (Z.lor (Z.shiftl (row - 1) 4) (column - 1))) ;;
   updateCursor) st.

Definition lcd_move (row column : Z) : cmd := fun st =>
  let row := int8 row in
  let column := int8 column in
  (* Add row and column to current cursor (row mod 2, column mod 16) *)
  let newRow := uint8 (Z.land (Z.shiftr (lcdCursor st) 4 + (row + 1)) 1) in
  let newCol := uint8 (Z.land (lcdCursor st + (column + 15)) 0x0f) in
  (set_lcdCursor (uint8 (Z.lor (Z.shiftl newRow 4) newCol)) ;;
   updateCursor) st.

Definition lcd_back : cmd := fun st =>
  ((if lcdCursor st =? 0
    then set_lcdCursor 31
    else set_lcdCursor (uint8 (lcdCursor st - 1))) ;;
   updateCursor) st.

Definition lcd_home : cmd := fun st =>
  (set_lcdCursor (Z.land (lcdCursor st) 0x10) ;; updateCursor) st.

Definition lcd_forward : cmd := fun st =>
  ((if lcdCursor st =? 31
    then set_lcdCursor 0
    else set_lcdCursor (uint8 (lcdCursor st + 1))) ;;
   updateCursor) st.

(** ** Erasing *)

Definition lcd_clear : cmd :=
  (* "Clear Display" command (also returns cursor to 0): 0 0 0 0 0 0 0 1 *)
  SEND_BYTE 0 0x01 1640 ;;
  set_lcdCursor 0.

(** ** Writing *)

(** [(utf8Buffer << 8) | (uint8_t)character] *)
Definition utf8_push (utf8Buffer character : Z) : Z :=
  Z.lor (uint32 (Z.shiftl utf8Buffer 8)) (uint8 character).

(** The [if]/[else if] chain of [lcd_writeChar] that inspects the buffer:
    [None] is its final [else return], [Some codePoint] every other way
    out of it. *)
Definition utf8_scan (utf8Buffer : Z) : option Z :=
  let codePoint := 0x0000fffd in (* Default for characters the LCD cannot display *)
  if Z.land utf8Buffer 0xf8000000 =? 0xf0000000 then
    (* 4-byte character (11110xxx 10xxxxxx 10xxxxxx 10xxxxxx) *)
    if Z.land utf8Buffer 0x00c0c0c0 =? 0x00808080 then
      Some (Z.lor (Z.lor (Z.lor
              (Z.shiftr (Z.land utf8Buffer 0x07000000) 6)
              (Z.shiftr (Z.land utf8Buffer 0x003f0000) 4))
              (Z.shiftr (Z.land utf8Buffer 0x00003f00) 2))
              (Z.land utf8Buffer 0x0000003f))
    else Some codePoint
  else if Z.land utf8Buffer 0xfff00000 =? 0x00e00000 then
    (* 3-byte character (1110xxxx 10xxxxxx 10xxxxxx) *)
    if Z.land utf8Buffer 0x0000c0c0 =? 0x00008080 then
      Some (Z.lor (Z.lor
              (Z.shiftr (Z.land utf8Buffer 0x000f0000) 4)
              (Z.shiftr (Z.land utf8Buffer 0x00003f00) 2))
              (Z.land utf8Buffer 0x0000003f))
    else Some codePoint
  else if Z.land utf8Buffer 0xffffe000 =? 0x0000c000 then
    (* 2-byte character (110xxxxx 10xxxxxx) *)
    if Z.land utf8Buffer 0x000000c0 =? 0x00000080 then
      Some (Z.lor (Z.shiftr (Z.land utf8Buffer 0x00001f00) 2)
                  (Z.land utf8Buffer 0x0000003f))
    else Some codePoint
  else if Z.land utf8Buffer 0xffffff80 =? 0x00000000 then
    (* 1-byte character (0xxxxxxx) *)
    Some utf8Buffer
  else
    (* Incomplete character, wait for more before writing *)
    None.

Definition LCD_CC_TILDE : Z := 1.
Definition LCD_CC_BACKSLASH : Z := 2.

(** The [switch] of [lcd_writeChar]: code point to controller code. *)
Definition lcdCode (codePoint : Z) : Z :=
  match codePoint with
  | 0x0000005c => LCD_CC_BACKSLASH (* Backslash *)
  | 0x0000007e => LCD_CC_TILDE     (* Tilde *)
  | 0x0000009d => 0x5c (* Yen sign sits where the backslash should be *)
  | 0x00002192 => 0x7e (* Right arrow sits where the tilde should be *)
  | 0x00002190 => 0x7f (* Left arrow *)
  | 0x00002092 => 0xa1 (* Subscript small o *)
  | 0x000000da => 0xa2 (* Single up and left *)
  | 0x000000d9 => 0xa3 (* Single down and right *)
  | 0x000000b7 => 0xa5 (* Middle dot *)
  | 0x00002203
  | 0x0000018e => 0xae (* Existential quantifier *)
  | 0x000025af
  | 0x000025a1 => 0xdb (* Vertical white rectangle or white square *)
  | 0x000000b0 => 0xdf (* Degree sign *)
  | 0x000003b1 => 0xe0 (* Lowercase alpha *)
  | 0x000000e4 => 0xe1 (* Lowercase umlaut a *)
  | 0x000003b2
  | 0x000000df => 0xe2 (* Lowercase beta or German Eszett *)
  | 0x000003b5
  | 0x00000190 => 0xe3 (* Lowercase epsilon *)
  | 0x000003bc
  | 0x000000b5 => 0xe4 (* Lowercase mu or micro sign *)
  | 0x000003c3 => 0xe5 (* Lowercase sigma *)
  | 0x000003c1 => 0xe6 (* Lowercase rho *)
  | 0x0000221a => 0xe8 (* Square root symbol *)
  | 0x0000215f => 0xe9 (* Inverse symbol *)
  | 0x000000a2 => 0xec (* Cent sign *)
  | 0x000000f1 => 0xee (* Lowercase n with tilde *)
  | 0x000000f6 => 0xef (* Lowercase umlaut o *)
  | 0x000003b8 => 0xf2 (* Lowercase theta *)
  | 0x0000221e => 0xf3 (* Infinity symbol *)
  | 0x000003a9 => 0xf4 (* Uppercase omega *)
  | 0x000000fc => 0xf5 (* Lowercase umlaut u *)
  | 0x000003a3 => 0xf6 (* Uppercase sigma *)
  | 0x000003c0 => 0xf7 (* Lowercase pi *)
  | 0x000000f7 => 0xfd (* Division sign *)
  | 0x000025ae
  | 0x000025a0 => 0xff (* Vertical black rectangle or black square *)
  | _ => if codePoint <=? 0x00000080 then uint8 codePoint else 0xff
  end.

(** The remainder of [lcd_writeChar], entered with a code point in hand:
    the line feed moves the cursor, anything else is a glyph. *)
Definition lcd_putCode (codePoint : Z) : cmd := fun st =>
  (* Handle '\n' character *)
  if codePoint =? 10 then
    ((* When in line 1, go to line 2; when in line 2, roll over *)
     (if lcdCursor st <? 16 then set_lcdCursor 16 else set_lcdCursor 32) ;;
     updateCursor) st
  else
    ((* If current line is full, break automatically *)
     (if lcdCursor st =? 32 then lcd_clear
      else if lcdCursor st =? 16 then lcd_line2
      else skip) ;;
     (* Write character *)
     SEND_BYTE 1 (lcdCode codePoint) 46 ;;
     (fun st' => set_lcdCursor (uint8 (lcdCursor st' + 1)) st')) st.

Definition lcd_writeChar (character : Z) : cmd := fun st =>
  (* Add to UTF-8 buffer *)
  let buffer := utf8_push (utf8Buffer st) character in
  let st := set_utf8Buffer buffer st in
  (* Check if the buffer now holds a complete UTF-8 character *)
  match utf8_scan buffer with
  | None => st
  | Some codePoint => (set_utf8Buffer 0 ;; lcd_putCode codePoint) st
  end.

(** A C string is the list of its bytes; the loop stops at the first NUL
    (or where the list, standing for the memory up to the terminator,
    ends). *)
Fixpoint lcd_writeString (text : list Z) : cmd :=
  match text with
  | [] => skip
  | c :: rest => if uint8 c =? 0 then skip else lcd_writeChar c ;; lcd_writeString rest
  end.

Fixpoint lcd_writeProgString (string : list Z) : cmd :=
  match string with
  | [] => skip
  | c :: rest =>
      if uint8 c =? 0 then skip else lcd_writeChar c ;; lcd_writeProgString rest
  end.

Definition lcd_erase (line : Z) : cmd := fun st =>
  (* Save current cursor position *)
  let cursorBackup := lcdCursor st in
  ((* Erase the given line *)
   lcd_goto line 1 ;;
   lcd_writeProgString (repeat 32 16%nat) ;;
   (* Set cursor back to original position *)
   set_lcdCursor cursorBackup ;;
   updateCursor) st.

(** [lcd_writeDec] divides; a division by zero is undefined behaviour in C
    and is reported as [Faulted], with the state reached by then.  The two
    [while] loops take fuel. *)
Inductive outcome : Type :=
| Done (st : state)
| Faulted (st : state)
| OutOfFuel.

Inductive scan (A : Type) : Type :=
| Found (a : A)
| DivideByZero
| Exhausted.
Arguments Found {A} a.
Arguments DivideByZero {A}.
Arguments Exhausted {A}.

(** [while(number / mask == 0) mask /= 10;] *)
Fixpoint writeDec_skip (fuel : nat) (number mask : Z) : scan Z :=
  match fuel with
  | O => Exhausted
  | S fuel' =>
      if mask =? 0 then DivideByZero
      else if number / mask =? 0
           then writeDec_skip fuel' number (uint16 (mask / 10))
           else Found mask
  end.

(** [while(mask) { lcd_writeChar('0' + number / mask); number %= mask;
    mask /= 10; }]: the loop condition keeps [mask] away from zero. *)
Fixpoint writeDec_digits (fuel : nat) (number mask : Z) (st : state) : outcome :=
  match fuel with
  | O => OutOfFuel
  | S fuel' =>
      if mask =? 0 then Done st
      else writeDec_digits fuel' (uint16 (number mod mask)) (uint16 (mask / 10))
                           (lcd_writeChar (48 + number / mask) st)
  end.

Definition lcd_writeDec (fuel : nat) (number : Z) (st : state) : outcome :=
  let number := uint16 number in
  let st := if number =? 0 then lcd_writeChar 48 st else st in
  let mask := 10000 in
  match writeDec_skip fuel number mask with
  | Found mask => writeDec_digits fuel number mask st
  | DivideByZero => Faulted st
  | Exhausted => OutOfFuel
  end.

(** ** Custom characters *)

Definition CUSTOM_CHAR (cc0 cc1 cc2 cc3 cc4 cc5 cc6 cc7 : Z) : Z :=
  Z.lor (Z.lor (Z.lor (Z.lor (Z.lor (Z.lor (Z.lor (Z.lor 0
    (Z.shiftl (uint64 cc0) (0 * 8))) (Z.shiftl (uint64 cc1) (1 * 8)))
    (Z.shiftl (uint64 cc2) (2 * 8))) (Z.shiftl (uint64 cc3) (3 * 8)))
    (Z.shiftl (uint64 cc4) (4 * 8))) (Z.shiftl (uint64 cc5) (5 * 8)))
    (Z.shiftl (uint64 cc6) (6 * 8))) (Z.shiftl (uint64 cc7) (7 * 8)).

Definition LCD_CC_TILDE_BITMAP : Z :=
  CUSTOM_CHAR 0x00 0x08 0x15 0x02 0x00 0x00 0x00 0x00.

Definition LCD_CC_BACKSLASH_BITMAP : Z :=
  CUSTOM_CHAR 0x00 0x10 0x08 0x04 0x02 0x01 0x00 0x00.

(** [for(uint8_t i = 0; i < 8; i++) { SEND_BYTE(1, (uint8_t)chr, 46);
    chr >>= 8; }], with [rows] the iterations still to run. *)
Fixpoint send_bitmap (rows : nat) (chr : Z) : cmd :=
  match rows with
  | O => skip
  | S rows' => SEND_BYTE 1 (uint8 chr) 46 ;; send_bitmap rows' (Z.shiftr chr 8)
  end.

Definition lcd_registerCustomChar (addr chr : Z) : cmd :=
  let addr := uint8 addr in
  let chr := uint64 chr in
  (* "Set CGRAM address" command: 0 1 A5 A4 A3 A2 A1 A0 *)
  SEND_BYTE 0 (Z.lor 0x40 (8 * addr)) 42 ;;
  (* Write 8 bytes of data *)
  send_bitmap 8 chr ;;
  (* Move address pointer back to DDRAM *)
  updateCursor.

(** ** Initialisation

    The redirection of stdout at the end of [lcd_init] touches nothing the
    model holds and is left out. *)
Definition lcd_init : cmd :=
  (* Configure all pins as output, low *)
  set_PORTA (clear_bit RW_PIN) ;; set_DDRA (set_bit RW_PIN) ;;
  set_PORTA (clear_bit RS_PIN) ;; set_DDRA (set_bit RS_PIN) ;;
  set_PORTA (clear_bit EN_PIN) ;; set_DDRA (set_bit EN_PIN) ;;
  set_PORTA (clear_bit DB4_PIN) ;; set_DDRA (set_bit DB4_PIN) ;;
  set_PORTA (clear_bit DB5_PIN) ;; set_DDRA (set_bit DB5_PIN) ;;
  set_PORTA (clear_bit DB6_PIN) ;; set_DDRA (set_bit DB6_PIN) ;;
  set_PORTA (clear_bit DB7_PIN) ;; set_DDRA (set_bit DB7_PIN) ;;
  (* Power on delay *)
  delayMs 15 ;;
  (* Start of homing sequence *)
  sendNibble 0 3 ;; delayMs 5 ;;
  sendNibble 0 3 ;; _delay_us 100 ;;
  sendNibble 0 3 ;; _delay_us 100 ;;
  sendNibble 0 2 ;; _delay_us 42 ;;
  (* End of homing sequence. The LCD is now in 4-bit mode. *)
  (* "Function set": DL=0 (4 bit mode), N=1 (2 lines), F=0 (5x8 characters) *)
  SEND_BYTE 0 0x28 42 ;;
  (* "Display on/off": D=0, B=0, C=0 *)
  SEND_BYTE 0 0x08 42 ;;
  (* Clear display *)
  lcd_clear ;;
  (* "Entry mode set": I/D=1 (cursor moving right), S=0 (no shifting) *)
  SEND_BYTE 0 0x06 42 ;;
  (* "Display on/off": D=1, B=0, C=0 *)
  SEND_BYTE 0 0x0c 42 ;;
  (* Register custom characters *)
  lcd_registerCustomChar LCD_CC_TILDE LCD_CC_TILDE_BITMAP ;;
  lcd_registerCustomChar LCD_CC_BACKSLASH LCD_CC_BACKSLASH_BITMAP.

Definition lcd_command (command : Z) : cmd :=
  SEND_BYTE 0 command 1640.

(** ** Sequences of public operations *)

Inductive op : Type :=
| Line1 | Line2
| Goto (row column : Z)
| Move (row column : Z)
| Back | Forward | Home
| Clear
| Erase (line : Z)
| WriteChar (character : Z).

Definition exec (o : op) : cmd :=
  match o with
  | Line1 => lcd_line1
  | Line2 => lcd_line2
  | Goto r c => lcd_goto r c
  | Move r c => lcd_move r c
  | Back => lcd_back
  | Forward => lcd_forward
  | Home => lcd_home
  | Clear => lcd_clear
  | Erase l => lcd_erase l
  | WriteChar c => lcd_writeChar c
  end.

Fixpoint run (ops : list op) : cmd :=
  match ops with
  | [] => skip
  | o :: rest => exec o ;; run rest
  end.

(** Feeding bytes to [lcd_writeChar] one at a time. *)
Fixpoint feed (bytes : list Z) : cmd :=
  match bytes with
  | [] => skip
  | b :: rest => lcd_writeChar b ;; feed rest
  end.

(** ** Reference definitions the driver is compared with *)

Module Utf8.

(** The UTF-8 encoding of a code point (RFC 3629, section 3). *)
Definition encode (cp : Z) : list Z :=
  if cp <? 0x80 then [cp]
  else if cp <? 0x800 then
    [Z.lor 0xC0 (Z.shiftr cp 6); Z.lor 0x80 (Z.land cp 0x3F)]
  else if cp <? 0x10000 then
    [Z.lor 0xE0 (Z.shiftr cp 12);
     Z.lor 0x80 (Z.land (Z.shiftr cp 6) 0x3F);
     Z.lor 0x80 (Z.land cp 0x3F)]
  else
    [Z.lor 0xF0 (Z.shiftr cp 18);
     Z.lor 0x80 (Z.land (Z.shiftr cp 12) 0x3F);
     Z.lor 0x80 (Z.land (Z.shiftr cp 6) 0x3F);
     Z.lor 0x80 (Z.land cp 0x3F)].

(** [10xxxxxx] *)
Definition continuation (b : Z) : bool := Z.land b 0xC0 =? 0x80.

End Utf8.

(** What the decoder of [lcd_writeChar] answers, byte after byte, with the
    accumulator cleared after every decode as the function does. *)
Fixpoint utf8_trace (buffer : Z) (bytes : list Z) : list (option Z) :=
  match bytes with
  | [] => []
  | b :: rest =>
      match utf8_scan (utf8_push buffer b) with
      | None => None :: utf8_trace (utf8_push buffer b) rest
      | Some cp => Some cp :: utf8_trace 0 rest
      end
  end.

Definition option_Z_eqb (a b : option Z) : bool :=
  match a, b with
  | None, None => true
  | Some x, Some y => x =? y
  | _, _ => false
  end.

Fixpoint trace_eqb (a b : list (option Z)) : bool :=
  match a, b with
  | [], [] => true
  | x :: a', y :: b' => option_Z_eqb x y && trace_eqb a' b'
  | _, _ => false
  end.

(** One code point survives the trip: silence on every byte but the last,
    the code point itself on the last. *)
Definition round_trip (cp : Z) : bool :=
  let bytes := Utf8.encode cp in
  trace_eqb (utf8_trace 0 bytes)
            (repeat None (length bytes - 1) ++ [Some cp]).

Fixpoint all_from (lo : Z) (count : nat) (p : Z -> bool) : bool :=
  match count with
  | O => true
  | S count' => p lo && all_from (lo + 1) count' p
  end.

(** The leading bytes of a three- or four-byte sequence depend on the code
    point only through [q = cp >> 6]; the last byte only through
    [e = cp & 0x3F].  The checks below are run on every [q] of the two ranges
    and on every [e]. *)
Definition astral_front (q : Z) : list Z :=
  [Z.lor 0xF0 (Z.shiftr q 12);
   Z.lor 0x80 (Z.land (Z.shiftr q 6) 0x3F);
   Z.lor 0x80 (Z.land q 0x3F)].

Definition astral_high (a : Z) : Z :=
  Z.lor (Z.lor (Z.shiftr (Z.land a 0x07000000) 6)
               (Z.shiftr (Z.land a 0x003f0000) 4))
        (Z.shiftr (Z.land a 0x00003f00) 2).

Definition astral_front_ok (q : Z) : bool :=
  let a := uint32 (Z.shiftl (fold_left utf8_push (astral_front q) 0) 8) in
  trace_eqb (utf8_trace 0 (astral_front q)) [None; None; None]
  && (Z.land a 0xf8000000 =? 0xf0000000)
  && (Z.land a 0x00c0c0c0 =? 0x00808000)
  && (astral_high a =? Z.shiftl q 6)
  && (Z.land a 0x0000003f =? 0).

Definition triple_front (q : Z) : list Z :=
  [Z.lor 0xE0 (Z.shiftr q 6); Z.lor 0x80 (Z.land q 0x3F)].

Definition triple_high (a : Z) : Z :=
  Z.lor (Z.shiftr (Z.land a 0x000f0000) 4) (Z.shiftr (Z.land a 0x00003f00) 2).

Definition triple_front_ok (q : Z) : bool :=
  let a := uint32 (Z.shiftl (fold_left utf8_push (triple_front q) 0) 8) in
  trace_eqb (utf8_trace 0 (triple_front q)) [None; None]
  && (Z.land a 0xf8000000 =? 0)
  && (Z.land a 0xfff00000 =? 0x00e00000)
  && (Z.land a 0x0000c0c0 =? 0x00008000)
  && (triple_high a =? Z.shiftl q 6)
  && (Z.land a 0x0000003f =? 0).

Definition last_byte_ok (e : Z) : bool :=
  let d := uint8 (Z.lor 0x80 e) in
  (Z.land d 0xf8000000 =? 0)
  && (Z.land d 0xfff00000 =? 0)
  && (Z.land d 0x00c0c0c0 =? 0x00000080)
  && (Z.land d 0x0000c0c0 =? 0x00000080)
  && (Z.land d 0x07000000 =? 0)
  && (Z.land d 0x003f0000 =? 0)
  && (Z.land d 0x000f0000 =? 0)
  && (Z.land d 0x00003f00 =? 0)
  && (Z.land d 0x0000003f =? e).

(** The tests of [utf8_scan], by name: the leading byte of an n-byte
    sequence sits in its place ([leadn]), the bytes after it are
    continuation bytes ([contn]). *)
Definition lead4 (buffer : Z) : bool := Z.land buffer 0xf8000000 =? 0xf0000000.
Definition cont4 (buffer : Z) : bool := Z.land buffer 0x00c0c0c0 =? 0x00808080.
Definition lead3 (buffer : Z) : bool := Z.land buffer 0xfff00000 =? 0x00e00000.
Definition cont3 (buffer : Z) : bool := Z.land buffer 0x0000c0c0 =? 0x00008080.
Definition lead2 (buffer : Z) : bool := Z.land buffer 0xffffe000 =? 0x0000c000.
Definition cont2 (buffer : Z) : bool := Z.land buffer 0x000000c0 =? 0x00000080.
Definition lead1 (buffer : Z) : bool := Z.land buffer 0xffffff80 =? 0x00000000.

(** A leading byte in place, followed by something that is not a
    continuation byte. *)
Definition broken_sequence (buffer : Z) : bool :=
  if lead4 buffer then negb (cont4 buffer)
  else if lead3 buffer then negb (cont3 buffer)
  else if lead2 buffer then negb (cont2 buffer)
  else false.

(** None of the four shapes. *)
Definition no_shape (buffer : Z) : bool :=
  negb (lead4 buffer) && negb (lead3 buffer)
  && negb (lead2 buffer) && negb (lead1 buffer).

(** The characters [lcd_writeDec]'s second loop sends, without the display:
    the same loop on a list. *)
Fixpoint writeDec_chars (fuel : nat) (number mask : Z) : option (list Z) :=
  match fuel with
  | O => None
  | S fuel' =>
      if mask =? 0 then Some []
      else option_map (cons (48 + number / mask))
             (writeDec_chars fuel' (uint16 (number mod mask)) (uint16 (mask / 10)))
  end.

Module Decimal.

(** The decimal digits of a natural number, most significant first, as
    ASCII codes; [fuel] bounds the number of digits. *)
Fixpoint digits (fuel : nat) (n : Z) (less : list Z) : list Z :=
  match fuel with
  | O => less
  | S fuel' =>
      if n <? 10 then (48 + n) :: less
      else digits fuel' (n / 10) ((48 + n mod 10) :: less)
  end.

Definition of_uint16 (n : Z) : list Z := digits 5 n [].

(** The number a string of ASCII digits denotes. *)
Definition value (text : list Z) : Z :=
  fold_left (fun acc c => 10 * acc + (c - 48)) text 0.

End Decimal.

(** The rows of a glyph bitmap as the controller receives them: the lowest
    byte is the top row (lcd.h, [CUSTOM_CHAR]). *)
Fixpoint bitmap_xfer (rows : nat) (chr : Z) : list signal :=
  match rows with
  | O => []
  | S rows' => byte_xfer 1 (chr mod 256) 46 ++ bitmap_xfer rows' (chr / 256)
  end.

(** What precedes a glyph on the wire: the clear at the sentinel, the jump
    to line 2 at position 16, nothing elsewhere. *)
Definition page_break (cursor : Z) : list signal :=
  if cursor =? 32 then byte_xfer 0 0x01 1640
  else if cursor =? 16 then byte_xfer 0 0xC0 42
  else [].

Definition clamp (lo hi x : Z) : Z := Z.max lo (Z.min hi x).

(** A glyph registration on the wire: the "set CGRAM address" command for
    the slot, the eight rows, the "set DDRAM address" command for the
    cursor. *)
Definition register_xfer (slot chr cursor : Z) : list signal :=
  byte_xfer 0 (Z.lor 0x40 (8 * slot)) 42
  ++ bitmap_xfer 8 chr
  ++ byte_xfer 0 (Z.lor 0x80 (ddram_address cursor)) 42.

(** ** Hexadecimal output *)

Definition lcd_writeHexNibble (number : Z) : cmd :=
  let number := uint8 number in
  let number := Z.land number 0x0f in
  lcd_writeChar (if number <=? 9 then 48 + number else 97 + number - 10).

Definition lcd_writeHexByte (number : Z) : cmd :=
  let number := uint8 number in
  lcd_writeHexNibble (Z.shiftr number 4) ;;
  lcd_writeHexNibble (Z.land number 0x0f).

Definition lcd_writeHexWord (number : Z) : cmd :=
  let number := uint16 number in
  lcd_writeHexByte (Z.shiftr number 8) ;;
  lcd_writeHexByte (Z.land number 0x00ff).

(** [while((number >> shift) == 0) shift -= 4;] with [int8_t shift]:
    a shift by a negative count is undefined behaviour in C and is
    reported as such. *)
Inductive shift_scan : Type :=
| ShiftFound (shift : Z)
| NegativeShift
| ShiftExhausted.

Fixpoint writeHex_skip (fuel : nat) (number shift : Z) : shift_scan :=
  match fuel with
  | O => ShiftExhausted
  | S fuel' =>
      if shift <? 0 then NegativeShift
      else if Z.shiftr number shift =? 0
           then writeHex_skip fuel' number (int8 (shift - 4))
           else ShiftFound shift
  end.

(** [while(shift >= 0) { lcd_writeHexNibble((number >> shift) & 0xf);
    shift -= 4; }] *)
Fixpoint writeHex_digits (fuel : nat) (number shift : Z) (st : state) : outcome :=
  match fuel with
  | O => OutOfFuel
  | S fuel' =>
      if shift >=? 0
      then writeHex_digits fuel' number (int8 (shift - 4))
             (lcd_writeHexNibble (Z.land (Z.shiftr number shift) 0xf) st)
      else Done st
  end.

Definition lcd_writeHex (fuel : nat) (number : Z) (st : state) : outcome :=
  let number := uint16 number in
  if number =? 0 then
    (* The only number where a leading zero is ok *)
    Done (lcd_writeChar 48 st)
  else
    let shift := 8 * 2 - 4 in
    match writeHex_skip fuel number shift with
    | ShiftFound shift => writeHex_digits fuel number shift st
    | NegativeShift => Faulted st
    | ShiftExhausted => OutOfFuel
    end.

Definition lcd_write32bitHex (number : Z) : cmd :=
  let number := uint32 number in
  lcd_writeProgString [48; 120] ;;
  lcd_writeHexWord (Z.shiftr number 16) ;;
  lcd_writeHexWord (Z.land number 0x0000ffff).

(** ** Bar graph and voltage *)

(** [while(percent--) lcd_writeProgString(PSTR(...));] where the string
    literal is the UTF-8 encoding of U+25AE, the bytes E2 96 AE. *)
Fixpoint drawBar_blocks (fuel : nat) (percent : Z) (st : state) : outcome :=
  match fuel with
  | O => OutOfFuel
  | S fuel' =>
      if percent =? 0 then Done st
      else drawBar_blocks fuel' (uint8 (percent - 1))
             (lcd_writeProgString [0xE2; 0x96; 0xAE] st)
  end.

(** [while(lcdCursor < 16) lcd_writeChar(' ');] *)
Fixpoint drawBar_pad (fuel : nat) (st : state) : outcome :=
  match fuel with
  | O => OutOfFuel
  | S fuel' =>
      if lcdCursor st <? 16 then drawBar_pad fuel' (lcd_writeChar 32 st)
      else Done st
  end.

Definition lcd_drawBar (fuel : nat) (percent : Z) (st : state) : outcome :=
  let percent := uint8 percent in
  (* Transform linearly from [0;100] to [0;16] *)
  let percent := if percent >? 100 then 100 else percent in
  let percent := uint8 (uint16 (uint16 percent * 16) / 100) in
  (* Clear screen and draw bar in first line *)
  match drawBar_blocks fuel percent (lcd_line1 st) with
  | Done st1 =>
      match drawBar_pad fuel st1 with
      | Done st2 => Done (lcd_erase 2 st2)
      | other => other
      end
  | other => other
  end.

Definition lcd_writeVoltage (fuel : nat) (voltage valueUpperBound voltUpperBound : Z)
    (st : state) : outcome :=
  let voltage := uint16 voltage in
  let valueUpperBound := uint16 valueUpperBound in
  let voltUpperBound := uint8 voltUpperBound in
  if valueUpperBound =? 0 then Faulted st
  else
    (* Calculate the voltage in millivolts *)
    let millivolts :=
      uint16 (uint32 (uint32 (voltage * 1000) * voltUpperBound) / valueUpperBound) in
    (* Split the number into integer part and fractional digits *)
    let integer := uint16 (millivolts / 1000) in
    let millivolts := uint16 (millivolts - uint16 (integer * 1000)) in
    let fraction1 := uint8 (millivolts / 100) in
    let millivolts := uint16 (millivolts - 100 * fraction1) in
    let fraction2 := uint8 (millivolts / 10) in
    let millivolts := uint16 (millivolts - 10 * fraction2) in
    let fraction3 := uint8 millivolts in
    (* Write to display *)
    match lcd_writeDec fuel integer st with
    | Done st1 =>
        Done ((lcd_writeChar 46 ;;
               lcd_writeChar (48 + fraction1) ;;
               lcd_writeChar (48 + fraction2) ;;
               lcd_writeChar (48 + fraction3) ;;
               lcd_writeChar 86) st1)
    | other => other
    end.

(** ** The clock measurement of Tests/RTC/main.c

    The two interrupt handlers of Timer1 and the expression the main loop
    evaluates on the pair of capture points. *)

Module RTC.

Record capture_point : Type := mkCapture {
  value : Z;        (* uint16_t value *)
  overflows : Z     (* uint16_t overflows *)
}.

Record globals : Type := mkGlobals {
  capture : Z;                  (* volatile uint8_t capture = 0 *)
  captures0 : capture_point;    (* captures[0] *)
  captures1 : capture_point     (* captures[1] *)
}.

(** [ISR(TIMER1_OVF_vect)] *)
Definition TIMER1_OVF_vect (g : globals) : globals :=
  mkGlobals (capture g)
            (mkCapture (value (captures0 g)) (uint16 (overflows (captures0 g) + 1)))
            (captures1 g).

(** [ISR(TIMER1_CAPT_vect)], with the content of the input capture
    register at that moment. *)
Definition TIMER1_CAPT_vect (ICR1 : Z) (g : globals) : globals :=
  (* Shift out the oldest value, store the new capture point *)
  mkGlobals 1 (mkCapture (uint16 ICR1) 0) (captures0 g).

(** The value the main loop computes for [clocks]. *)
Definition clocks (g : globals) : Z :=
  uint32 (uint32 (uint32 (Z.shiftl (uint32 (overflows (captures1 g))) 16)
                  + uint32 (value (captures0 g)))
          - uint32 (value (captures1 g))).

(** [n] overflow interrupts in a row. *)
Fixpoint overflow_interrupts (n : nat) (g : globals) : globals :=
  match n with
  | O => g
  | S n' => overflow_interrupts n' (TIMER1_OVF_vect g)
  end.

End RTC.

(** ** The echo of Tests/Serial/main.c

    The [switch] of the main loop: the character sent back for the
    character received ([char] values as their byte). *)
Definition vowel_shift (c : Z) : Z :=
  match c with
  | 65 => 69     (* 'A' -> 'E' *)
  | 69 => 73     (* 'E' -> 'I' *)
  | 73 => 79     (* 'I' -> 'O' *)
  | 79 => 85     (* 'O' -> 'U' *)
  | 85 => 65     (* 'U' -> 'A' *)
  | 97 => 101    (* 'a' -> 'e' *)
  | 101 => 105   (* 'e' -> 'i' *)
  | 105 => 111   (* 'i' -> 'o' *)
  | 111 => 117   (* 'o' -> 'u' *)
  | 117 => 97    (* 'u' -> 'a' *)
  | _ => c
  end.

(** ** More reference definitions *)

Module Hex.

(** The lower-case hexadecimal digit for a value below sixteen. *)
Definition digit (d : Z) : Z := if d <? 10 then 48 + d else 87 + d.

(** [width] digits of [n], most significant first. *)
Fixpoint of_uint (width : nat) (n : Z) (less : list Z) : list Z :=
  match width with
  | O => less
  | S width' => of_uint width' (n / 16) (digit (n mod 16) :: less)
  end.

(** The digits of [n] without leading zeros ([fuel] bounds their number). *)
Fixpoint shortest (fuel : nat) (n : Z) (less : list Z) : list Z :=
  match fuel with
  | O => less
  | S fuel' =>
      if n <? 16 then digit n :: less
      else shortest fuel' (n / 16) (digit (n mod 16) :: less)
  end.

(** What a character is worth as a hexadecimal digit. *)
Definition digit_value (c : Z) : option Z :=
  if (48 <=? c) && (c <=? 57) then Some (c - 48)
  else if (97 <=? c) && (c <=? 102) then Some (c - 87)
  else None.

(** The number a string of hexadecimal digits denotes. *)
Definition value (text : list Z) : option Z :=
  fold_left (fun acc c =>
               match acc, digit_value c with
               | Some a, Some d => Some (16 * a + d)
               | _, _ => None
               end) text (Some 0).

End Hex.

(** The nibbles the controller latches into its data register (RS high),
    in order, and the nibbles of a string of glyph codes. *)
Definition data_nibbles (w : list signal) : list Z :=
  flat_map (fun s => match s with
                     | Latch rs db => if rs =? 1 then [db] else []
                     | _ => []
                     end) w.

Definition glyph_nibbles (codes : list Z) : list Z :=
  flat_map (fun c => [c / 16; c mod 16]) codes.

(** A run of glyphs on the wire, starting with the cursor at [cursor]:
    each is preceded by its page break and moves the cursor on. *)
Fixpoint typed (cursor : Z) (codes : list Z) : list signal :=
  match codes with
  | [] => []
  | c :: rest =>
      page_break cursor ++ byte_xfer 1 c 46
      ++ typed ((if cursor =? 32 then 0 else cursor) + 1) rest
  end.

(** Where the cursor stands after [n] glyphs. *)
Definition advance (cursor : Z) (n : nat) : Z :=
  match n with
  | O => cursor
  | S _ => (cursor + Z.of_nat n - 1) mod 32 + 1
  end.

(** Byte [k] of the accumulator, and an accumulator none of whose four
    bytes can start or end anything: each lies in 0x01..0xEF. *)
Definition buffer_byte (k buffer : Z) : Z := (buffer / 2 ^ (8 * k)) mod 256.

Definition dull (b : Z) : bool := (1 <=? uint8 b) && (uint8 b <=? 0xEF).

Definition jammed (buffer : Z) : bool :=
  (0 <=? buffer) && (buffer <? 2 ^ 32)
  && dull (buffer_byte 0 buffer) && dull (buffer_byte 1 buffer)
  && dull (buffer_byte 2 buffer) && dull (buffer_byte 3 buffer).

(** Whole byte transfers, each with its register, byte and delay. *)
Definition bytes_xfer (l : list (Z * Z * Z)) : list signal :=
  flat_map (fun t => byte_xfer (fst (fst t)) (snd (fst t)) (snd t)) l.

Definition transfer_ok (t : Z * Z * Z) : bool :=
  ((fst (fst t) =? 0) || (fst (fst t) =? 1))
  && (0 <=? snd (fst t)) && (snd (fst t) <? 256).

(** What a driver call leaves alone on the port: the direction register,
    the R/W line, the pin PA7 that is not the driver's, and an EN line that
    is low. *)
Definition pins_kept (st st' : state) : Prop :=
  DDRA st' = DDRA st
  /\ Z.testbit (PORTA st') RW_PIN = Z.testbit (PORTA st) RW_PIN
  /\ Z.testbit (PORTA st') 7 = Z.testbit (PORTA st) 7
  /\ (Z.testbit (PORTA st) EN_PIN = false -> Z.testbit (PORTA st') EN_PIN = false).

(** What it adds to the wire: whole bytes. *)
Definition sends_bytes (st st' : state) : Prop :=
  exists l, wire st' = wire st ++ bytes_xfer l /\ forallb transfer_ok l = true.

Definition disciplined (st st' : state) : Prop :=
  pins_kept st st' /\ sends_bytes st st'.

(** The calls of the driver that return without conditions. *)
Inductive call : Type :=
| Op (o : op)
| RegisterCustomChar (addr chr : Z)
| Command (command : Z)
| WriteString (text : list Z)
| WriteProgString (string : list Z)
| WriteHexNibble (number : Z)
| WriteHexByte (number : Z)
| WriteHexWord (number : Z)
| Write32bitHex (number : Z).

Definition perform (c : call) : cmd :=
  match c with
  | Op o => exec o
  | RegisterCustomChar addr chr => lcd_registerCustomChar addr chr
  | Command command => lcd_command command
  | WriteString text => lcd_writeString text
  | WriteProgString string => lcd_writeProgString string
  | WriteHexNibble number => lcd_writeHexNibble number
  | WriteHexByte number => lcd_writeHexByte number
  | WriteHexWord number => lcd_writeHexWord number
  | Write32bitHex number => lcd_write32bitHex number
  end.

Fixpoint perform_all (calls : list call) : cmd :=
  match calls with
  | [] => skip
  | c :: rest => perform c ;; perform_all rest
  end.

(** A code point [lcd_writeChar] answers with a glyph: any but the line
    feed. *)
Definition glyph_point (cp : Z) : bool :=
  (0 <=? cp) && (cp <=? 0x10FFFF) && negb (cp =? 10).

(** The first line of [lcd_writeVoltage]: the voltage in millivolts, in
    the 32-bit and 16-bit arithmetic of the source. *)
Definition voltage_millivolts (voltage valueUpperBound voltUpperBound : Z) : Z :=
  uint16 (uint32 (uint32 (uint16 voltage * 1000) * uint8 voltUpperBound)
          / uint16 valueUpperBound).

(** * Properties

    ** Pin-level facts *)

Lemma uint8_mod (x : Z) : uint8 x = x mod 2 ^ 8.
Proof. unfold uint8. change 0xff with (Z.ones 8). apply Z.land_ones. lia. Qed.

Lemma uint16_mod (x : Z) : uint16 x = x mod 2 ^ 16.
Proof. unfold uint16. change 0xffff with (Z.ones 16). apply Z.land_ones. lia. Qed.

Lemma uint32_mod (x : Z) : uint32 x = x mod 2 ^ 32.
Proof. unfold uint32. change 0xffffffff with (Z.ones 32). apply Z.land_ones. lia. Qed.

Lemma uint64_mod (x : Z) : uint64 x = x mod 2 ^ 64.
Proof.
  unfold uint64. change 0xffffffffffffffff with (Z.ones 64).
  apply Z.land_ones. lia.
Qed.

Lemma uint8_bit (x i : Z) : 0 <= i < 8 -> Z.testbit (uint8 x) i = Z.testbit x i.
Proof.
  intros H. rewrite uint8_mod, Z.mod_pow2_bits_low by lia. reflexivity.
Qed.

Lemma uint8_range (x : Z) : 0 <= uint8 x < 256.
Proof. rewrite uint8_mod. change (2 ^ 8) with 256. apply Z.mod_pos_bound. lia. Qed.

Lemma uint8_small (x : Z) : 0 <= x < 256 -> uint8 x = x.
Proof. intros H. rewrite uint8_mod. apply Z.mod_small. simpl. lia. Qed.

Lemma uint16_small (x : Z) : 0 <= x < 65536 -> uint16 x = x.
Proof. intros H. rewrite uint16_mod. apply Z.mod_small. simpl. lia. Qed.

(** ** Finite checks by evaluation *)

Lemma all_from_spec (p : Z -> bool) (count : nat) :
  forall lo, all_from lo count p = true ->
  forall x, lo <= x < lo + Z.of_nat count -> p x = true.
Proof.
  induction count as [| count IH]; intros lo Hall x Hx.
  - simpl in Hx. lia.
  - cbn [all_from] in Hall. apply andb_true_iff in Hall. destruct Hall as [Hlo Hrest].
    destruct (Z.eq_dec x lo) as [-> | Hne]; [exact Hlo |].
    apply (IH (lo + 1) Hrest). lia.
Qed.

(** [by_cases lo count] settles a goal [f x = g x] about an [x] known to lie
    in a short interval by running both sides on each of its values. *)
Ltac by_cases x lo count :=
  pattern x;
  match goal with
  | |- (fun y => @eq Z (@?l y) (@?r y)) x =>
      apply Z.eqb_eq;
      apply (all_from_spec (fun y => l y =? r y) count lo);
      [vm_compute; reflexivity | simpl; lia]
  end.

(** ** Single pins *)

Lemma put_bit_same (pin v p : Z) :
  0 <= pin -> Z.testbit (put_bit pin v p) pin = Z.testbit v 0.
Proof.
  intros H. unfold put_bit.
  rewrite Z.lor_spec, Z.land_spec, Z.lnot_spec, !Z.shiftl_spec by lia.
  rewrite Z.sub_diag. simpl. rewrite andb_false_r. reflexivity.
Qed.

Lemma put_bit_other (pin v p i : Z) :
  0 <= i -> 0 <= pin -> (v = 0 \/ v = 1) -> i <> pin ->
  Z.testbit (put_bit pin v p) i = Z.testbit p i.
Proof.
  intros Hi Hp Hv Hne. unfold put_bit.
  rewrite Z.lor_spec, Z.land_spec, Z.lnot_spec, !Z.shiftl_spec by lia.
  assert (H1 : Z.testbit 1 (i - pin) = false).
  { destruct (Z.ltb_spec (i - pin) 0).
    - apply Z.testbit_neg_r; lia.
    - change 1 with (2 ^ 0). apply Z.pow2_bits_false. lia. }
  assert (Hvb : Z.testbit v (i - pin) = false).
  { destruct Hv as [-> | ->]; [apply Z.testbit_0_l | exact H1]. }
  rewrite H1, Hvb. simpl. rewrite andb_true_r, orb_false_r. reflexivity.
Qed.

Lemma set_bit_same (pin p : Z) : 0 <= pin -> Z.testbit (set_bit pin p) pin = true.
Proof.
  intros H. unfold set_bit.
  rewrite Z.lor_spec, Z.shiftl_spec, Z.sub_diag by lia. apply orb_true_r.
Qed.

Lemma set_bit_other (pin p i : Z) :
  0 <= i -> 0 <= pin -> i <> pin -> Z.testbit (set_bit pin p) i = Z.testbit p i.
Proof.
  intros Hi Hp Hne. unfold set_bit.
  rewrite Z.lor_spec, Z.shiftl_spec by lia.
  destruct (Z.ltb_spec (i - pin) 0).
  - rewrite (Z.testbit_neg_r 1) by lia. apply orb_false_r.
  - change 1 with (2 ^ 0). rewrite Z.pow2_bits_false by lia. apply orb_false_r.
Qed.

Lemma clear_bit_same (pin p : Z) : 0 <= pin -> Z.testbit (clear_bit pin p) pin = false.
Proof.
  intros H. unfold clear_bit.
  rewrite Z.land_spec, Z.lnot_spec, Z.shiftl_spec, Z.sub_diag by lia.
  apply andb_false_r.
Qed.

Lemma clear_bit_other (pin p i : Z) :
  0 <= i -> 0 <= pin -> i <> pin -> Z.testbit (clear_bit pin p) i = Z.testbit p i.
Proof.
  intros Hi Hp Hne. unfold clear_bit.
  rewrite Z.land_spec, Z.lnot_spec, Z.shiftl_spec by lia.
  destruct (Z.ltb_spec (i - pin) 0).
  - rewrite (Z.testbit_neg_r 1) by lia. apply andb_true_r.
  - change 1 with (2 ^ 0). rewrite Z.pow2_bits_false by lia. apply andb_true_r.
Qed.

Lemma nibble_bit (n k : Z) :
  0 <= k -> Z.testbit (Z.land (Z.shiftr n k) 1) 0 = Z.testbit n k.
Proof.
  intros H. rewrite Z.land_spec, Z.shiftr_spec by lia.
  simpl. rewrite andb_true_r. reflexivity.
Qed.

Lemma nibble_bit_01 (n k : Z) :
  Z.land (Z.shiftr n k) 1 = 0 \/ Z.land (Z.shiftr n k) 1 = 1.
Proof.
  assert (E : Z.land (Z.shiftr n k) 1 = Z.shiftr n k mod 2)
    by (apply (Z.land_ones _ 1); lia).
  rewrite E. pose proof (Z.mod_pos_bound (Z.shiftr n k) 2). lia.
Qed.

Lemma nibble_of_bits (n : Z) :
  0 <= n < 16 ->
  Z.b2z (Z.testbit n 0) + 2 * Z.b2z (Z.testbit n 1)
  + 4 * Z.b2z (Z.testbit n 2) + 8 * Z.b2z (Z.testbit n 3) = n.
Proof.
  intros H. by_cases n 0 16%nat.
Qed.

(** How one store to PORTA looks from the controller's side. *)
Lemma wire_set_PORTA (f : Z -> Z) (st : state) :
  wire (set_PORTA f st) =
  wire st ++ lcd_sees (Out RegPORTA (PORTA st) (uint8 (f (PORTA st)))).
Proof.
  unfold wire, set_PORTA. cbn [bus].
  rewrite flat_map_app. cbn [flat_map]. rewrite app_nil_r. reflexivity.
Qed.

Lemma wire_delay_us (us : Z) (st : state) :
  wire (_delay_us us st) = wire st ++ [WaitUs us].
Proof.
  unfold wire, _delay_us. cbn [bus]. rewrite flat_map_app. reflexivity.
Qed.

Lemma wire_delayMs (ms : Z) (st : state) :
  wire (delayMs ms st) = wire st ++ [WaitMs ms].
Proof.
  unfold wire, delayMs. cbn [bus]. rewrite flat_map_app. reflexivity.
Qed.

(** A store that leaves EN where it was is invisible to the controller. *)
Lemma quiet_store (old new : Z) :
  Z.testbit new EN_PIN = Z.testbit old EN_PIN ->
  lcd_sees (Out RegPORTA old new) = [].
Proof.
  intros H. cbn [lcd_sees]. rewrite H.
  destruct (Z.testbit old EN_PIN); reflexivity.
Qed.

Lemma sendNibble_wire (rs n : Z) (st : state) :
  rs = 0 \/ rs = 1 -> 0 <= n < 16 ->
  wire (sendNibble rs n st) = wire st ++ nibble_xfer rs n.
Proof.
  intros Hrs Hn.
  assert (Ers : uint8 rs = rs) by (destruct Hrs; subst; reflexivity).
  assert (En : uint8 n = n) by (apply uint8_small; lia).
  unfold sendNibble. rewrite Ers, En. unfold seq.
  repeat (rewrite wire_delay_us || rewrite wire_set_PORTA).
  remember (PORTA st) as p0 eqn:E0.
  cbn [set_PORTA _delay_us PORTA]. rewrite <- E0.
  set (p1 := uint8 (put_bit RS_PIN rs p0)).
  set (p2 := uint8 (put_bit DB4_PIN (Z.land (Z.shiftr n 0) 1) p1)).
  set (p3 := uint8 (put_bit DB5_PIN (Z.land (Z.shiftr n 1) 1) p2)).
  set (p4 := uint8 (put_bit DB6_PIN (Z.land (Z.shiftr n 2) 1) p3)).
  set (p5 := uint8 (put_bit DB7_PIN (Z.land (Z.shiftr n 3) 1) p4)).
  set (p6 := uint8 (set_bit EN_PIN p5)).
  set (p7 := uint8 (clear_bit EN_PIN p6)).
  assert (Q1 : lcd_sees (Out RegPORTA p0 p1) = []).
  { apply quiet_store. unfold p1. rewrite uint8_bit by (unfold EN_PIN; lia).
    apply put_bit_other; unfold EN_PIN, RS_PIN; lia. }
  assert (Q2 : lcd_sees (Out RegPORTA p1 p2) = []).
  { apply quiet_store. unfold p2. rewrite uint8_bit by (unfold EN_PIN; lia).
    apply put_bit_other; try (unfold EN_PIN, DB4_PIN; lia). apply nibble_bit_01. }
  assert (Q3 : lcd_sees (Out RegPORTA p2 p3) = []).
  { apply quiet_store. unfold p3. rewrite uint8_bit by (unfold EN_PIN; lia).
    apply put_bit_other; try (unfold EN_PIN, DB5_PIN; lia). apply nibble_bit_01. }
  assert (Q4 : lcd_sees (Out RegPORTA p3 p4) = []).
  { apply quiet_store. unfold p4. rewrite uint8_bit by (unfold EN_PIN; lia).
    apply put_bit_other; try (unfold EN_PIN, DB6_PIN; lia). apply nibble_bit_01. }
  assert (Q5 : lcd_sees (Out RegPORTA p4 p5) = []).
  { apply quiet_store. unfold p5. rewrite uint8_bit by (unfold EN_PIN; lia).
    apply put_bit_other; try (unfold EN_PIN, DB7_PIN; lia). apply nibble_bit_01. }
  assert (H6 : Z.testbit p6 EN_PIN = true).
  { unfold p6. rewrite uint8_bit by (unfold EN_PIN; lia).
    apply set_bit_same. unfold EN_PIN; lia. }
  assert (Q6 : lcd_sees (Out RegPORTA p5 p6) = []).
  { cbn [lcd_sees]. rewrite H6. rewrite andb_false_r. reflexivity. }
  assert (H7 : Z.testbit p7 EN_PIN = false).
  { unfold p7. rewrite uint8_bit by (unfold EN_PIN; lia).
    apply clear_bit_same. unfold EN_PIN; lia. }
  (* the lines as they stand when EN falls *)
  assert (keep7 : forall i, 0 <= i < 8 -> i <> EN_PIN ->
                            Z.testbit p7 i = Z.testbit p5 i).
  { intros i Hi Hne. unfold p7, p6.
    rewrite uint8_bit, clear_bit_other, uint8_bit, set_bit_other
      by (unfold EN_PIN in *; lia). reflexivity. }
  assert (RS7 : Z.testbit p7 RS_PIN = Z.testbit rs 0).
  { rewrite keep7 by (unfold RS_PIN, EN_PIN; lia).
    unfold p5, p4, p3, p2.
    repeat (rewrite uint8_bit by (unfold RS_PIN; lia);
            rewrite put_bit_other
              by (try apply nibble_bit_01;
                  unfold RS_PIN, DB4_PIN, DB5_PIN, DB6_PIN, DB7_PIN; lia)).
    unfold p1. rewrite uint8_bit by (unfold RS_PIN; lia).
    apply put_bit_same. unfold RS_PIN; lia. }
  assert (D7 : Z.testbit p7 DB7_PIN = Z.testbit n 3).
  { rewrite keep7 by (unfold DB7_PIN, EN_PIN; lia).
    unfold p5. rewrite uint8_bit by (unfold DB7_PIN; lia).
    rewrite put_bit_same by (unfold DB7_PIN; lia). apply nibble_bit. lia. }
  assert (D6 : Z.testbit p7 DB6_PIN = Z.testbit n 2).
  { rewrite keep7 by (unfold DB6_PIN, EN_PIN; lia).
    unfold p5. rewrite uint8_bit by (unfold DB6_PIN; lia).
    rewrite put_bit_other
      by (try apply nibble_bit_01; unfold DB6_PIN, DB7_PIN; lia).
    unfold p4. rewrite uint8_bit by (unfold DB6_PIN; lia).
    rewrite put_bit_same by (unfold DB6_PIN; lia). apply nibble_bit. lia. }
  assert (D5 : Z.testbit p7 DB5_PIN = Z.testbit n 1).
  { rewrite keep7 by (unfold DB5_PIN, EN_PIN; lia).
    unfold p5, p4.
    repeat (rewrite uint8_bit by (unfold DB5_PIN; lia);
            rewrite put_bit_other
              by (try apply nibble_bit_01; unfold DB5_PIN, DB6_PIN, DB7_PIN; lia)).
    unfold p3. rewrite uint8_bit by (unfold DB5_PIN; lia).
    rewrite put_bit_same by (unfold DB5_PIN; lia). apply nibble_bit. lia. }
  assert (D4 : Z.testbit p7 DB4_PIN = Z.testbit n 0).
  { rewrite keep7 by (unfold DB4_PIN, EN_PIN; lia).
    unfold p5, p4, p3.
    repeat (rewrite uint8_bit by (unfold DB4_PIN; lia);
            rewrite put_bit_other
              by (try apply nibble_bit_01;
                  unfold DB4_PIN, DB5_PIN, DB6_PIN, DB7_PIN; lia)).
    unfold p2. rewrite uint8_bit by (unfold DB4_PIN; lia).
    rewrite put_bit_same by (unfold DB4_PIN; lia). apply nibble_bit. lia. }
  assert (L7 : lcd_sees (Out RegPORTA p6 p7) = [Latch rs n]).
  { cbn [lcd_sees]. rewrite H6, H7. cbn [negb andb].
    unfold db_lines. rewrite RS7, D4, D5, D6, D7, nibble_of_bits by assumption.
    destruct Hrs; subst rs; reflexivity. }
  rewrite Q1, Q2, Q3, Q4, Q5, Q6, L7.
  unfold nibble_xfer. rewrite !app_nil_r, <- !app_assoc. reflexivity.
Qed.


(** ** What the transfers look like on the wire *)

Lemma wire_set_lcdCursor (v : Z) (st : state) : wire (set_lcdCursor v st) = wire st.
Proof. reflexivity. Qed.

Lemma wire_set_utf8Buffer (v : Z) (st : state) : wire (set_utf8Buffer v st) = wire st.
Proof. reflexivity. Qed.

Lemma wire_set_DDRA (f : Z -> Z) (st : state) : wire (set_DDRA f st) = wire st.
Proof.
  unfold wire, set_DDRA. cbn [bus]. rewrite flat_map_app. cbn. apply app_nil_r.
Qed.

Lemma sendByte_wire (rs c : Z) (st : state) :
  rs = 0 \/ rs = 1 ->
  wire (sendByte rs c st) =
  wire st ++ nibble_xfer rs (uint8 c / 16) ++ nibble_xfer rs (uint8 c mod 16).
Proof.
  intros Hrs. pose proof (uint8_range c) as Hc.
  unfold sendByte, seq.
  assert (Hhi : Z.shiftr (uint8 c) 4 = uint8 c / 16)
    by (rewrite Z.shiftr_div_pow2 by lia; reflexivity).
  assert (Hlo : Z.land (uint8 c) 0x0f = uint8 c mod 16)
    by (change 0x0f with (Z.ones 4); rewrite Z.land_ones by lia; reflexivity).
  rewrite Hhi, Hlo.
  rewrite !sendNibble_wire; try assumption.
  - rewrite <- app_assoc. reflexivity.
  - split; [apply Z.div_pos; lia | apply Z.div_lt_upper_bound; lia].
  - apply Z.mod_pos_bound. lia.
Qed.

Lemma SEND_BYTE_cmd (c delay : Z) (st : state) :
  wire (SEND_BYTE 0 c delay st) = wire st ++ byte_xfer 0 (uint8 c) delay.
Proof.
  unfold SEND_BYTE, seq. rewrite wire_delay_us, sendByte_wire by (left; reflexivity).
  unfold byte_xfer. rewrite <- !app_assoc. reflexivity.
Qed.

Lemma SEND_BYTE_data (c delay : Z) (st : state) :
  wire (SEND_BYTE 1 c delay st) = wire st ++ byte_xfer 1 (uint8 c) delay.
Proof.
  unfold SEND_BYTE, seq. rewrite wire_delay_us, sendByte_wire by (right; reflexivity).
  unfold byte_xfer. rewrite <- !app_assoc. reflexivity.
Qed.

Lemma updateCursor_wire (st : state) :
  wire (updateCursor st) =
  wire st ++ byte_xfer 0 (uint8 (Z.lor 0x80 (ddram_address (lcdCursor st)))) 42.
Proof. unfold updateCursor. apply SEND_BYTE_cmd. Qed.

(** The transfers leave the driver's globals alone. *)
Lemma lcdCursor_SEND_BYTE (rs c delay : Z) (st : state) :
  lcdCursor (SEND_BYTE rs c delay st) = lcdCursor st.
Proof. reflexivity. Qed.

Lemma utf8Buffer_SEND_BYTE (rs c delay : Z) (st : state) :
  utf8Buffer (SEND_BYTE rs c delay st) = utf8Buffer st.
Proof. reflexivity. Qed.

Lemma lcdCursor_updateCursor (st : state) : lcdCursor (updateCursor st) = lcdCursor st.
Proof. reflexivity. Qed.

Lemma utf8Buffer_updateCursor (st : state) : utf8Buffer (updateCursor st) = utf8Buffer st.
Proof. reflexivity. Qed.

Lemma lcdCursor_set_lcdCursor (v : Z) (st : state) : lcdCursor (set_lcdCursor v st) = v.
Proof. reflexivity. Qed.

Lemma lcdCursor_set_utf8Buffer (v : Z) (st : state) :
  lcdCursor (set_utf8Buffer v st) = lcdCursor st.
Proof. reflexivity. Qed.

Lemma utf8Buffer_set_lcdCursor (v : Z) (st : state) :
  utf8Buffer (set_lcdCursor v st) = utf8Buffer st.
Proof. reflexivity. Qed.

Lemma utf8Buffer_set_utf8Buffer (v : Z) (st : state) :
  utf8Buffer (set_utf8Buffer v st) = v.
Proof. reflexivity. Qed.

Create Rewrite HintDb lcd.

#[local] Hint Rewrite
  wire_set_lcdCursor wire_set_utf8Buffer wire_set_DDRA
  wire_delay_us wire_delayMs SEND_BYTE_cmd SEND_BYTE_data updateCursor_wire
  lcdCursor_SEND_BYTE utf8Buffer_SEND_BYTE
  lcdCursor_updateCursor utf8Buffer_updateCursor
  lcdCursor_set_lcdCursor lcdCursor_set_utf8Buffer
  utf8Buffer_set_lcdCursor utf8Buffer_set_utf8Buffer : lcd.

(** The "set DDRAM address" byte fits the bus as it is. *)
Lemma ddram_command_byte (cursor : Z) :
  0 <= cursor < 256 ->
  uint8 (Z.lor 0x80 (ddram_address cursor)) = Z.lor 0x80 (ddram_address cursor).
Proof. intros H. by_cases cursor 0 256%nat. Qed.

Lemma ddram_address_table :
  ddram_address 0 = 0x00 /\ ddram_address 15 = 0x0F /\
  ddram_address 16 = 0x40 /\ ddram_address 31 = 0x4F /\ ddram_address 32 = 0x00.
Proof. repeat split. Qed.

(** ** Glyph registration *)

Lemma send_bitmap_wire (rows : nat) :
  forall chr st,
    wire (send_bitmap rows chr st) = wire st ++ bitmap_xfer rows chr.
Proof.
  induction rows as [| rows IH]; intros chr st.
  - cbn. rewrite app_nil_r. reflexivity.
  - cbn [send_bitmap bitmap_xfer]. unfold seq.
    rewrite IH, SEND_BYTE_data, (uint8_small (uint8 chr)) by apply uint8_range.
    rewrite uint8_mod, Z.shiftr_div_pow2 by lia.
    rewrite <- app_assoc. reflexivity.
Qed.

Lemma send_bitmap_globals (rows : nat) :
  forall chr st,
    lcdCursor (send_bitmap rows chr st) = lcdCursor st
    /\ utf8Buffer (send_bitmap rows chr st) = utf8Buffer st.
Proof.
  induction rows as [| rows IH]; intros chr st.
  - split; reflexivity.
  - cbn [send_bitmap]. unfold seq.
    destruct (IH (Z.shiftr chr 8) (SEND_BYTE 1 (uint8 chr) 46 st)) as [Hc Hb].
    rewrite Hc, Hb. split; reflexivity.
Qed.

Lemma lcd_registerCustomChar_globals (addr chr : Z) (st : state) :
  lcdCursor (lcd_registerCustomChar addr chr st) = lcdCursor st
  /\ utf8Buffer (lcd_registerCustomChar addr chr st) = utf8Buffer st.
Proof.
  unfold lcd_registerCustomChar, seq.
  rewrite lcdCursor_updateCursor, utf8Buffer_updateCursor.
  destruct (send_bitmap_globals 8 (uint64 chr)
              (SEND_BYTE 0 (Z.lor 0x40 (8 * uint8 addr)) 42 st)) as [Hc Hb].
  rewrite Hc, Hb. split; reflexivity.
Qed.

Lemma lcd_registerCustomChar_wire (addr chr : Z) (st : state) :
  wire (lcd_registerCustomChar addr chr st) =
  wire st
  ++ byte_xfer 0 (uint8 (Z.lor 0x40 (8 * uint8 addr))) 42
  ++ bitmap_xfer 8 (uint64 chr)
  ++ byte_xfer 0 (uint8 (Z.lor 0x80 (ddram_address (lcdCursor st)))) 42.
Proof.
  unfold lcd_registerCustomChar, seq.
  rewrite updateCursor_wire, send_bitmap_wire, SEND_BYTE_cmd.
  destruct (send_bitmap_globals 8 (uint64 chr)
              (SEND_BYTE 0 (Z.lor 0x40 (8 * uint8 addr)) 42 st)) as [Hc _].
  rewrite Hc, lcdCursor_SEND_BYTE, <- !app_assoc. reflexivity.
Qed.

(** C10. For every slot address and bitmap, [lcd_registerCustomChar] leaves
    the logical cursor (and the UTF-8 accumulator) unchanged, and the last
    command it puts on the wire, after the eight bitmap rows, is "set DDRAM
    address" with the address of the cursor position held before the call. *)
Theorem registerCustomChar_restores_ddram (addr chr : Z) (st : state) :
  0 <= lcdCursor st < 256 ->
  lcdCursor (lcd_registerCustomChar addr chr st) = lcdCursor st
  /\ utf8Buffer (lcd_registerCustomChar addr chr st) = utf8Buffer st
  /\ wire (lcd_registerCustomChar addr chr st) =
     wire st
     ++ byte_xfer 0 (uint8 (Z.lor 0x40 (8 * uint8 addr))) 42
     ++ bitmap_xfer 8 (uint64 chr)
     ++ byte_xfer 0 (Z.lor 0x80 (ddram_address (lcdCursor st))) 42.
Proof.
  intros Hcur.
  destruct (lcd_registerCustomChar_globals addr chr st) as [Hc Hb].
  rewrite Hc, Hb, lcd_registerCustomChar_wire, ddram_command_byte by assumption.
  repeat split.
Qed.

Lemma registerCustomChar_restores_ddram_witness :
  lcdCursor (lcd_registerCustomChar 7 LCD_CC_TILDE_BITMAP
               (lcd_goto 2 5 (lcd_init reset_state))) = 20
  /\ wire (lcd_registerCustomChar 7 LCD_CC_TILDE_BITMAP
             (lcd_goto 2 5 (lcd_init reset_state))) =
     wire (lcd_goto 2 5 (lcd_init reset_state))
     ++ byte_xfer 0 0x78 42
     ++ bitmap_xfer 8 LCD_CC_TILDE_BITMAP
     ++ byte_xfer 0 0xC4 42.
Proof.
  destruct (registerCustomChar_restores_ddram 7 LCD_CC_TILDE_BITMAP
              (lcd_goto 2 5 (lcd_init reset_state))) as [Hc [_ Hw]].
  - vm_compute. split; [discriminate | reflexivity].
  - split; [exact Hc | exact Hw].
Defined.

(** The command byte that opens a registration, slot by slot. *)
Lemma cgram_command_low (addr : Z) :
  0 <= addr < 256 -> Z.land addr 0x10 = 0 ->
  uint8 (Z.lor 0x40 (8 * uint8 addr)) = Z.lor 0x40 (8 * (addr mod 8)).
Proof.
  intros Hr Hbit.
  pose proof (all_from_spec
    (fun a => negb (Z.land a 0x10 =? 0)
              || (uint8 (Z.lor 0x40 (8 * uint8 a)) =? Z.lor 0x40 (8 * (a mod 8))))
    256 0 eq_refl addr) as H.
  cbv beta in H. rewrite Hbit in H. cbn [Z.eqb negb orb] in H.
  apply Z.eqb_eq, H. simpl. lia.
Qed.

Lemma cgram_command_high (addr : Z) :
  0 <= addr < 256 -> Z.land addr 0x10 = 0x10 ->
  uint8 (Z.lor 0x40 (8 * uint8 addr)) = Z.lor 0xC0 (8 * (addr mod 8)).
Proof.
  intros Hr Hbit.
  pose proof (all_from_spec
    (fun a => negb (Z.land a 0x10 =? 0x10)
              || (uint8 (Z.lor 0x40 (8 * uint8 a)) =? Z.lor 0xC0 (8 * (a mod 8))))
    256 0 eq_refl addr) as H.
  cbv beta in H. rewrite Hbit in H. cbn [Z.eqb Pos.eqb negb orb] in H.
  apply Z.eqb_eq, H. simpl. lia.
Qed.

(** C6, as the code has it.  For every 8-bit address whose bit 4 is clear
    (0..15, 32..47, ...: in particular every valid slot 0..7), the
    registration opens with "set CGRAM address" for slot [addr mod 8];
    nothing is rejected. *)
Theorem registerCustomChar_slot (addr chr : Z) (st : state) :
  0 <= addr < 256 -> Z.land addr 0x10 = 0 ->
  wire (lcd_registerCustomChar addr chr st) =
  wire st
  ++ byte_xfer 0 (Z.lor 0x40 (8 * (addr mod 8))) 42
  ++ bitmap_xfer 8 (uint64 chr)
  ++ byte_xfer 0 (uint8 (Z.lor 0x80 (ddram_address (lcdCursor st)))) 42.
Proof.
  intros Hr Hbit.
  rewrite lcd_registerCustomChar_wire, cgram_command_low by assumption.
  reflexivity.
Qed.

Lemma registerCustomChar_slot_witness :
  wire (lcd_registerCustomChar 10 LCD_CC_BACKSLASH_BITMAP reset_state) =
  wire reset_state
  ++ byte_xfer 0 (Z.lor 0x40 (8 * (10 mod 8))) 42
  ++ bitmap_xfer 8 (uint64 LCD_CC_BACKSLASH_BITMAP)
  ++ byte_xfer 0 (uint8 (Z.lor 0x80 (ddram_address (lcdCursor reset_state)))) 42.
Proof.
  apply (registerCustomChar_slot 10 LCD_CC_BACKSLASH_BITMAP reset_state).
  - lia.
  - reflexivity.
Defined.

(** With bit 4 of the address set, the byte sent has bit 7 set: it is a
    "set DDRAM address" command, and the eight rows go to display memory. *)
Lemma registerCustomChar_bit4 (addr chr : Z) (st : state) :
  0 <= addr < 256 -> Z.land addr 0x10 = 0x10 ->
  wire (lcd_registerCustomChar addr chr st) =
  wire st
  ++ byte_xfer 0 (Z.lor 0xC0 (8 * (addr mod 8))) 42
  ++ bitmap_xfer 8 (uint64 chr)
  ++ byte_xfer 0 (uint8 (Z.lor 0x80 (ddram_address (lcdCursor st)))) 42.
Proof.
  intros Hr Hbit.
  rewrite lcd_registerCustomChar_wire, cgram_command_high by assumption.
  reflexivity.
Qed.

(** C6 as it is worded fails at address 16: slot [16 mod 8] is slot 0, whose
    command is 0x40, and the driver sends 0xC0, "set DDRAM address 0x40". *)
Lemma registerCustomChar_16_not_cgram :
  firstn 9 (wire (lcd_registerCustomChar 16 0 reset_state)) = byte_xfer 0 0xC0 42
  /\ byte_xfer 0 0xC0 42 <> byte_xfer 0 (Z.lor 0x40 (8 * (16 mod 8))) 42.
Proof. split; [reflexivity | discriminate]. Qed.

(** ** Cursor movement *)

Lemma cursor_of_row_column (r c : Z) :
  1 <= r <= 2 -> 1 <= c <= 16 ->
  uint8 (Z.lor (Z.shiftl (r - 1) 4) (c - 1)) = (r - 1) * 16 + (c - 1).
Proof.
  intros Hr Hc.
  assert (Er : r = 1 \/ r = 2) by lia.
  destruct Er as [-> | ->]; by_cases c 1 16%nat.
Qed.

Lemma lcd_goto_unfold (row column : Z) (st : state) :
  lcd_goto row column st =
  updateCursor
    (set_lcdCursor ((clamp 1 2 (uint8 row) - 1) * 16
                    + (clamp 1 16 (uint8 column) - 1)) st).
Proof.
  unfold lcd_goto, seq.
  set (r := if (if uint8 row <? 1 then 1 else uint8 row) >? 2 then 2
            else if uint8 row <? 1 then 1 else uint8 row).
  set (c := if (if uint8 column <? 1 then 1 else uint8 column) >? 16 then 16
            else if uint8 column <? 1 then 1 else uint8 column).
  assert (Er : r = clamp 1 2 (uint8 row)).
  { unfold r, clamp. destruct (Z.ltb_spec (uint8 row) 1).
    - cbn. lia.
    - rewrite Z.gtb_ltb. destruct (Z.ltb_spec 2 (uint8 row)); lia. }
  assert (Ec : c = clamp 1 16 (uint8 column)).
  { unfold c, clamp. destruct (Z.ltb_spec (uint8 column) 1).
    - cbn. lia.
    - rewrite Z.gtb_ltb. destruct (Z.ltb_spec 16 (uint8 column)); lia. }
  rewrite cursor_of_row_column by (rewrite ?Er, ?Ec; unfold clamp; lia).
  rewrite Er, Ec. reflexivity.
Qed.

(** C9. For every row and column argument (taken as the [unsigned char] the
    function receives), [lcd_goto] clamps the row to [1,2] and the column to
    [1,16], sets the cursor to (row-1)*16 + (col-1) and sends the matching
    "set DDRAM address" command; nothing is rejected, and goto(3,20) is
    goto(2,16). *)
Theorem lcd_goto_clamps (row column : Z) (st : state) :
  lcdCursor (lcd_goto row column st)
    = (clamp 1 2 (uint8 row) - 1) * 16 + (clamp 1 16 (uint8 column) - 1)
  /\ 1 <= clamp 1 2 (uint8 row) <= 2
  /\ 1 <= clamp 1 16 (uint8 column) <= 16
  /\ wire (lcd_goto row column st)
     = wire st
       ++ byte_xfer 0 (Z.lor 0x80 (ddram_address (lcdCursor (lcd_goto row column st)))) 42
  /\ utf8Buffer (lcd_goto row column st) = utf8Buffer st
  /\ lcd_goto 3 20 st = lcd_goto 2 16 st.
Proof.
  rewrite lcd_goto_unfold.
  assert (Hr : 1 <= clamp 1 2 (uint8 row) <= 2) by (unfold clamp; lia).
  assert (Hc : 1 <= clamp 1 16 (uint8 column) <= 16) by (unfold clamp; lia).
  autorewrite with lcd.
  rewrite ddram_command_byte by lia.
  repeat split; lia.
Qed.

(** ** Bring-up *)

Lemma clear_pin_quiet (pin : Z) (st : state) :
  0 <= pin < 8 -> Z.testbit (PORTA st) EN_PIN = false ->
  wire (set_PORTA (clear_bit pin) st) = wire st
  /\ Z.testbit (PORTA (set_PORTA (clear_bit pin) st)) EN_PIN = false.
Proof.
  intros Hpin Hen. rewrite wire_set_PORTA. cbn [lcd_sees].
  rewrite Hen. cbn [andb]. rewrite app_nil_r. split; [reflexivity |].
  cbn [set_PORTA PORTA]. rewrite uint8_bit by (unfold EN_PIN; lia).
  destruct (Z.eq_dec pin EN_PIN) as [-> | Hne].
  - apply clear_bit_same. unfold EN_PIN. lia.
  - rewrite clear_bit_other by (unfold EN_PIN in *; lia). exact Hen.
Qed.

Lemma set_DDRA_PORTA (f : Z -> Z) (st : state) : PORTA (set_DDRA f st) = PORTA st.
Proof. reflexivity. Qed.

Lemma sendNibble_command (n : Z) (st : state) :
  0 <= n < 16 -> wire (sendNibble 0 n st) = wire st ++ nibble_xfer 0 n.
Proof. intros H. apply sendNibble_wire; [left; reflexivity | exact H]. Qed.

Lemma lcd_clear_wire (st : state) :
  wire (lcd_clear st) = wire st ++ byte_xfer 0 0x01 1640.
Proof. unfold lcd_clear, seq. autorewrite with lcd. reflexivity. Qed.

Lemma lcd_clear_cursor (st : state) : lcdCursor (lcd_clear st) = 0.
Proof. reflexivity. Qed.

Lemma lcd_clear_buffer (st : state) : utf8Buffer (lcd_clear st) = utf8Buffer st.
Proof. reflexivity. Qed.

#[local] Hint Rewrite lcd_clear_wire lcd_clear_cursor lcd_clear_buffer : lcd.
#[local] Hint Rewrite sendNibble_command using lia : lcd.

(** C8. Entered with EN low (as after reset, and after every transfer of the
    driver), [lcd_init] puts on the wire, after the power-on delay and
    before the first glyph registration: the nibbles 0011, 0011, 0011 and
    0010 with their waits, then the command bytes 0x28 (function set), 0x08
    (display off), 0x01 (clear), 0x06 (entry mode) and 0x0C (display on), in
    that order, each followed by its fixed delay. *)
Theorem lcd_init_sequence (st : state) :
  Z.testbit (PORTA st) EN_PIN = false ->
  wire (lcd_init st) =
  wire st
  ++ [WaitMs 15]
  ++ nibble_xfer 0 3 ++ [WaitMs 5]
  ++ nibble_xfer 0 3 ++ [WaitUs 100]
  ++ nibble_xfer 0 3 ++ [WaitUs 100]
  ++ nibble_xfer 0 2 ++ [WaitUs 42]
  ++ byte_xfer 0 0x28 42
  ++ byte_xfer 0 0x08 42
  ++ byte_xfer 0 0x01 1640
  ++ byte_xfer 0 0x06 42
  ++ byte_xfer 0 0x0C 42
  ++ register_xfer LCD_CC_TILDE LCD_CC_TILDE_BITMAP 0
  ++ register_xfer LCD_CC_BACKSLASH LCD_CC_BACKSLASH_BITMAP 0.
Proof.
  intros Hen. unfold lcd_init, seq.
  (* the pin configuration is silent *)
  destruct (clear_pin_quiet RW_PIN st) as [W1 E1];
    [unfold RW_PIN; lia | exact Hen |].
  rewrite <- (set_DDRA_PORTA (set_bit RW_PIN)) in E1.
  destruct (clear_pin_quiet RS_PIN _ ltac:(unfold RS_PIN; lia) E1) as [W2 E2].
  rewrite <- (set_DDRA_PORTA (set_bit RS_PIN)) in E2.
  destruct (clear_pin_quiet EN_PIN _ ltac:(unfold EN_PIN; lia) E2) as [W3 E3].
  rewrite <- (set_DDRA_PORTA (set_bit EN_PIN)) in E3.
  destruct (clear_pin_quiet DB4_PIN _ ltac:(unfold DB4_PIN; lia) E3) as [W4 E4].
  rewrite <- (set_DDRA_PORTA (set_bit DB4_PIN)) in E4.
  destruct (clear_pin_quiet DB5_PIN _ ltac:(unfold DB5_PIN; lia) E4) as [W5 E5].
  rewrite <- (set_DDRA_PORTA (set_bit DB5_PIN)) in E5.
  destruct (clear_pin_quiet DB6_PIN _ ltac:(unfold DB6_PIN; lia) E5) as [W6 E6].
  rewrite <- (set_DDRA_PORTA (set_bit DB6_PIN)) in E6.
  destruct (clear_pin_quiet DB7_PIN _ ltac:(unfold DB7_PIN; lia) E6) as [W7 _].
  (* the transfers, from the last one back *)
  rewrite !lcd_registerCustomChar_wire.
  destruct (lcd_registerCustomChar_globals LCD_CC_TILDE LCD_CC_TILDE_BITMAP
    (SEND_BYTE 0 12 42 (SEND_BYTE 0 6 42 (lcd_clear (SEND_BYTE 0 8 42
      (SEND_BYTE 0 40 42 (_delay_us 42 (sendNibble 0 2 (_delay_us 100
        (sendNibble 0 3 (_delay_us 100 (sendNibble 0 3 (delayMs 5
          (sendNibble 0 3 (delayMs 15 (set_DDRA (set_bit DB7_PIN)
            (set_PORTA (clear_bit DB7_PIN) (set_DDRA (set_bit DB6_PIN)
              (set_PORTA (clear_bit DB6_PIN) (set_DDRA (set_bit DB5_PIN)
                (set_PORTA (clear_bit DB5_PIN) (set_DDRA (set_bit DB4_PIN)
                  (set_PORTA (clear_bit DB4_PIN) (set_DDRA (set_bit EN_PIN)
                    (set_PORTA (clear_bit EN_PIN) (set_DDRA (set_bit RS_PIN)
                      (set_PORTA (clear_bit RS_PIN) (set_DDRA (set_bit RW_PIN)
                        (set_PORTA (clear_bit RW_PIN) st)))))))))))))))))))))))))))))
    as [Hcur _].
  rewrite Hcur.
  autorewrite with lcd.
  rewrite W7, wire_set_DDRA, W6, wire_set_DDRA, W5, wire_set_DDRA, W4,
    wire_set_DDRA, W3, wire_set_DDRA, W2, wire_set_DDRA, W1.
  unfold register_xfer. rewrite <- !app_assoc. reflexivity.
Qed.

Lemma lcd_init_sequence_witness :
  wire (lcd_init reset_state) =
  wire reset_state
  ++ [WaitMs 15]
  ++ nibble_xfer 0 3 ++ [WaitMs 5]
  ++ nibble_xfer 0 3 ++ [WaitUs 100]
  ++ nibble_xfer 0 3 ++ [WaitUs 100]
  ++ nibble_xfer 0 2 ++ [WaitUs 42]
  ++ byte_xfer 0 0x28 42
  ++ byte_xfer 0 0x08 42
  ++ byte_xfer 0 0x01 1640
  ++ byte_xfer 0 0x06 42
  ++ byte_xfer 0 0x0C 42
  ++ register_xfer LCD_CC_TILDE LCD_CC_TILDE_BITMAP 0
  ++ register_xfer LCD_CC_BACKSLASH LCD_CC_BACKSLASH_BITMAP 0.
Proof. apply (lcd_init_sequence reset_state). reflexivity. Defined.

(** ** Writing a decoded code point *)

Lemma lcdCode_range (codePoint : Z) : 0 <= lcdCode codePoint < 256.
Proof.
  unfold lcdCode, LCD_CC_BACKSLASH, LCD_CC_TILDE.
  set (other := if codePoint <=? 128 then uint8 codePoint else 255).
  assert (Hother : 0 <= other < 256).
  { unfold other. destruct (codePoint <=? 128); [apply uint8_range | lia]. }
  clearbody other.
  repeat match goal with
         | |- context [match ?x with _ => _ end] => destruct x
         end;
    lia.
Qed.

Lemma lcd_writeChar_unfold (character : Z) (st : state) :
  lcd_writeChar character st =
  match utf8_scan (utf8_push (utf8Buffer st) character) with
  | None => set_utf8Buffer (utf8_push (utf8Buffer st) character) st
  | Some codePoint => lcd_putCode codePoint (set_utf8Buffer 0 st)
  end.
Proof.
  unfold lcd_writeChar.
  destruct (utf8_scan (utf8_push (utf8Buffer st) character)); reflexivity.
Qed.

Lemma lcd_line2_wire (st : state) :
  wire (lcd_line2 st) = wire st ++ byte_xfer 0 0xC0 42.
Proof. unfold lcd_line2, seq. autorewrite with lcd. reflexivity. Qed.

Lemma lcd_line2_cursor (st : state) : lcdCursor (lcd_line2 st) = 16.
Proof. reflexivity. Qed.

Lemma lcd_line2_buffer (st : state) : utf8Buffer (lcd_line2 st) = utf8Buffer st.
Proof. reflexivity. Qed.

#[local] Hint Rewrite lcd_line2_wire lcd_line2_cursor lcd_line2_buffer : lcd.

(** A glyph: the page break the position asks for, then one byte to the
    data register, then the cursor one further. *)
Lemma lcd_putCode_glyph (codePoint : Z) (st : state) :
  codePoint <> 10 ->
  wire (lcd_putCode codePoint st)
    = wire st ++ page_break (lcdCursor st) ++ byte_xfer 1 (lcdCode codePoint) 46
  /\ lcdCursor (lcd_putCode codePoint st)
     = uint8 ((if lcdCursor st =? 32 then 0 else lcdCursor st) + 1)
  /\ utf8Buffer (lcd_putCode codePoint st) = utf8Buffer st.
Proof.
  intros Hlf. unfold lcd_putCode, page_break, seq, skip.
  destruct (Z.eqb_spec codePoint 10) as [E | _]; [contradiction |].
  destruct (Z.eqb_spec (lcdCursor st) 32) as [E32 | N32];
    [| destruct (Z.eqb_spec (lcdCursor st) 16) as [E16 | N16]];
    cbv beta;
    autorewrite with lcd;
    rewrite (uint8_small (lcdCode codePoint)) by apply lcdCode_range;
    rewrite <- ?app_assoc; rewrite ?E16; repeat split.
Qed.

(** The line feed: one "set DDRAM address" command and no glyph. *)
Lemma lcd_putCode_line_feed (st : state) :
  wire (lcd_putCode 10 st)
    = wire st ++ byte_xfer 0 (if lcdCursor st <? 16 then 0xC0 else 0x80) 42
  /\ lcdCursor (lcd_putCode 10 st) = (if lcdCursor st <? 16 then 16 else 32)
  /\ utf8Buffer (lcd_putCode 10 st) = utf8Buffer st.
Proof.
  unfold lcd_putCode, seq. cbn [Z.eqb Pos.eqb].
  destruct (lcdCursor st <? 16); autorewrite with lcd; repeat split.
Qed.

(** C5. A write that carries a glyph (a byte completing a code point other
    than the line feed) at position 31 leaves the cursor on the sentinel 32;
    the next such write first sends "clear display", which resets the cursor
    to 0, then the glyph, and ends on position 1.  A glyph written at
    position 16 is preceded by the jump to line 2. *)
Theorem write_breaks_pages (c1 c2 c3 cp1 cp2 cp3 : Z) (st st16 : state) :
  lcdCursor st = 31 ->
  utf8_scan (utf8_push (utf8Buffer st) c1) = Some cp1 -> cp1 <> 10 ->
  utf8_scan (utf8_push 0 c2) = Some cp2 -> cp2 <> 10 ->
  lcdCursor st16 = 16 ->
  utf8_scan (utf8_push (utf8Buffer st16) c3) = Some cp3 -> cp3 <> 10 ->
  lcdCursor (lcd_writeChar c1 st) = 32
  /\ wire (lcd_writeChar c1 st) = wire st ++ byte_xfer 1 (lcdCode cp1) 46
  /\ wire (lcd_writeChar c2 (lcd_writeChar c1 st))
     = wire (lcd_clear (lcd_writeChar c1 st)) ++ byte_xfer 1 (lcdCode cp2) 46
  /\ wire (lcd_clear (lcd_writeChar c1 st))
     = wire (lcd_writeChar c1 st) ++ byte_xfer 0 0x01 1640
  /\ lcdCursor (lcd_clear (lcd_writeChar c1 st)) = 0
  /\ lcdCursor (lcd_writeChar c2 (lcd_writeChar c1 st)) = 1
  /\ wire (lcd_writeChar c3 st16)
     = wire (lcd_line2 st16) ++ byte_xfer 1 (lcdCode cp3) 46
  /\ wire (lcd_line2 st16) = wire st16 ++ byte_xfer 0 0xC0 42
  /\ lcdCursor (lcd_writeChar c3 st16) = 17.
Proof.
  intros H31 S1 L1 S2 L2 H16 S3 L3.
  assert (W1 : lcd_writeChar c1 st = lcd_putCode cp1 (set_utf8Buffer 0 st))
    by (rewrite lcd_writeChar_unfold, S1; reflexivity).
  destruct (lcd_putCode_glyph cp1 (set_utf8Buffer 0 st) L1) as [T1 [C1 B1]].
  rewrite <- W1 in T1, C1, B1.
  autorewrite with lcd in T1, C1, B1. rewrite H31 in T1, C1.
  assert (W2 : lcd_writeChar c2 (lcd_writeChar c1 st)
               = lcd_putCode cp2 (set_utf8Buffer 0 (lcd_writeChar c1 st)))
    by (rewrite (lcd_writeChar_unfold c2), B1, S2; reflexivity).
  destruct (lcd_putCode_glyph cp2 (set_utf8Buffer 0 (lcd_writeChar c1 st)) L2)
    as [T2 [C2 _]].
  rewrite <- W2 in T2, C2. autorewrite with lcd in T2, C2. rewrite C1 in T2, C2.
  assert (W3 : lcd_writeChar c3 st16 = lcd_putCode cp3 (set_utf8Buffer 0 st16))
    by (rewrite lcd_writeChar_unfold, S3; reflexivity).
  destruct (lcd_putCode_glyph cp3 (set_utf8Buffer 0 st16) L3) as [T3 [C3 _]].
  rewrite <- W3 in T3, C3. autorewrite with lcd in T3, C3. rewrite H16 in T3, C3.
  rewrite lcd_clear_wire, lcd_line2_wire, <- !app_assoc.
  repeat split; assumption.
Qed.

Lemma write_breaks_pages_witness :
  lcdCursor (lcd_writeChar 65 (lcd_goto 2 16 reset_state)) = 32
  /\ wire (lcd_writeChar 66 (lcd_writeChar 65 (lcd_goto 2 16 reset_state)))
     = wire (lcd_writeChar 65 (lcd_goto 2 16 reset_state))
       ++ byte_xfer 0 0x01 1640 ++ byte_xfer 1 66 46
  /\ lcdCursor (lcd_writeChar 66 (lcd_writeChar 65 (lcd_goto 2 16 reset_state))) = 1
  /\ lcdCursor (lcd_writeChar 67 (lcd_line2 reset_state)) = 17.
Proof.
  destruct (write_breaks_pages 65 66 67 65 66 67
              (lcd_goto 2 16 reset_state) (lcd_line2 reset_state))
    as [A [_ [B1 [B2 [_ [C [_ [_ D]]]]]]]].
  - vm_compute. reflexivity.
  - vm_compute. reflexivity.
  - discriminate.
  - vm_compute. reflexivity.
  - discriminate.
  - vm_compute. reflexivity.
  - vm_compute. reflexivity.
  - discriminate.
  - rewrite B1, B2, <- app_assoc. repeat split; assumption.
Defined.

(** ** The UTF-8 decoder *)

Lemma trace_eqb_eq (a : list (option Z)) :
  forall b, trace_eqb a b = true -> a = b.
Proof.
  induction a as [| x a IH]; intros [| y b] H; try discriminate; [reflexivity |].
  cbn [trace_eqb] in H. apply andb_true_iff in H. destruct H as [Hxy Hab].
  rewrite (IH b Hab). f_equal.
  destruct x as [x |], y as [y |]; try discriminate; [| reflexivity].
  cbn in Hxy. apply Z.eqb_eq in Hxy. subst. reflexivity.
Qed.

Lemma utf8_trace_firstn (k : nat) :
  forall bytes buffer,
    utf8_trace buffer (firstn k bytes) = firstn k (utf8_trace buffer bytes).
Proof.
  induction k as [| k IH]; intros [| b bytes] buffer; try reflexivity.
  cbn [firstn utf8_trace].
  destruct (utf8_scan (utf8_push buffer b)); cbn [firstn]; rewrite IH; reflexivity.
Qed.

(** Bytes on which the decoder stays silent only move the accumulator. *)
Lemma feed_silent (bytes : list Z) :
  forall st,
    utf8_trace (utf8Buffer st) bytes = repeat None (length bytes) ->
    wire (feed bytes st) = wire st
    /\ lcdCursor (feed bytes st) = lcdCursor st
    /\ utf8Buffer (feed bytes st) = fold_left utf8_push bytes (utf8Buffer st).
Proof.
  induction bytes as [| b bytes IH]; intros st H.
  - repeat split.
  - cbn [utf8_trace length repeat] in H. cbn [feed fold_left]. unfold seq.
    rewrite lcd_writeChar_unfold.
    destruct (utf8_scan (utf8_push (utf8Buffer st) b)); [discriminate |].
    injection H as H.
    destruct (IH (set_utf8Buffer (utf8_push (utf8Buffer st) b) st) H)
      as [Hw [Hc Hb]].
    rewrite Hw, Hc, Hb. repeat split.
Qed.

(** Silence, then one decode on the last byte: the whole sequence acts as
    [lcd_putCode] on the decoded code point, with the accumulator empty. *)
Lemma feed_dispatch (front : list Z) (b cp : Z) :
  forall st,
    utf8_trace (utf8Buffer st) (front ++ [b])
      = repeat None (length front) ++ [Some cp] ->
    feed (front ++ [b]) st = lcd_putCode cp (set_utf8Buffer 0 st).
Proof.
  induction front as [| a front IH]; intros st H.
  - cbn [app utf8_trace length repeat] in H. cbn [app feed]. unfold seq, skip.
    rewrite lcd_writeChar_unfold.
    destruct (utf8_scan (utf8_push (utf8Buffer st) b)); [| discriminate].
    injection H as ->. reflexivity.
  - cbn [app utf8_trace length repeat] in H. cbn [app feed]. unfold seq.
    rewrite lcd_writeChar_unfold.
    destruct (utf8_scan (utf8_push (utf8Buffer st) a)); [discriminate |].
    injection H as H.
    rewrite (IH (set_utf8Buffer (utf8_push (utf8Buffer st) a) st) H).
    reflexivity.
Qed.

Lemma encode_split (cp : Z) :
  exists front b,
    Utf8.encode cp = front ++ [b]
    /\ length front = (length (Utf8.encode cp) - 1)%nat.
Proof.
  unfold Utf8.encode.
  destruct (cp <? 128); [exists [], cp; split; reflexivity |].
  destruct (cp <? 2048);
    [exists [Z.lor 192 (Z.shiftr cp 6)], (Z.lor 128 (Z.land cp 63));
     split; reflexivity |].
  destruct (cp <? 65536).
  - exists [Z.lor 224 (Z.shiftr cp 12); Z.lor 128 (Z.land (Z.shiftr cp 6) 63)],
      (Z.lor 128 (Z.land cp 63)).
    split; reflexivity.
  - exists [Z.lor 240 (Z.shiftr cp 18); Z.lor 128 (Z.land (Z.shiftr cp 12) 63);
            Z.lor 128 (Z.land (Z.shiftr cp 6) 63)],
      (Z.lor 128 (Z.land cp 63)).
    split; reflexivity.
Qed.

(** Every code point of at most two bytes, by running the decoder. *)
Lemma round_trip_short_checked : all_from 0 (Z.to_nat 0x800) round_trip = true.
Proof. vm_cast_no_check (eq_refl true). Qed.

Lemma round_trip_short (cp : Z) : 0 <= cp < 0x800 -> round_trip cp = true.
Proof.
  intros H.
  refine (all_from_spec round_trip _ 0 round_trip_short_checked cp _).
  rewrite Z2Nat.id; lia.
Qed.

(** Code points of three and of four bytes: the leading bytes and the last
    one are checked apart, and put together with the distribution of [&]
    over [|]. *)
Lemma triple_front_checked :
  all_from 0x20 (Z.to_nat 0x3E0) triple_front_ok = true.
Proof. vm_cast_no_check (eq_refl true). Qed.

Lemma astral_front_checked :
  all_from 0x400 (Z.to_nat 0x4000) astral_front_ok = true.
Proof. vm_cast_no_check (eq_refl true). Qed.

Lemma last_byte_checked : all_from 0 64 last_byte_ok = true.
Proof. vm_cast_no_check (eq_refl true). Qed.

Lemma utf8_trace_app_silent (front rest : list Z) :
  forall buffer,
    utf8_trace buffer front = repeat None (length front) ->
    utf8_trace buffer (front ++ rest)
    = repeat None (length front) ++ utf8_trace (fold_left utf8_push front buffer) rest.
Proof.
  induction front as [| b front IH]; intros buffer H; [reflexivity |].
  cbn [app utf8_trace length repeat fold_left] in *.
  destruct (utf8_scan (utf8_push buffer b)); [discriminate |].
  injection H as H. rewrite (IH _ H). reflexivity.
Qed.

Ltac split_checks H :=
  repeat (apply andb_true_iff in H; destruct H as [H ?]);
  repeat match goal with E : (_ =? _) = true |- _ => apply Z.eqb_eq in E end.

Lemma scan_last_of_three (a e : Z) :
  Z.land a 0xf8000000 = 0 ->
  Z.land a 0xfff00000 = 0x00e00000 ->
  Z.land a 0x0000c0c0 = 0x00008000 ->
  Z.land a 0x0000003f = 0 ->
  last_byte_ok e = true ->
  utf8_scan (Z.lor a (uint8 (Z.lor 0x80 e))) = Some (Z.lor (triple_high a) e).
Proof.
  intros Hno4 Hlead Hcont Hlow Hlast.
  unfold last_byte_ok in Hlast. split_checks Hlast.
  unfold utf8_scan, triple_high.
  rewrite !Z.land_lor_distr_l.
  repeat match goal with E : Z.land _ _ = _ |- _ => rewrite E end.
  rewrite !Z.lor_0_r.
  change (0 =? 0xf0000000) with false. cbv iota.
  rewrite Z.eqb_refl.
  change (Z.lor 0x00008000 0x80) with 0x00008080.
  rewrite Z.eqb_refl, Z.lor_0_l. reflexivity.
Qed.

Lemma scan_last_of_four (a e : Z) :
  Z.land a 0xf8000000 = 0xf0000000 ->
  Z.land a 0x00c0c0c0 = 0x00808000 ->
  Z.land a 0x0000003f = 0 ->
  last_byte_ok e = true ->
  utf8_scan (Z.lor a (uint8 (Z.lor 0x80 e))) = Some (Z.lor (astral_high a) e).
Proof.
  intros Hlead Hcont Hlow Hlast.
  unfold last_byte_ok in Hlast. split_checks Hlast.
  unfold utf8_scan, astral_high.
  rewrite !Z.land_lor_distr_l.
  repeat match goal with E : Z.land _ _ = _ |- _ => rewrite E end.
  rewrite !Z.lor_0_r, Z.eqb_refl.
  change (Z.lor 0x00808000 0x80) with 0x00808080.
  rewrite Z.eqb_refl, Z.lor_0_l. reflexivity.
Qed.

Lemma encode_triple (cp : Z) :
  0x800 <= cp < 0x10000 ->
  Utf8.encode cp
  = triple_front (Z.shiftr cp 6) ++ [Z.lor 0x80 (Z.land cp 0x3F)].
Proof.
  intros H. unfold Utf8.encode, triple_front.
  destruct (Z.ltb_spec cp 128); [lia |].
  destruct (Z.ltb_spec cp 2048); [lia |].
  destruct (Z.ltb_spec cp 65536); [| lia].
  rewrite !Z.shiftr_shiftr by lia. reflexivity.
Qed.

Lemma encode_astral (cp : Z) :
  0x10000 <= cp ->
  Utf8.encode cp
  = astral_front (Z.shiftr cp 6) ++ [Z.lor 0x80 (Z.land cp 0x3F)].
Proof.
  intros H. unfold Utf8.encode, astral_front.
  destruct (Z.ltb_spec cp 128); [lia |].
  destruct (Z.ltb_spec cp 2048); [lia |].
  destruct (Z.ltb_spec cp 65536); [lia |].
  rewrite !Z.shiftr_shiftr by lia. reflexivity.
Qed.

Lemma low_six_range (cp : Z) : 0 <= Z.land cp 0x3F < 0 + Z.of_nat 64.
Proof.
  change 0x3F with (Z.ones 6). rewrite Z.land_ones by lia.
  change (2 ^ 6) with 64. pose proof (Z.mod_pos_bound cp 64 ltac:(lia)).
  simpl. lia.
Qed.

Lemma join_six (cp : Z) :
  Z.lor (Z.shiftl (Z.shiftr cp 6) 6) (Z.land cp 0x3F) = cp.
Proof.
  change 0x3F with (Z.ones 6).
  rewrite <- Z.ldiff_ones_r by lia. apply Z.lor_ldiff_and.
Qed.

Lemma round_trip_triple (cp : Z) :
  0x800 <= cp < 0x10000 ->
  utf8_trace 0 (Utf8.encode cp) = [None; None; Some cp].
Proof.
  intros H. rewrite encode_triple by lia.
  set (q := Z.shiftr cp 6). set (e := Z.land cp 0x3F).
  assert (Hq : 0x20 <= q < 0x20 + Z.of_nat (Z.to_nat 0x3E0)).
  { unfold q. rewrite Z.shiftr_div_pow2, Z2Nat.id by lia.
    change (2 ^ 6) with 64. split.
    - apply Z.div_le_lower_bound; lia.
    - apply Z.div_lt_upper_bound; lia. }
  pose proof (all_from_spec _ _ _ triple_front_checked q Hq) as Fq.
  pose proof (all_from_spec _ _ _ last_byte_checked e (low_six_range cp)) as Fe.
  unfold triple_front_ok in Fq. split_checks Fq.
  apply trace_eqb_eq in Fq.
  rewrite (utf8_trace_app_silent (triple_front q)) by exact Fq.
  cbn [length repeat app utf8_trace]. unfold utf8_push at 1.
  rewrite scan_last_of_three by assumption.
  match goal with E : triple_high _ = _ |- _ => rewrite E end.
  unfold q, e. rewrite join_six. reflexivity.
Qed.

Lemma round_trip_astral (cp : Z) :
  0x10000 <= cp < 0x110000 ->
  utf8_trace 0 (Utf8.encode cp) = [None; None; None; Some cp].
Proof.
  intros H. rewrite encode_astral by lia.
  set (q := Z.shiftr cp 6). set (e := Z.land cp 0x3F).
  assert (Hq : 0x400 <= q < 0x400 + Z.of_nat (Z.to_nat 0x4000)).
  { unfold q. rewrite Z.shiftr_div_pow2, Z2Nat.id by lia.
    change (2 ^ 6) with 64. split.
    - apply Z.div_le_lower_bound; lia.
    - apply Z.div_lt_upper_bound; lia. }
  pose proof (all_from_spec _ _ _ astral_front_checked q Hq) as Fq.
  pose proof (all_from_spec _ _ _ last_byte_checked e (low_six_range cp)) as Fe.
  unfold astral_front_ok in Fq. split_checks Fq.
  apply trace_eqb_eq in Fq.
  rewrite (utf8_trace_app_silent (astral_front q)) by exact Fq.
  cbn [length repeat app utf8_trace]. unfold utf8_push at 1.
  rewrite scan_last_of_four by assumption.
  match goal with E : astral_high _ = _ |- _ => rewrite E end.
  unfold q, e. rewrite join_six. reflexivity.
Qed.

(** The round trip through the decoder, for every code point. *)
Lemma round_trip_trace (cp : Z) :
  0 <= cp <= 0x10FFFF ->
  utf8_trace 0 (Utf8.encode cp)
  = repeat None (length (Utf8.encode cp) - 1) ++ [Some cp].
Proof.
  intros H.
  destruct (Z.ltb_spec cp 0x800) as [Hshort | Hlong];
    [| destruct (Z.ltb_spec cp 0x10000) as [Htriple | Hastral]].
  - apply trace_eqb_eq, round_trip_short. lia.
  - rewrite round_trip_triple, encode_triple by lia. reflexivity.
  - rewrite round_trip_astral, encode_astral by lia. reflexivity.
Qed.

Lemma firstn_repeat_le {A : Type} (x : A) (n : nat) :
  forall k, (k <= n)%nat -> firstn k (repeat x n) = repeat x k.
Proof.
  induction n as [| n IH]; intros [| k] Hk; try reflexivity; try lia.
  cbn [repeat firstn]. rewrite IH by lia. reflexivity.
Qed.

(** C3, as the code has it.  For every Unicode code point, the bytes of its
    UTF-8 encoding, fed one at a time to [lcd_writeChar] on an empty
    accumulator, put nothing on the wire and leave the cursor alone up to
    the last byte, which empties the accumulator and dispatches the code
    point once: any code point but U+000A as its mapped glyph byte, sent to
    the data register after the page break its position asks for; U+000A as
    a cursor move, with no glyph.  The bytes 0x41, 0xE2, 0x86, 0x90 on a
    fresh display give the glyphs 0x41 and 0x7F and move the cursor by 2. *)
Theorem utf8_round_trip (cp : Z) (st : state) :
  0 <= cp <= 0x10FFFF -> utf8Buffer st = 0 ->
  (forall k, (k < length (Utf8.encode cp))%nat ->
     wire (feed (firstn k (Utf8.encode cp)) st) = wire st
     /\ lcdCursor (feed (firstn k (Utf8.encode cp)) st) = lcdCursor st)
  /\ utf8Buffer (feed (Utf8.encode cp) st) = 0
  /\ wire (feed (Utf8.encode cp) st)
     = wire st
       ++ (if cp =? 10
           then byte_xfer 0 (if lcdCursor st <? 16 then 0xC0 else 0x80) 42
           else page_break (lcdCursor st) ++ byte_xfer 1 (lcdCode cp) 46)
  /\ wire (feed [0x41; 0xE2; 0x86; 0x90] reset_state)
     = byte_xfer 1 0x41 46 ++ byte_xfer 1 0x7F 46
  /\ lcdCursor (feed [0x41; 0xE2; 0x86; 0x90] reset_state)
     = lcdCursor reset_state + 2.
Proof.
  intros Hcp Hempty.
  pose proof (round_trip_trace cp Hcp) as Htrace.
  destruct (encode_split cp) as [front [b [Hsplit Hlen]]].
  rewrite <- Hlen in Htrace. rewrite Hsplit in *.
  assert (Hst : set_utf8Buffer 0 st = st).
  { destruct st as [p d u c l]. cbn in Hempty. subst u. reflexivity. }
  split; [| split; [| split; [| split]]].
  - intros k Hk. rewrite length_app in Hk. cbn [length] in Hk.
    assert (Hsilent : utf8_trace (utf8Buffer st) (firstn k (front ++ [b]))
                      = repeat None (length (firstn k (front ++ [b])))).
    { rewrite Hempty, utf8_trace_firstn, Htrace, length_firstn, length_app.
      cbn [length]. rewrite Nat.min_l by lia.
      rewrite firstn_app, repeat_length.
      replace (k - length front)%nat with 0%nat by lia.
      cbn [firstn]. rewrite app_nil_r. apply firstn_repeat_le. lia. }
    destruct (feed_silent _ st Hsilent) as [Hw [Hc _]]. split; assumption.
  - rewrite (feed_dispatch front b cp st) by (rewrite Hempty; exact Htrace).
    rewrite Hst. destruct (Z.eq_dec cp 10) as [-> | Hne].
    + rewrite (proj2 (proj2 (lcd_putCode_line_feed st))). exact Hempty.
    + rewrite (proj2 (proj2 (lcd_putCode_glyph cp st Hne))). exact Hempty.
  - rewrite (feed_dispatch front b cp st) by (rewrite Hempty; exact Htrace).
    rewrite Hst. destruct (Z.eqb_spec cp 10) as [-> | Hne].
    + apply lcd_putCode_line_feed.
    + apply lcd_putCode_glyph. exact Hne.
  - vm_compute. reflexivity.
  - vm_compute. reflexivity.
Qed.

Lemma utf8_round_trip_witness :
  wire (feed (Utf8.encode 0x2190) (lcd_goto 1 3 reset_state))
  = wire (lcd_goto 1 3 reset_state) ++ byte_xfer 1 0x7F 46
  /\ wire (feed [0xE2; 0x86] (lcd_goto 1 3 reset_state))
     = wire (lcd_goto 1 3 reset_state).
Proof.
  destruct (utf8_round_trip 0x2190 (lcd_goto 1 3 reset_state))
    as [Hquiet [_ [Hwire _]]].
  - lia.
  - vm_compute. reflexivity.
  - split.
    + exact Hwire.
    + apply (Hquiet 2%nat). vm_compute. lia.
Defined.

(** C3 as it is worded fails at U+000A: its one byte is dispatched, and what
    reaches the controller is the command 0xC0 ("set DDRAM address 0x40"),
    not the glyph byte of the code point on the data register. *)
Lemma line_feed_writes_no_glyph :
  Utf8.encode 10 = [10]
  /\ wire (feed (Utf8.encode 10) reset_state) = byte_xfer 0 0xC0 42
  /\ wire (feed (Utf8.encode 10) reset_state)
     <> wire reset_state ++ page_break (lcdCursor reset_state)
        ++ byte_xfer 1 (lcdCode 10) 46.
Proof. repeat split. vm_compute. discriminate. Qed.

Lemma feed_app (a b : list Z) :
  forall st, feed (a ++ b) st = feed b (feed a st).
Proof.
  induction a as [| x a IH]; intros st; [reflexivity |].
  cbn [app feed]. unfold seq. apply IH.
Qed.

(** For every start position up to 30 the scenario of C3 moves the cursor
    by 2. *)
Lemma arrow_scenario_cursor (st : state) :
  utf8Buffer st = 0 -> 0 <= lcdCursor st <= 30 ->
  lcdCursor (feed [0x41; 0xE2; 0x86; 0x90] st) = lcdCursor st + 2.
Proof.
  intros Hempty Hcur.
  change [0x41; 0xE2; 0x86; 0x90] with ([0x41] ++ [0xE2; 0x86; 0x90]).
  rewrite feed_app.
  change [0x41] with ([] ++ [0x41]).
  rewrite (feed_dispatch [] 0x41 0x41 st) by (rewrite Hempty; reflexivity).
  destruct (lcd_putCode_glyph 65 (set_utf8Buffer 0 st)) as [_ [C1 B1]];
    [discriminate |].
  autorewrite with lcd in C1, B1.
  set (s1 := lcd_putCode 65 (set_utf8Buffer 0 st)) in *.
  change [0xE2; 0x86; 0x90] with ([0xE2; 0x86] ++ [0x90]).
  rewrite (feed_dispatch [0xE2; 0x86] 0x90 0x2190 s1)
    by (rewrite B1; reflexivity).
  destruct (lcd_putCode_glyph 0x2190 (set_utf8Buffer 0 s1)) as [_ [C2 _]];
    [discriminate |].
  autorewrite with lcd in C2. rewrite C2, C1.
  destruct (Z.eqb_spec (lcdCursor st) 32); [lia |].
  rewrite (uint8_small (lcdCursor st + 1)) by lia.
  destruct (Z.eqb_spec (lcdCursor st + 1) 32); [lia |].
  rewrite uint8_small by lia. lia.
Qed.

(** ** Malformed input *)

Lemma utf8_scan_tests (buffer : Z) :
  utf8_scan buffer =
  if lead4 buffer then
    if cont4 buffer then
      Some (Z.lor (astral_high buffer) (Z.land buffer 0x0000003f))
    else Some 0xFFFD
  else if lead3 buffer then
    if cont3 buffer then
      Some (Z.lor (Z.lor (Z.shiftr (Z.land buffer 0x000f0000) 4)
                         (Z.shiftr (Z.land buffer 0x00003f00) 2))
                  (Z.land buffer 0x0000003f))
    else Some 0xFFFD
  else if lead2 buffer then
    if cont2 buffer then
      Some (Z.lor (Z.shiftr (Z.land buffer 0x00001f00) 2)
                  (Z.land buffer 0x0000003f))
    else Some 0xFFFD
  else if lead1 buffer then Some buffer
  else None.
Proof. reflexivity. Qed.

Lemma broken_sequence_scan (buffer : Z) :
  broken_sequence buffer = true -> utf8_scan buffer = Some 0xFFFD.
Proof.
  rewrite utf8_scan_tests. unfold broken_sequence.
  destruct (lead4 buffer); [destruct (cont4 buffer); [discriminate | reflexivity] |].
  destruct (lead3 buffer); [destruct (cont3 buffer); [discriminate | reflexivity] |].
  destruct (lead2 buffer); [destruct (cont2 buffer); [discriminate | reflexivity] |].
  discriminate.
Qed.

Lemma no_shape_scan (buffer : Z) :
  no_shape buffer = true -> utf8_scan buffer = None.
Proof.
  rewrite utf8_scan_tests. unfold no_shape.
  destruct (lead4 buffer), (lead3 buffer), (lead2 buffer), (lead1 buffer);
    try discriminate. reflexivity.
Qed.

(** X24.  The malformed input the decoder does answer.  Whenever the
    accumulator, with the new byte shifted in, shows the leading byte of a
    2-, 3- or 4-byte sequence in its place and a byte after it that is not a
    continuation byte, the decoder dispatches the replacement code point
    U+FFFD, which maps to the glyph byte 0xFF and is written like any glyph;
    the accumulator is emptied. *)
Theorem replacement_on_broken_sequence (character : Z) (st : state) :
  broken_sequence (utf8_push (utf8Buffer st) character) = true ->
  utf8_scan (utf8_push (utf8Buffer st) character) = Some 0xFFFD
  /\ lcdCode 0xFFFD = 0xFF
  /\ lcd_writeChar character st = lcd_putCode 0xFFFD (set_utf8Buffer 0 st)
  /\ wire (lcd_writeChar character st)
     = wire st ++ page_break (lcdCursor st) ++ byte_xfer 1 0xFF 46
  /\ utf8Buffer (lcd_writeChar character st) = 0.
Proof.
  intros Hbroken. apply broken_sequence_scan in Hbroken.
  rewrite lcd_writeChar_unfold, Hbroken.
  destruct (lcd_putCode_glyph 0xFFFD (set_utf8Buffer 0 st)) as [Hw [_ Hb]];
    [discriminate |].
  autorewrite with lcd in Hw, Hb.
  repeat split; assumption.
Qed.

Lemma replacement_on_broken_sequence_witness :
  wire (lcd_writeChar 0x41 (lcd_writeChar 0xC3 reset_state))
  = byte_xfer 1 0xFF 46
  /\ utf8Buffer (lcd_writeChar 0x41 (lcd_writeChar 0xC3 reset_state)) = 0.
Proof.
  destruct (replacement_on_broken_sequence 0x41 (lcd_writeChar 0xC3 reset_state))
    as [_ [_ [_ [Hw Hb]]]].
  - vm_compute. reflexivity.
  - split; [exact Hw | exact Hb].
Defined.

(** A pattern of none of the four shapes is kept, and nothing is
    dispatched. *)
Lemma no_shape_is_buffered (character : Z) (st : state) :
  no_shape (utf8_push (utf8Buffer st) character) = true ->
  lcd_writeChar character st
  = set_utf8Buffer (utf8_push (utf8Buffer st) character) st.
Proof.
  intros H. rewrite lcd_writeChar_unfold, (no_shape_scan _ H). reflexivity.
Qed.

(** What is kept masks the text that follows: after a stray continuation
    byte, four ASCII letters reach the accumulator and not the display. *)
Example stray_byte_swallows_text :
  wire (feed [0x80; 0x41; 0x42; 0x43; 0x44] reset_state) = []
  /\ utf8Buffer (feed [0x80; 0x41; 0x42; 0x43; 0x44] reset_state) = 0x41424344.
Proof. split; reflexivity. Qed.

(** ** The cursor stays in range, except past the sentinel *)

Lemma lcd_move_cursor (row column : Z) (st : state) :
  0 <= lcdCursor st ->
  -128 <= row < 128 -> -128 <= column < 128 ->
  lcdCursor (lcd_move row column st)
  = ((lcdCursor st / 16 + row + 1) mod 2) * 16
    + (lcdCursor st + column + 15) mod 16.
Proof.
  intros Hcur Hrow Hcol. unfold lcd_move, seq.
  rewrite lcdCursor_updateCursor, lcdCursor_set_lcdCursor.
  assert (Er : int8 row = row)
    by (unfold int8; rewrite uint8_small by lia; lia).
  assert (Ec : int8 column = column)
    by (unfold int8; rewrite uint8_small by lia; lia).
  rewrite Er, Ec.
  replace (Z.land (Z.shiftr (lcdCursor st) 4 + (row + 1)) 1)
    with ((lcdCursor st / 16 + row + 1) mod 2).
  2:{ rewrite Z.shiftr_div_pow2 by lia. change (2 ^ 4) with 16.
      replace (lcdCursor st / 16 + (row + 1)) with (lcdCursor st / 16 + row + 1)
        by lia.
      symmetry. apply (Z.land_ones _ 1). lia. }
  replace (Z.land (lcdCursor st + (column + 15)) 0x0f)
    with ((lcdCursor st + column + 15) mod 16).
  2:{ replace (lcdCursor st + (column + 15)) with (lcdCursor st + column + 15)
        by lia.
      symmetry. apply (Z.land_ones _ 4). lia. }
  pose proof (Z.mod_pos_bound (lcdCursor st / 16 + row + 1) 2 ltac:(lia)) as Hr.
  pose proof (Z.mod_pos_bound (lcdCursor st + column + 15) 16 ltac:(lia)) as Hc.
  set (r := (lcdCursor st / 16 + row + 1) mod 2) in *.
  set (c := (lcdCursor st + column + 15) mod 16) in *.
  rewrite (uint8_small r), (uint8_small c) by lia.
  pose proof (cursor_of_row_column (r + 1) (c + 1) ltac:(lia) ltac:(lia)) as H.
  replace (r + 1 - 1) with r in H by lia. replace (c + 1 - 1) with c in H by lia.
  exact H.
Qed.

(** C2, what the code does instead.  From position 0, [lcd_move(1,0)] goes
    to position 15 (row 1, column 16) where the claim has position 16 (row
    2, column 1); a second call goes to position 14, not back to 0.  The
    example of lcd.h (column=5 from the 13th position ends on the 2nd
    position of the same row) ends on the 1st position of the other row. *)
Theorem lcd_move_misses_by_one :
  lcdCursor (lcd_init reset_state) = 0
  /\ lcdCursor (lcd_move 1 0 (lcd_init reset_state)) = 15
  /\ lcdCursor (lcd_move 1 0 (lcd_move 1 0 (lcd_init reset_state))) = 14
  /\ lcdCursor (lcd_move 0 0 (lcd_init reset_state)) = 31
  /\ lcdCursor (lcd_goto 1 13 (lcd_init reset_state)) = 12
  /\ lcdCursor (lcd_move 0 5 (lcd_goto 1 13 (lcd_init reset_state))) = 16.
Proof. repeat split; vm_compute; reflexivity. Qed.

Lemma lcd_writeChar_cursor (character : Z) (st : state) :
  0 <= lcdCursor st <= 32 -> 0 <= lcdCursor (lcd_writeChar character st) <= 32.
Proof.
  intros H. rewrite lcd_writeChar_unfold.
  destruct (utf8_scan (utf8_push (utf8Buffer st) character)) as [cp |];
    [| exact H].
  destruct (Z.eq_dec cp 10) as [-> | Hne].
  - rewrite (proj1 (proj2 (lcd_putCode_line_feed _))).
    destruct (lcdCursor (set_utf8Buffer 0 st) <? 16); lia.
  - rewrite (proj1 (proj2 (lcd_putCode_glyph cp _ Hne))).
    autorewrite with lcd.
    destruct (Z.eqb_spec (lcdCursor st) 32); [vm_compute; split; discriminate |].
    rewrite uint8_small; lia.
Qed.

(** Every public operation keeps the cursor within [0,32], [lcd_forward] on
    the sentinel excepted. *)
Lemma cursor_stays_in_range (o : op) (st : state) :
  0 <= lcdCursor st <= 32 ->
  (o = Forward -> lcdCursor st <> 32) ->
  0 <= lcdCursor (exec o st) <= 32.
Proof.
  intros H Hfw. destruct o; cbn [exec].
  - vm_compute. split; discriminate.
  - vm_compute. split; discriminate.
  - rewrite lcd_goto_unfold. autorewrite with lcd. unfold clamp. lia.
  - unfold lcd_move, seq. autorewrite with lcd.
    set (r := uint8 (Z.land _ 1)). set (c := uint8 (Z.land _ 15)).
    assert (Hr : 0 <= r <= 1).
    { unfold r. pose proof (nibble_bit_01 (Z.shiftl (Z.shiftr (lcdCursor st) 4
                                                     + (int8 row + 1)) 0) 0) as E.
      rewrite Z.shiftl_0_r, Z.shiftr_0_r in E.
      destruct E as [-> | ->]; vm_compute; split; discriminate. }
    assert (Hc : 0 <= c <= 15).
    { unfold c.
      change (Z.land (lcdCursor st + (int8 column + 15)) 15)
        with (Z.land (lcdCursor st + (int8 column + 15)) (Z.ones 4)).
      rewrite (Z.land_ones (lcdCursor st + (int8 column + 15)) 4 ltac:(lia)).
      change (2 ^ 4) with 16.
      pose proof (Z.mod_pos_bound (lcdCursor st + (int8 column + 15)) 16
                    ltac:(lia)).
      rewrite uint8_small; lia. }
    pose proof (cursor_of_row_column (r + 1) (c + 1) ltac:(lia) ltac:(lia)) as E.
    replace (r + 1 - 1) with r in E by lia. replace (c + 1 - 1) with c in E by lia.
    rewrite E. lia.
  - unfold lcd_back, seq. destruct (Z.eqb_spec (lcdCursor st) 0); autorewrite with lcd.
    + lia.
    + rewrite uint8_small; lia.
  - unfold lcd_forward, seq.
    destruct (Z.eqb_spec (lcdCursor st) 31); autorewrite with lcd.
    + lia.
    + specialize (Hfw eq_refl). rewrite uint8_small; lia.
  - unfold lcd_home, seq. autorewrite with lcd.
    assert (E : Z.land (lcdCursor st) 0x10 = lcdCursor st / 16 mod 2 * 16)
      by (by_cases (lcdCursor st) 0 33%nat).
    rewrite E. Z.div_mod_to_equations. lia.
  - vm_compute. split; discriminate.
  - unfold lcd_erase, seq. autorewrite with lcd. exact H.
  - apply lcd_writeChar_cursor. exact H.
Qed.

(** Hence every sequence of the nine other operations keeps the cursor in
    range. *)
Lemma run_without_forward (ops : list op) :
  forall st,
    Forall (fun o => o <> Forward) ops ->
    0 <= lcdCursor st <= 32 ->
    0 <= lcdCursor (run ops st) <= 32.
Proof.
  induction ops as [| o ops IH]; intros st Hops Hst; [exact Hst |].
  inversion Hops as [| ? ? Ho Hrest]; subst.
  cbn [run]. unfold seq. apply IH; [exact Hrest |].
  apply cursor_stays_in_range; [exact Hst | intros E; contradiction].
Qed.

(** C1, where the code leaves the range.  On a display just initialised,
    goto(2,16) puts the cursor on 31, a character written there puts it on
    the sentinel 32, and [lcd_forward] then makes it 33; the next character
    is written without the clear the sentinel stands for and leaves 34. *)
Theorem lcd_forward_passes_sentinel :
  lcdCursor (run [Goto 2 16] (lcd_init reset_state)) = 31
  /\ lcdCursor (run [Goto 2 16; WriteChar 65] (lcd_init reset_state)) = 32
  /\ lcdCursor (run [Goto 2 16; WriteChar 65; Forward] (lcd_init reset_state)) = 33
  /\ lcdCursor (run [Goto 2 16; WriteChar 65; Forward; WriteChar 66]
                    (lcd_init reset_state)) = 34
  /\ wire (run [Goto 2 16; WriteChar 65; Forward; WriteChar 66]
               (lcd_init reset_state))
     = wire (run [Goto 2 16; WriteChar 65; Forward] (lcd_init reset_state))
       ++ byte_xfer 1 66 46.
Proof. repeat split; vm_compute; reflexivity. Qed.

(** ** Decimal output *)

Lemma writeDec_digits_chars (fuel : nat) :
  forall number mask text st,
    writeDec_chars fuel number mask = Some text ->
    writeDec_digits fuel number mask st = Done (feed text st).
Proof.
  induction fuel as [| fuel IH]; intros number mask text st H; [discriminate |].
  cbn [writeDec_chars writeDec_digits] in *.
  destruct (mask =? 0).
  - injection H as <-. reflexivity.
  - destruct (writeDec_chars fuel (uint16 (number mod mask)) (uint16 (mask / 10)))
      as [rest |] eqn:E; [| discriminate].
    injection H as <-. rewrite (IH _ _ rest _ E). reflexivity.
Qed.

Lemma writeDec_skip_on (fuel : nat) (number mask : Z) :
  0 < mask <= number ->
  writeDec_skip (S fuel) number mask = Found mask.
Proof.
  intros H. cbn [writeDec_skip].
  destruct (Z.eqb_spec mask 0); [lia |].
  destruct (Z.eqb_spec (number / mask) 0) as [E |]; [| reflexivity].
  apply Z.div_small_iff in E; lia.
Qed.

Lemma writeDec_skip_over (fuel : nat) (number mask : Z) :
  0 <= number < mask -> mask < 65536 ->
  writeDec_skip (S fuel) number mask = writeDec_skip fuel number (mask / 10).
Proof.
  intros H Hm. cbn [writeDec_skip].
  destruct (Z.eqb_spec mask 0); [lia |].
  rewrite Z.div_small by lia. cbn [Z.eqb].
  rewrite uint16_small; [reflexivity |].
  Z.div_mod_to_equations. lia.
Qed.

Lemma writeDec_chars_digit (fuel : nat) (number mask : Z) :
  0 < mask <= 10000 -> 0 <= number < 65536 ->
  writeDec_chars (S fuel) number mask
  = option_map (cons (48 + number / mask))
      (writeDec_chars fuel (number mod mask) (mask / 10)).
Proof.
  intros Hm Hn. cbn [writeDec_chars].
  destruct (Z.eqb_spec mask 0); [lia |].
  assert (Hq : 0 <= mask / 10 < 65536).
  { clear - Hm. split; [apply Z.div_pos; lia | apply Z.div_lt_upper_bound; lia]. }
  pose proof (Z.mod_pos_bound number mask ltac:(lia)) as Hr.
  rewrite !uint16_small by lia. reflexivity.
Qed.

Lemma digits_more (fuel : nat) (n : Z) (less : list Z) :
  10 <= n ->
  Decimal.digits (S fuel) n less
  = Decimal.digits fuel (n / 10) ((48 + n mod 10) :: less).
Proof.
  intros H. cbn [Decimal.digits]. destruct (Z.ltb_spec n 10); [lia | reflexivity].
Qed.

Lemma digits_last (fuel : nat) (n : Z) (less : list Z) :
  n < 10 -> Decimal.digits (S fuel) n less = (48 + n) :: less.
Proof.
  intros H. cbn [Decimal.digits]. destruct (Z.ltb_spec n 10); [reflexivity | lia].
Qed.

Ltac find_mask :=
  repeat (rewrite writeDec_skip_over by lia;
          first [ progress change (10000 / 10) with 1000
                | progress change (1000 / 10) with 100
                | progress change (100 / 10) with 10
                | progress change (10 / 10) with 1 ]);
  apply writeDec_skip_on; lia.

Ltac same_digits :=
  apply (f_equal (@Some (list Z)));
  repeat (apply (f_equal2 (@cons Z)); [Z.div_mod_to_equations; lia |]);
  reflexivity.

(** The digits [lcd_writeDec] sends are those of the reference, whatever
    the number of digits. *)
Lemma writeDec_text (n : Z) :
  1 <= n <= 65535 ->
  exists mask,
    writeDec_skip 6 n 10000 = Found mask
    /\ writeDec_chars 6 n mask = Some (Decimal.of_uint16 n).
Proof.
  intros H. unfold Decimal.of_uint16.
  destruct (Z.le_gt_cases 10000 n) as [H5 | H5];
    [| destruct (Z.le_gt_cases 1000 n) as [H4 | H4];
       [| destruct (Z.le_gt_cases 100 n) as [H3 | H3];
          [| destruct (Z.le_gt_cases 10 n) as [H2 | H2]]]].
  - exists 10000. split; [apply writeDec_skip_on; lia |].
    repeat (rewrite writeDec_chars_digit by (Z.div_mod_to_equations; lia);
            try change (10000 / 10) with 1000; try change (1000 / 10) with 100;
            try change (100 / 10) with 10; try change (10 / 10) with 1;
            try change (1 / 10) with 0).
    cbn [writeDec_chars Z.eqb option_map].
    rewrite !digits_more by (Z.div_mod_to_equations; lia).
    rewrite digits_last by (Z.div_mod_to_equations; lia).
    same_digits.
  - exists 1000. split.
    { find_mask. }
    repeat (rewrite writeDec_chars_digit by (Z.div_mod_to_equations; lia);
            try change (1000 / 10) with 100;
            try change (100 / 10) with 10; try change (10 / 10) with 1;
            try change (1 / 10) with 0).
    cbn [writeDec_chars Z.eqb option_map].
    rewrite !digits_more by (Z.div_mod_to_equations; lia).
    rewrite digits_last by (Z.div_mod_to_equations; lia).
    same_digits.
  - exists 100. split.
    { find_mask. }
    repeat (rewrite writeDec_chars_digit by (Z.div_mod_to_equations; lia);
            try change (100 / 10) with 10; try change (10 / 10) with 1;
            try change (1 / 10) with 0).
    cbn [writeDec_chars Z.eqb option_map].
    rewrite !digits_more by (Z.div_mod_to_equations; lia).
    rewrite digits_last by (Z.div_mod_to_equations; lia).
    same_digits.
  - exists 10. split.
    { find_mask. }
    repeat (rewrite writeDec_chars_digit by (Z.div_mod_to_equations; lia);
            try change (10 / 10) with 1; try change (1 / 10) with 0).
    cbn [writeDec_chars Z.eqb option_map].
    rewrite !digits_more by (Z.div_mod_to_equations; lia).
    rewrite digits_last by (Z.div_mod_to_equations; lia).
    same_digits.
  - exists 1. split.
    { find_mask. }
    rewrite writeDec_chars_digit by lia. change (1 / 10) with 0.
    cbn [writeDec_chars Z.eqb option_map].
    rewrite digits_last by lia.
    same_digits.
Qed.

(** The reference digits denote the number and begin with no zero. *)
Lemma decimal_sound (n : Z) :
  1 <= n <= 65535 ->
  Decimal.value (Decimal.of_uint16 n) = n
  /\ hd 0 (Decimal.of_uint16 n) <> 48
  /\ Forall (fun c => 48 <= c <= 57) (Decimal.of_uint16 n).
Proof.
  intros H. unfold Decimal.of_uint16.
  assert (C : 10000 <= n \/ 1000 <= n < 10000 \/ 100 <= n < 1000
              \/ 10 <= n < 100 \/ n < 10) by lia.
  destruct C as [C | [C | [C | [C | C]]]];
    rewrite ?digits_more by (Z.div_mod_to_equations; lia);
    rewrite digits_last by (Z.div_mod_to_equations; lia);
    cbn [Decimal.value fold_left hd];
    (split; [Z.div_mod_to_equations; lia | split];
     [ Z.div_mod_to_equations; lia
     | repeat (apply Forall_cons; [cbv beta; Z.div_mod_to_equations; lia |]);
       apply Forall_nil ]).
Qed.

(** On every positive input [lcd_writeDec] returns, having written the
    decimal digits of the input: no leading zero, and no division by zero
    on the way (the only fault the model knows). *)
Lemma lcd_writeDec_positive (n : Z) (st : state) :
  1 <= n <= 65535 ->
  lcd_writeDec 6 n st = Done (feed (Decimal.of_uint16 n) st).
Proof.
  intros H. destruct (writeDec_text n H) as [mask [Hskip Hchars]].
  unfold lcd_writeDec. rewrite uint16_small by lia.
  destruct (Z.eqb_spec n 0); [lia |].
  rewrite Hskip. apply writeDec_digits_chars. exact Hchars.
Qed.

(** C7, where the code fails.  [lcd_writeDec(0)] writes '0' and then
    evaluates [0 / mask] with [mask] equal to zero: the first loop has no
    exit on this input before the mask runs out. *)
Theorem lcd_writeDec_zero_divides_by_zero (st : state) :
  writeDec_skip 6 0 10000 = DivideByZero
  /\ lcd_writeDec 6 0 st = Faulted (lcd_writeChar 48 st).
Proof. split; reflexivity. Qed.

(** With less fuel the first loop is still running; with more it faults just
    the same: [lcd_writeDec(0)] never returns. *)
Lemma lcd_writeDec_zero_never_returns (fuel : nat) (st st' : state) :
  lcd_writeDec fuel 0 st <> Done st'.
Proof.
  destruct fuel as [| [| [| [| [| [| fuel]]]]]]; discriminate.
Qed.

(** * Further properties of the driver and of the test programs

    ** Cursor arithmetic *)

Lemma lcd_forward_cursor (st : state) :
  lcdCursor (lcd_forward st)
  = if lcdCursor st =? 31 then 0 else uint8 (lcdCursor st + 1).
Proof. unfold lcd_forward, seq. destruct (lcdCursor st =? 31); reflexivity. Qed.

Lemma lcd_back_cursor (st : state) :
  lcdCursor (lcd_back st)
  = if lcdCursor st =? 0 then 31 else uint8 (lcdCursor st - 1).
Proof. unfold lcd_back, seq. destruct (lcdCursor st =? 0); reflexivity. Qed.

(** X1.  On the 32 positions of the display [lcd_forward] and [lcd_back]
    undo each other, wrapping between position 31 and position 0, and
    neither leaves the display. *)
Theorem forward_back_inverse (st : state) :
  0 <= lcdCursor st <= 31 ->
  lcdCursor (lcd_back (lcd_forward st)) = lcdCursor st
  /\ lcdCursor (lcd_forward (lcd_back st)) = lcdCursor st
  /\ 0 <= lcdCursor (lcd_forward st) <= 31
  /\ 0 <= lcdCursor (lcd_back st) <= 31.
Proof.
  intros H.
  rewrite lcd_back_cursor, lcd_forward_cursor, lcd_forward_cursor, lcd_back_cursor.
  assert (F : 0 <= (if lcdCursor st =? 31 then 0 else uint8 (lcdCursor st + 1)) <= 31).
  { destruct (Z.eqb_spec (lcdCursor st) 31); [lia | rewrite uint8_small; lia]. }
  assert (B : 0 <= (if lcdCursor st =? 0 then 31 else uint8 (lcdCursor st - 1)) <= 31).
  { destruct (Z.eqb_spec (lcdCursor st) 0); [lia | rewrite uint8_small; lia]. }
  repeat split; try lia.
  - by_cases (lcdCursor st) 0 32%nat.
  - by_cases (lcdCursor st) 0 32%nat.
Qed.

Lemma forward_back_inverse_witness :
  lcdCursor (lcd_back (lcd_forward (lcd_goto 2 16 reset_state))) = 31
  /\ lcdCursor (lcd_forward (lcd_goto 2 16 reset_state)) = 0.
Proof.
  destruct (forward_back_inverse (lcd_goto 2 16 reset_state)) as [A [_ _]].
  - vm_compute. split; discriminate.
  - split; [exact A | reflexivity].
Defined.

(** X2.  The command [updateCursor] sends is "set DDRAM address" (0x80)
    with address 0x40 * row + column for the 32 positions of the display,
    and with address 0 for every cursor value past them. *)
Theorem updateCursor_address (st : state) :
  0 <= lcdCursor st < 256 ->
  wire (updateCursor st)
  = wire st
    ++ byte_xfer 0 (0x80 + (if lcdCursor st <? 32
                            then 0x40 * (lcdCursor st / 16) + lcdCursor st mod 16
                            else 0)) 42
  /\ lcdCursor (updateCursor st) = lcdCursor st
  /\ utf8Buffer (updateCursor st) = utf8Buffer st.
Proof.
  intros H. rewrite updateCursor_wire. repeat split.
  do 2 f_equal. by_cases (lcdCursor st) 0 256%nat.
Qed.

Lemma updateCursor_address_witness :
  wire (updateCursor (set_lcdCursor 21 reset_state)) = byte_xfer 0 0xC5 42.
Proof.
  destruct (updateCursor_address (set_lcdCursor 21 reset_state)) as [A _].
  - vm_compute. split; [discriminate | reflexivity].
  - exact A.
Defined.

(** X3.  [lcd_home] goes to the first column of the row the cursor is in;
    from the sentinel 32 it goes to position 0.  The command it sends
    addresses that position. *)
Theorem lcd_home_row (st : state) :
  0 <= lcdCursor st <= 32 ->
  lcdCursor (lcd_home st)
  = (if lcdCursor st =? 32 then 0 else 16 * (lcdCursor st / 16))
  /\ wire (lcd_home st)
     = wire st ++ byte_xfer 0 (if (16 <=? lcdCursor st) && (lcdCursor st <? 32)
                               then 0xC0 else 0x80) 42
  /\ lcdCursor (lcd_home (lcd_home st)) = lcdCursor (lcd_home st).
Proof.
  intros H.
  assert (E : forall s, lcdCursor (lcd_home s) = Z.land (lcdCursor s) 0x10)
    by (intros s; reflexivity).
  split; [| split].
  - rewrite E. by_cases (lcdCursor st) 0 33%nat.
  - unfold lcd_home, seq.
    rewrite updateCursor_wire, lcdCursor_set_lcdCursor, wire_set_lcdCursor.
    do 2 f_equal. by_cases (lcdCursor st) 0 33%nat.
  - rewrite !E. by_cases (lcdCursor st) 0 33%nat.
Qed.

Lemma lcd_home_row_witness :
  lcdCursor (lcd_home (lcd_goto 2 7 reset_state)) = 16
  /\ lcdCursor (lcd_home (set_lcdCursor 32 reset_state)) = 0.
Proof.
  destruct (lcd_home_row (lcd_goto 2 7 reset_state)) as [A _].
  - vm_compute. split; discriminate.
  - split; [exact A | reflexivity].
Defined.

(** ** Text *)

Lemma set_utf8Buffer_same (st : state) :
  utf8Buffer st = 0 -> set_utf8Buffer 0 st = st.
Proof. destruct st as [p d u c l]. cbn. intros ->. reflexivity. Qed.

Lemma feed_encode (cp : Z) (st : state) :
  0 <= cp <= 0x10FFFF -> utf8Buffer st = 0 ->
  feed (Utf8.encode cp) st = lcd_putCode cp st.
Proof.
  intros Hcp Hempty.
  pose proof (round_trip_trace cp Hcp) as Htrace.
  destruct (encode_split cp) as [front [b [Hsplit Hlen]]].
  rewrite <- Hlen in Htrace. rewrite Hsplit in *.
  rewrite (feed_dispatch front b cp st) by (rewrite Hempty; exact Htrace).
  rewrite set_utf8Buffer_same by exact Hempty. reflexivity.
Qed.

Lemma glyph_point_spec (cp : Z) :
  glyph_point cp = true -> 0 <= cp <= 0x10FFFF /\ cp <> 10.
Proof.
  unfold glyph_point. intros H.
  apply andb_true_iff in H. destruct H as [H Hlf].
  apply andb_true_iff in H. destruct H as [Hlo Hhi].
  apply Z.leb_le in Hlo, Hhi. apply negb_true_iff, Z.eqb_neq in Hlf.
  repeat split; assumption.
Qed.

Lemma advance_step (cursor : Z) (n : nat) :
  0 <= cursor <= 32 ->
  advance ((if cursor =? 32 then 0 else cursor) + 1) n = advance cursor (S n).
Proof.
  intros H. unfold advance. destruct n as [| n].
  - destruct (Z.eqb_spec cursor 32); cbn [Z.of_nat]; Z.div_mod_to_equations; lia.
  - rewrite (Nat2Z.inj_succ (S n)).
    destruct (Z.eqb_spec cursor 32); Z.div_mod_to_equations; lia.
Qed.

(** A string of code points, encoded and fed byte by byte to an empty
    accumulator, arrives as the run of its glyphs. *)
Lemma feed_text (cps : list Z) :
  forall st,
    utf8Buffer st = 0 -> 0 <= lcdCursor st <= 32 ->
    forallb glyph_point cps = true ->
    wire (feed (flat_map Utf8.encode cps) st)
    = wire st ++ typed (lcdCursor st) (map lcdCode cps)
    /\ lcdCursor (feed (flat_map Utf8.encode cps) st)
       = advance (lcdCursor st) (length cps)
    /\ utf8Buffer (feed (flat_map Utf8.encode cps) st) = 0.
Proof.
  induction cps as [| cp cps IH]; intros st Hempty Hcur Hall.
  - cbn [flat_map feed map typed length advance]. unfold skip.
    rewrite app_nil_r. split; [reflexivity | split; [reflexivity | exact Hempty]].
  - cbn [forallb] in Hall. apply andb_true_iff in Hall. destruct Hall as [Hcp Hall].
    destruct (glyph_point_spec cp Hcp) as [Hrange Hne].
    cbn [flat_map]. rewrite feed_app, feed_encode by assumption.
    destruct (lcd_putCode_glyph cp st Hne) as [W [C B]].
    assert (Hnext : lcdCursor (lcd_putCode cp st)
                    = (if lcdCursor st =? 32 then 0 else lcdCursor st) + 1).
    { rewrite C. apply uint8_small. destruct (Z.eqb_spec (lcdCursor st) 32); lia. }
    destruct (IH (lcd_putCode cp st)) as [W' [C' B']].
    + rewrite B. exact Hempty.
    + rewrite Hnext. destruct (Z.eqb_spec (lcdCursor st) 32); lia.
    + exact Hall.
    + rewrite W', C', B', W, Hnext. split; [| split; [| reflexivity]].
      * cbn [map typed]. rewrite <- !app_assoc. reflexivity.
      * cbn [length]. apply advance_step. exact Hcur.
Qed.

Lemma data_nibbles_app (a b : list signal) :
  data_nibbles (a ++ b) = data_nibbles a ++ data_nibbles b.
Proof. apply flat_map_app. Qed.

Lemma data_nibbles_page_break (cursor : Z) : data_nibbles (page_break cursor) = [].
Proof.
  unfold page_break. destruct (cursor =? 32); [reflexivity |].
  destruct (cursor =? 16); reflexivity.
Qed.

Lemma data_nibbles_typed (codes : list Z) :
  forall cursor, data_nibbles (typed cursor codes) = glyph_nibbles codes.
Proof.
  induction codes as [| c codes IH]; intros cursor; [reflexivity |].
  cbn [typed]. rewrite !data_nibbles_app, data_nibbles_page_break, IH.
  reflexivity.
Qed.

Lemma high_bit_nonzero (k x : Z) :
  Z.testbit k 7 = true -> uint8 (Z.lor k x) <> 0.
Proof.
  intros H E.
  assert (B : Z.testbit (uint8 (Z.lor k x)) 7 = true)
    by (rewrite uint8_bit by lia; rewrite Z.lor_spec, H; reflexivity).
  rewrite E in B. discriminate B.
Qed.

Lemma encode_no_NUL (cp : Z) :
  0 < cp -> Forall (fun b => uint8 b <> 0) (Utf8.encode cp).
Proof.
  intros H. unfold Utf8.encode.
  destruct (Z.ltb_spec cp 0x80);
    [| destruct (cp <? 0x800); [| destruct (cp <? 0x10000)]];
    repeat constructor; try (apply high_bit_nonzero; reflexivity).
  rewrite uint8_small; lia.
Qed.

Lemma lcd_writeString_feed (text : list Z) :
  Forall (fun b => uint8 b <> 0) text ->
  forall st, lcd_writeString text st = feed text st.
Proof.
  induction 1 as [| b text Hb _ IH]; intros st; [reflexivity |].
  cbn [lcd_writeString feed]. destruct (Z.eqb_spec (uint8 b) 0); [contradiction |].
  unfold seq. apply IH.
Qed.

Lemma lcd_writeProgString_feed (text : list Z) :
  Forall (fun b => uint8 b <> 0) text ->
  forall st, lcd_writeProgString text st = feed text st.
Proof.
  induction 1 as [| b text Hb _ IH]; intros st; [reflexivity |].
  cbn [lcd_writeProgString feed]. destruct (Z.eqb_spec (uint8 b) 0); [contradiction |].
  unfold seq. apply IH.
Qed.

Lemma text_no_NUL (cps : list Z) :
  forallb (fun cp => 0 <? cp) cps = true ->
  Forall (fun b => uint8 b <> 0) (flat_map Utf8.encode cps).
Proof.
  induction cps as [| cp cps IH]; intros H; [constructor |].
  cbn [forallb] in H. apply andb_true_iff in H. destruct H as [Hcp H].
  cbn [flat_map]. apply Forall_app. split.
  - apply encode_no_NUL. apply Z.ltb_lt. exact Hcp.
  - apply IH. exact H.
Qed.

(** X4.  [lcd_writeString] on the UTF-8 encoding of a string of code points
    (none of them NUL or the line feed), started with an empty accumulator
    and the cursor on the display or on the sentinel: the controller's data
    register receives the glyph code of every code point, in order and
    nothing else; each glyph is preceded by the page break its position asks
    for; the cursor ends where that many glyphs take it, wrapping from 32 to
    1; and the accumulator is empty again. *)
Theorem lcd_writeString_text (cps : list Z) (st : state) :
  utf8Buffer st = 0 -> 0 <= lcdCursor st <= 32 ->
  forallb glyph_point cps = true ->
  forallb (fun cp => 0 <? cp) cps = true ->
  wire (lcd_writeString (flat_map Utf8.encode cps) st)
  = wire st ++ typed (lcdCursor st) (map lcdCode cps)
  /\ data_nibbles (wire (lcd_writeString (flat_map Utf8.encode cps) st))
     = data_nibbles (wire st) ++ glyph_nibbles (map lcdCode cps)
  /\ lcdCursor (lcd_writeString (flat_map Utf8.encode cps) st)
     = advance (lcdCursor st) (length cps)
  /\ utf8Buffer (lcd_writeString (flat_map Utf8.encode cps) st) = 0.
Proof.
  intros Hempty Hcur Hall Hnul.
  rewrite lcd_writeString_feed by (apply text_no_NUL; exact Hnul).
  destruct (feed_text cps st Hempty Hcur Hall) as [W [C B]].
  rewrite W, C, B, data_nibbles_app, data_nibbles_typed.
  split; [reflexivity | split; [reflexivity | split; reflexivity]].
Qed.

(** The word Gruesse with its umlaut and sharp s, a blank and a right
    arrow, written at the last but two position of line 2: seven glyphs,
    the clear after the third, the cursor left on position 4. *)
Lemma lcd_writeString_text_witness :
  data_nibbles (wire (lcd_writeString
                        [0x47; 0x72; 0xC3; 0xBC; 0xC3; 0x9F; 0x65; 0x20; 0xE2; 0x86; 0x92]
                        (lcd_goto 2 14 reset_state)))
  = glyph_nibbles [0x47; 0x72; 0xF5; 0xE2; 0x65; 0x20; 0x7E]
  /\ lcdCursor (lcd_writeString
                  [0x47; 0x72; 0xC3; 0xBC; 0xC3; 0x9F; 0x65; 0x20; 0xE2; 0x86; 0x92]
                  (lcd_goto 2 14 reset_state)) = 4.
Proof.
  destruct (lcd_writeString_text [0x47; 0x72; 0xFC; 0xDF; 0x65; 0x20; 0x2192]
              (lcd_goto 2 14 reset_state)) as [_ [D [C _]]].
  - reflexivity.
  - vm_compute. split; discriminate.
  - reflexivity.
  - reflexivity.
  - split; [exact D | exact C].
Defined.

(** ** Erasing a line *)

Lemma clamp_line (line : Z) :
  clamp 1 2 (uint8 line) = 1 \/ clamp 1 2 (uint8 line) = 2.
Proof. unfold clamp. lia. Qed.

Lemma lcd_erase_effect (line : Z) (st : state) :
  utf8Buffer st = 0 -> 0 <= lcdCursor st < 256 ->
  wire (lcd_erase line st)
  = wire st
    ++ byte_xfer 0 (Z.lor 0x80 (ddram_address ((clamp 1 2 (uint8 line) - 1) * 16))) 42
    ++ typed ((clamp 1 2 (uint8 line) - 1) * 16) (repeat 0x20 16)
    ++ byte_xfer 0 (Z.lor 0x80 (ddram_address (lcdCursor st))) 42
  /\ data_nibbles (wire (lcd_erase line st))
     = data_nibbles (wire st) ++ glyph_nibbles (repeat 0x20 16)
  /\ lcdCursor (lcd_erase line st) = lcdCursor st
  /\ utf8Buffer (lcd_erase line st) = 0.
Proof.
  intros Hempty Hcur.
  assert (W : wire (lcd_erase line st)
              = wire st
                ++ byte_xfer 0 (Z.lor 0x80 (ddram_address
                                   ((clamp 1 2 (uint8 line) - 1) * 16))) 42
                ++ typed ((clamp 1 2 (uint8 line) - 1) * 16) (repeat 0x20 16)
                ++ byte_xfer 0 (Z.lor 0x80 (ddram_address (lcdCursor st))) 42
              /\ utf8Buffer (lcd_erase line st) = 0).
  { unfold lcd_erase, seq. rewrite lcd_goto_unfold.
    replace (clamp 1 16 (uint8 1) - 1) with 0 by reflexivity.
    rewrite Z.add_0_r.
    set (start := (clamp 1 2 (uint8 line) - 1) * 16).
    assert (Hstart : start = 0 \/ start = 16)
      by (unfold start; destruct (clamp_line line) as [-> | ->]; [left | right];
          reflexivity).
    set (s1 := updateCursor (set_lcdCursor start st)).
    rewrite lcd_writeProgString_feed
      by (repeat constructor; discriminate).
    replace (feed (repeat 32 16) s1)
      with (feed (flat_map Utf8.encode (repeat 32 16%nat)) s1) by reflexivity.
    destruct (feed_text (repeat 32 16%nat) s1) as [W1 [_ B1]].
    - exact Hempty.
    - change (lcdCursor s1) with start. lia.
    - reflexivity.
    - rewrite utf8Buffer_updateCursor, utf8Buffer_set_lcdCursor.
      split; [| exact B1].
      rewrite updateCursor_wire, lcdCursor_set_lcdCursor, wire_set_lcdCursor.
      rewrite W1. unfold s1.
      rewrite updateCursor_wire, lcdCursor_updateCursor, lcdCursor_set_lcdCursor,
        wire_set_lcdCursor.
      rewrite (ddram_command_byte (lcdCursor st)) by exact Hcur.
      rewrite (ddram_command_byte start) by lia.
      rewrite <- !app_assoc. reflexivity. }
  destruct W as [W B]. split; [exact W | split; [| split; [reflexivity | exact B]]].
  rewrite W, !data_nibbles_app, data_nibbles_typed.
  change (data_nibbles (byte_xfer 0 ?c 42)) with (@nil Z).
  rewrite app_nil_r. reflexivity.
Qed.

(** X5.  [lcd_erase], called with an empty accumulator: the line is
    addressed (any line number above 2 means line 2, 0 means line 1),
    sixteen blanks go to the data register -- on line 2 after a second,
    redundant, jump to that line --, and the last command moves the
    controller's address back to the position the cursor was on, which is
    also what [lcdCursor] holds afterwards. *)
Theorem lcd_erase_line (line : Z) (st : state) :
  utf8Buffer st = 0 -> 0 <= lcdCursor st < 256 ->
  wire (lcd_erase line st)
  = wire st
    ++ byte_xfer 0 (Z.lor 0x80 (ddram_address ((clamp 1 2 (uint8 line) - 1) * 16))) 42
    ++ typed ((clamp 1 2 (uint8 line) - 1) * 16) (repeat 0x20 16)
    ++ byte_xfer 0 (Z.lor 0x80 (ddram_address (lcdCursor st))) 42
  /\ data_nibbles (wire (lcd_erase line st))
     = data_nibbles (wire st) ++ glyph_nibbles (repeat 0x20 16)
  /\ lcdCursor (lcd_erase line st) = lcdCursor st
  /\ utf8Buffer (lcd_erase line st) = 0.
Proof. apply lcd_erase_effect. Qed.

Lemma lcd_erase_line_witness :
  wire (lcd_erase 2 (lcd_goto 1 4 reset_state))
  = wire (lcd_goto 1 4 reset_state)
    ++ byte_xfer 0 0xC0 42 ++ typed 16 (repeat 0x20 16) ++ byte_xfer 0 0x83 42
  /\ lcdCursor (lcd_erase 2 (lcd_goto 1 4 reset_state)) = 3.
Proof.
  destruct (lcd_erase_line 2 (lcd_goto 1 4 reset_state)) as [W [_ [C _]]].
  - reflexivity.
  - vm_compute. split; [discriminate | reflexivity].
  - split; [exact W | exact C].
Defined.

(** ** A decoder that never answers again *)

Lemma lor_low_byte (x y : Z) :
  0 <= y < 256 -> Z.lor (256 * x) y = 256 * x + y.
Proof.
  intros H.
  assert (E : Z.land (256 * x) y = 0).
  { apply Z.bits_inj'. intros n Hn. rewrite Z.land_spec, Z.bits_0.
    destruct (Z.ltb_spec n 8) as [Hlow | Hhigh].
    - replace (256 * x) with (x * 2 ^ 8) by lia.
      rewrite Z.mul_pow2_bits_low by lia. reflexivity.
    - rewrite <- (Z.mod_small y (2 ^ 8)) by (change (2 ^ 8) with 256; lia).
      rewrite Z.mod_pow2_bits_high by lia. apply andb_false_r. }
  pose proof (Z.add_lor_land (256 * x) y) as A. rewrite E in A. lia.
Qed.

Lemma utf8_push_arith (buffer c : Z) :
  utf8_push buffer c = 256 * (buffer mod 2 ^ 24) + uint8 c.
Proof.
  unfold utf8_push. rewrite uint32_mod, Z.shiftl_mul_pow2 by lia.
  replace (buffer * 2 ^ 8) with (2 ^ 8 * buffer) by lia.
  change (2 ^ 32) with (2 ^ 8 * 2 ^ 24).
  rewrite Z.mul_mod_distr_l by (vm_compute; discriminate).
  change (2 ^ 8) with 256. apply lor_low_byte. apply uint8_range.
Qed.

Lemma land_shifted_ones (r m k : Z) :
  0 <= k -> 0 <= m ->
  Z.land r (Z.shiftl (Z.ones m) k) = (r / 2 ^ k) mod 2 ^ m * 2 ^ k.
Proof.
  intros Hk Hm.
  rewrite <- Z.shiftl_mul_pow2, <- Z.land_ones, <- Z.shiftr_div_pow2 by lia.
  apply Z.bits_inj'. intros n Hn.
  rewrite Z.land_spec, !Z.shiftl_spec by lia.
  destruct (Z.ltb_spec n k) as [Hlow | Hhigh].
  - rewrite !(Z.testbit_neg_r _ (n - k)) by lia. apply andb_false_r.
  - rewrite Z.land_spec, Z.shiftr_spec by lia.
    replace (n - k + k) with n by lia. reflexivity.
Qed.

(** With a first byte in place that is neither zero nor 0xF0 or more, the
    chain of tests of [lcd_writeChar] finds no shape at all. *)
Lemma jammed_scan (r : Z) :
  0x01000000 <= r < 0xF0000000 -> utf8_scan r = None.
Proof.
  intros H. apply no_shape_scan. unfold no_shape, lead4, lead3, lead2, lead1.
  change 0xf8000000 with (Z.shiftl (Z.ones 5) 27).
  change 0xfff00000 with (Z.shiftl (Z.ones 12) 20).
  change 0xffffe000 with (Z.shiftl (Z.ones 19) 13).
  change 0xffffff80 with (Z.shiftl (Z.ones 25) 7).
  rewrite !land_shifted_ones by lia.
  change (2 ^ 27) with 134217728. change (2 ^ 5) with 32.
  change (2 ^ 20) with 1048576. change (2 ^ 12) with 4096.
  change (2 ^ 13) with 8192. change (2 ^ 19) with 524288.
  change (2 ^ 7) with 128. change (2 ^ 25) with 33554432.
  repeat (apply andb_true_iff; split); apply negb_true_iff, Z.eqb_neq;
    Z.div_mod_to_equations; lia.
Qed.

Lemma buffer_byte_range (k buffer : Z) : 0 <= buffer_byte k buffer < 256.
Proof. unfold buffer_byte. apply Z.mod_pos_bound. lia. Qed.

Lemma dull_spec (b : Z) : 0 <= b < 256 -> dull b = true -> 1 <= b <= 0xEF.
Proof.
  intros H. unfold dull. rewrite (uint8_small b) by exact H.
  intros D. apply andb_true_iff in D. destruct D as [D1 D2].
  apply Z.leb_le in D1, D2. lia.
Qed.

Lemma dull_byte (b : Z) : 1 <= b <= 0xEF -> dull b = true.
Proof.
  intros H. unfold dull. rewrite (uint8_small b) by lia.
  apply andb_true_iff. split; apply Z.leb_le; lia.
Qed.

Lemma jammed_spec (buffer : Z) :
  jammed buffer = true ->
  0 <= buffer < 2 ^ 32
  /\ 1 <= buffer mod 256 <= 0xEF
  /\ 1 <= (buffer / 256) mod 256 <= 0xEF
  /\ 1 <= (buffer / 65536) mod 256 <= 0xEF
  /\ 1 <= (buffer / 16777216) mod 256 <= 0xEF.
Proof.
  unfold jammed. intros H.
  repeat (apply andb_true_iff in H; destruct H as [H ?]).
  apply Z.leb_le in H.
  match goal with L : (_ <? _) = true |- _ => apply Z.ltb_lt in L end.
  repeat match goal with
         | D : dull (buffer_byte ?k buffer) = true |- _ =>
             apply (dull_spec _ (buffer_byte_range k buffer)) in D;
             unfold buffer_byte in D
         end.
  change (2 ^ (8 * 0)) with 1 in *. change (2 ^ (8 * 1)) with 256 in *.
  change (2 ^ (8 * 2)) with 65536 in *. change (2 ^ (8 * 3)) with 16777216 in *.
  rewrite Z.div_1_r in *. repeat split; lia.
Qed.

Lemma jammed_intro (buffer : Z) :
  0 <= buffer < 2 ^ 32 ->
  1 <= buffer mod 256 <= 0xEF ->
  1 <= (buffer / 256) mod 256 <= 0xEF ->
  1 <= (buffer / 65536) mod 256 <= 0xEF ->
  1 <= (buffer / 16777216) mod 256 <= 0xEF ->
  jammed buffer = true.
Proof.
  intros H H0 H1 H2 H3. unfold jammed, buffer_byte.
  change (2 ^ (8 * 0)) with 1. change (2 ^ (8 * 1)) with 256.
  change (2 ^ (8 * 2)) with 65536. change (2 ^ (8 * 3)) with 16777216.
  rewrite Z.div_1_r.
  rewrite !andb_true_iff.
  split; [split; [split; [split; [split |] |] |] |];
    try (apply dull_byte; assumption).
  - apply Z.leb_le. lia.
  - apply Z.ltb_lt. lia.
Qed.

(** One more dull byte: the accumulator stays jammed and the decoder stays
    silent. *)
Lemma jam_step (buffer c : Z) :
  jammed buffer = true -> dull c = true ->
  utf8_scan (utf8_push buffer c) = None
  /\ jammed (utf8_push buffer c) = true.
Proof.
  intros J D. apply jammed_spec in J. destruct J as [R [B0 [B1 [B2 B3]]]].
  assert (Dc : 1 <= uint8 c <= 0xEF).
  { unfold dull in D. apply andb_true_iff in D. destruct D as [D1 D2].
    apply Z.leb_le in D1, D2. lia. }
  rewrite utf8_push_arith. change (2 ^ 24) with 16777216.
  change (2 ^ 32) with 4294967296 in R.
  set (c' := uint8 c) in *. clearbody c'.
  split.
  - apply jammed_scan. Z.div_mod_to_equations. lia.
  - apply jammed_intro; change (2 ^ 32) with 4294967296;
      Z.div_mod_to_equations; lia.
Qed.

Lemma feed_jammed (text : list Z) :
  forall st,
    jammed (utf8Buffer st) = true -> forallb dull text = true ->
    feed text st = set_utf8Buffer (fold_left utf8_push text (utf8Buffer st)) st
    /\ jammed (fold_left utf8_push text (utf8Buffer st)) = true.
Proof.
  induction text as [| c text IH]; intros st J D.
  - cbn. split; [destruct st; reflexivity | exact J].
  - cbn [forallb] in D. apply andb_true_iff in D. destruct D as [Dc D].
    destruct (jam_step _ c J Dc) as [Hscan J'].
    cbn [feed fold_left]. unfold seq.
    rewrite lcd_writeChar_unfold, Hscan.
    destruct (IH (set_utf8Buffer (utf8_push (utf8Buffer st) c) st) J' D) as [E J''].
    rewrite E. autorewrite with lcd. split; [reflexivity | exact J''].
Qed.

(** X6.  Once the accumulator holds four bytes between 0x01 and 0xEF -- as
    it does after one stray continuation byte and three letters -- every
    further byte in that range only shifts it on: whatever text of such
    bytes is written, nothing reaches the controller, the cursor stays, and
    the accumulator is of the same kind afterwards. *)
Theorem decoder_jam (text : list Z) (st : state) :
  jammed (utf8Buffer st) = true -> forallb dull text = true ->
  feed text st = set_utf8Buffer (fold_left utf8_push text (utf8Buffer st)) st
  /\ wire (feed text st) = wire st
  /\ lcdCursor (feed text st) = lcdCursor st
  /\ jammed (utf8Buffer (feed text st)) = true.
Proof.
  intros J D. destruct (feed_jammed text st J D) as [E J'].
  rewrite E. split; [reflexivity | split; [reflexivity | split; [reflexivity |]]].
  exact J'.
Qed.

Lemma decoder_jam_witness :
  wire (feed [72; 101; 108; 108; 111] (feed [0x80; 65; 66; 67] reset_state)) = []
  /\ lcdCursor (feed [72; 101; 108; 108; 111] (feed [0x80; 65; 66; 67] reset_state)) = 0.
Proof.
  destruct (decoder_jam [72; 101; 108; 108; 111] (feed [0x80; 65; 66; 67] reset_state))
    as [_ [W [C _]]].
  - reflexivity.
  - reflexivity.
  - split; [exact W | exact C].
Defined.

Lemma stray_bytes_checked :
  all_from 0xF8 8
    (fun c => no_shape (utf8_push 0 c) && negb (Utf8.continuation c)
              && (utf8_push 0 c =? c)) = true.
Proof. vm_compute. reflexivity. Qed.

Lemma single_bytes_checked :
  all_from 0 256
    (fun c => negb (option_Z_eqb (utf8_scan (utf8_push 0 c)) (Some 0xFFFD))) = true.
Proof. vm_compute. reflexivity. Qed.

(** C4, where the code fails.  The byte 0xFF on an empty accumulator gives a
    pattern of none of the four shapes and is no continuation byte, yet no
    code point is dispatched: the decoder takes its last branch, the one for
    an incomplete character, the wire stays silent where the claim has the
    glyph 0xFF, and the byte stays in the accumulator.  The same holds for
    every byte from 0xF8 to 0xFF, and no single byte at all is answered with
    U+FFFD on an empty accumulator.  The malformed byte is propagated as a
    failure: the five letters that follow it are lost, and after them every
    further text of bytes 0x01..0xEF is lost as well, with the cursor where
    it was. *)
Theorem stray_byte_jams_the_decoder :
  no_shape (utf8_push (utf8Buffer reset_state) 0xFF) = true
  /\ Utf8.continuation 0xFF = false
  /\ utf8_scan (utf8_push (utf8Buffer reset_state) 0xFF) = None
  /\ wire (lcd_writeChar 0xFF reset_state) = []
  /\ utf8Buffer (lcd_writeChar 0xFF reset_state) = 0xFF
  /\ wire (lcd_writeChar 0xFF reset_state)
     <> wire reset_state ++ page_break (lcdCursor reset_state)
        ++ byte_xfer 1 0xFF 46
  /\ (forall c st,
        utf8Buffer st = 0 -> 0xF8 <= c <= 0xFF ->
        no_shape (utf8_push (utf8Buffer st) c) = true
        /\ Utf8.continuation c = false
        /\ lcd_writeChar c st = set_utf8Buffer c st)
  /\ (forall c st,
        utf8Buffer st = 0 -> 0 <= c <= 0xFF ->
        utf8_scan (utf8_push (utf8Buffer st) c) <> Some 0xFFFD)
  /\ wire (feed [0xFF; 65; 66; 67; 68] reset_state) = []
  /\ (forall text,
        forallb dull text = true ->
        wire (feed ([0xFF; 65; 66; 67; 68] ++ text) reset_state) = []
        /\ lcdCursor (feed ([0xFF; 65; 66; 67; 68] ++ text) reset_state) = 0).
Proof.
  split; [reflexivity |]. split; [reflexivity |]. split; [reflexivity |].
  split; [reflexivity |]. split; [reflexivity |].
  split; [vm_compute; discriminate |].
  split; [| split; [| split; [reflexivity |]]].
  - intros c st Hempty Hc. rewrite Hempty.
    pose proof (all_from_spec _ 8 0xF8 stray_bytes_checked c
                  ltac:(simpl; lia)) as H.
    cbv beta in H.
    apply andb_true_iff in H. destruct H as [H Hpush].
    apply andb_true_iff in H. destruct H as [Hshape Hcont].
    apply negb_true_iff in Hcont. apply Z.eqb_eq in Hpush.
    split; [exact Hshape | split; [exact Hcont |]].
    rewrite no_shape_is_buffered by (rewrite Hempty; exact Hshape).
    rewrite Hempty, Hpush. reflexivity.
  - intros c st Hempty Hc E. rewrite Hempty in E.
    pose proof (all_from_spec _ 256 0 single_bytes_checked c
                  ltac:(simpl; lia)) as H.
    cbv beta in H. rewrite E in H. discriminate H.
  - intros text Htext. rewrite feed_app.
    destruct (feed_jammed text (feed [0xFF; 65; 66; 67; 68] reset_state))
      as [E _]; [reflexivity | exact Htext |].
    rewrite E. split; reflexivity.
Qed.

(** ** The bar graph *)

Lemma block_string (st : state) :
  lcd_writeProgString [0xE2; 0x96; 0xAE] st = feed [0xE2; 0x96; 0xAE] st.
Proof. apply lcd_writeProgString_feed. repeat constructor; discriminate. Qed.

Lemma block_encoding : Utf8.encode 0x25AE = [0xE2; 0x96; 0xAE].
Proof. vm_compute. reflexivity. Qed.

Lemma feed_one (c : Z) (st : state) : feed [c] st = lcd_writeChar c st.
Proof. reflexivity. Qed.

Lemma drawBar_pad_jammed (fuel : nat) :
  forall st,
    jammed (utf8Buffer st) = true -> lcdCursor st < 16 ->
    drawBar_pad fuel st = OutOfFuel.
Proof.
  induction fuel as [| fuel IH]; intros st J C; [reflexivity |].
  cbn [drawBar_pad]. destruct (Z.ltb_spec (lcdCursor st) 16); [| lia].
  destruct (feed_jammed [32] st J eq_refl) as [E J'].
  rewrite feed_one in E.
  apply IH; rewrite E; [exact J' | exact C].
Qed.

Lemma drawBar_blocks_jammed (fuel : nat) :
  forall percent st,
    jammed (utf8Buffer st) = true ->
    drawBar_blocks fuel percent st = OutOfFuel
    \/ exists st', drawBar_blocks fuel percent st = Done st'
                   /\ jammed (utf8Buffer st') = true
                   /\ lcdCursor st' = lcdCursor st.
Proof.
  induction fuel as [| fuel IH]; intros percent st J; [left; reflexivity |].
  cbn [drawBar_blocks]. destruct (percent =? 0).
  - right. exists st. split; [reflexivity | split; [exact J | reflexivity]].
  - destruct (feed_jammed [0xE2; 0x96; 0xAE] st J eq_refl) as [E J'].
    rewrite <- block_string in E.
    destruct (IH (uint8 (percent - 1)) (lcd_writeProgString [0xE2; 0x96; 0xAE] st))
      as [Hout | [st' [Hdone [J'' C]]]].
    + rewrite E. exact J'.
    + left. exact Hout.
    + right. exists st'. rewrite E in C.
      split; [exact Hdone | split; [exact J'' | exact C]].
Qed.

(** X7.  With the accumulator jammed, [lcd_drawBar] does not return: the
    loop that pads line 1 with blanks waits for a cursor that no longer
    moves.  Whatever the fuel, the run ends out of fuel. *)
Theorem lcd_drawBar_hangs (fuel : nat) (percent : Z) (st : state) :
  jammed (utf8Buffer st) = true ->
  lcd_drawBar fuel percent st = OutOfFuel.
Proof.
  intros J. unfold lcd_drawBar.
  destruct (drawBar_blocks_jammed fuel
              (uint8 (uint16 (uint16 (if uint8 percent >? 100 then 100
                                      else uint8 percent) * 16) / 100))
              (lcd_line1 st) J) as [-> | [st' [-> [J' C]]]]; [reflexivity |].
  rewrite drawBar_pad_jammed; [reflexivity | exact J' |].
  rewrite C. vm_compute. reflexivity.
Qed.

Lemma lcd_drawBar_hangs_witness :
  lcd_drawBar 1000 50 (feed [0x80; 65; 66; 67] (lcd_init reset_state)) = OutOfFuel.
Proof.
  apply (lcd_drawBar_hangs 1000 50 (feed [0x80; 65; 66; 67] (lcd_init reset_state))).
  reflexivity.
Defined.

Lemma typed_app (a b : list Z) :
  forall cursor,
    0 <= cursor <= 32 ->
    typed cursor (a ++ b) = typed cursor a ++ typed (advance cursor (length a)) b.
Proof.
  induction a as [| c a IH]; intros cursor H; [reflexivity |].
  cbn [app typed length]. rewrite IH, advance_step by
    (try exact H; destruct (Z.eqb_spec cursor 32); lia).
  rewrite <- !app_assoc. reflexivity.
Qed.

Lemma drawBar_blocks_done (n : nat) :
  forall fuel st,
    (n < fuel)%nat -> (n < 256)%nat ->
    drawBar_blocks fuel (Z.of_nat n) st
    = Done (feed (flat_map Utf8.encode (repeat 0x25AE n)) st).
Proof.
  induction n as [| n IH]; intros [| fuel] st Hfuel Hn; try lia; [reflexivity |].
  cbn [drawBar_blocks]. destruct (Z.eqb_spec (Z.of_nat (S n)) 0); [lia |].
  replace (uint8 (Z.of_nat (S n) - 1)) with (Z.of_nat n)
    by (rewrite uint8_small; lia).
  rewrite IH by lia.
  cbn [repeat flat_map]. rewrite feed_app, block_encoding, block_string.
  reflexivity.
Qed.

Lemma drawBar_pad_done (n : nat) :
  forall fuel st,
    (n < fuel)%nat -> utf8Buffer st = 0 -> lcdCursor st = 16 - Z.of_nat n ->
    (n <= 16)%nat ->
    drawBar_pad fuel st = Done (feed (flat_map Utf8.encode (repeat 32 n)) st).
Proof.
  induction n as [| n IH]; intros [| fuel] st Hfuel Hempty Hcur Hn; try lia.
  - cbn [drawBar_pad]. rewrite Hcur. reflexivity.
  - cbn [drawBar_pad]. destruct (Z.ltb_spec (lcdCursor st) 16); [| lia].
    cbn [repeat flat_map]. rewrite feed_app.
    assert (E : feed [32] st = lcd_putCode 32 st)
      by (apply (feed_encode 32 st); [lia | exact Hempty]).
    rewrite feed_one in E.
    replace (Utf8.encode 32) with [32] by reflexivity.
    rewrite feed_one, E.
    destruct (lcd_putCode_glyph 32 st) as [_ [C B]]; [discriminate |].
    apply IH.
    + lia.
    + rewrite B. exact Hempty.
    + rewrite C. destruct (Z.eqb_spec (lcdCursor st) 32); [lia |].
      rewrite uint8_small; lia.
    + lia.
Qed.

Lemma bar_length (percent : Z) :
  0 <= uint8 (uint16 (uint16 (if uint8 percent >? 100 then 100
                              else uint8 percent) * 16) / 100) <= 16
  /\ uint8 (uint16 (uint16 (if uint8 percent >? 100 then 100
                            else uint8 percent) * 16) / 100)
     = Z.min (uint8 percent) 100 * 16 / 100.
Proof.
  pose proof (uint8_range percent) as R. set (p := uint8 percent) in *.
  assert (E : (if p >? 100 then 100 else p) = Z.min p 100)
    by (destruct (Z.gtb_spec p 100); lia).
  rewrite E. set (q := Z.min p 100). assert (Hq : 0 <= q <= 100) by lia.
  rewrite (uint16_small q) by lia. rewrite (uint16_small (q * 16)) by lia.
  assert (Hk : 0 <= q * 16 / 100 <= 16) by (Z.div_mod_to_equations; lia).
  rewrite uint8_small by lia. split; [exact Hk | reflexivity].
Qed.

(** X8.  [lcd_drawBar], called with an empty accumulator, returns (seventeen
    rounds of each loop are enough).  Line 1 is addressed and receives
    [min(percent, 100) * 16 / 100] black blocks (0xFF) followed by blanks up
    to its sixteenth column; line 2 is erased; the cursor is left on the
    first position of line 2, and that position is what the controller is
    told last. *)
Theorem lcd_drawBar_bar (fuel : nat) (percent : Z) (st : state) :
  (17 <= fuel)%nat -> utf8Buffer st = 0 ->
  exists st',
    lcd_drawBar fuel percent st = Done st'
    /\ wire st'
       = wire st
         ++ byte_xfer 0 0x80 42
         ++ typed 0 (repeat 0xFF (Z.to_nat (Z.min (uint8 percent) 100 * 16 / 100))
                     ++ repeat 0x20
                          (16 - Z.to_nat (Z.min (uint8 percent) 100 * 16 / 100)))
         ++ byte_xfer 0 0xC0 42
         ++ typed 16 (repeat 0x20 16)
         ++ byte_xfer 0 0xC0 42
    /\ data_nibbles (wire st')
       = data_nibbles (wire st)
         ++ glyph_nibbles
              (repeat 0xFF (Z.to_nat (Z.min (uint8 percent) 100 * 16 / 100))
               ++ repeat 0x20 (16 - Z.to_nat (Z.min (uint8 percent) 100 * 16 / 100))
               ++ repeat 0x20 16)
    /\ lcdCursor st' = 16
    /\ utf8Buffer st' = 0.
Proof.
  intros Hfuel Hempty. unfold lcd_drawBar.
  destruct (bar_length percent) as [Hk E]. rewrite E in *. clear E.
  set (k := Z.min (uint8 percent) 100 * 16 / 100) in *. clearbody k.
  assert (G : k = Z.of_nat (Z.to_nat k)) by (rewrite Z2Nat.id; lia).
  assert (Hn : (Z.to_nat k <= 16)%nat) by lia.
  set (n := Z.to_nat k) in *. clearbody n. subst k.
  rewrite drawBar_blocks_done by lia.
  set (s0 := lcd_line1 st).
  assert (W0 : wire s0 = wire st ++ byte_xfer 0 0x80 42)
    by (unfold s0, lcd_line1, seq; rewrite updateCursor_wire; reflexivity).
  destruct (feed_text (repeat 0x25AE n) s0) as [W1 [C1 B1]];
    [exact Hempty | vm_compute; split; discriminate
     | clear; induction n; [reflexivity | exact IHn] |].
  change (lcdCursor s0) with 0 in W1, C1.
  rewrite repeat_length in C1. rewrite map_repeat in W1.
  change (lcdCode 0x25AE) with 0xFF in W1.
  set (s1 := feed (flat_map Utf8.encode (repeat 0x25AE n)) s0) in *.
  assert (C1' : lcdCursor s1 = 16 - Z.of_nat (16 - n)).
  { rewrite C1. unfold advance. destruct n as [| n']; [reflexivity |].
    rewrite Z.mod_small by lia. lia. }
  rewrite (drawBar_pad_done (16 - n)) by (try assumption; lia).
  destruct (feed_text (repeat 32 (16 - n)%nat) s1) as [W2 [C2 B2]];
    [exact B1 | lia
     | clear; induction (16 - n)%nat as [| m IH]; [reflexivity | exact IH] |].
  rewrite repeat_length in C2. rewrite map_repeat in W2.
  change (lcdCode 32) with 0x20 in W2.
  set (s2 := feed (flat_map Utf8.encode (repeat 32 (16 - n)%nat)) s1) in *.
  assert (C2' : lcdCursor s2 = 16).
  { rewrite C2, C1'. unfold advance. destruct (16 - n)%nat as [| m] eqn:Em; [lia |].
    rewrite <- Em. replace (16 - Z.of_nat (16 - n) + Z.of_nat (16 - n) - 1) with 15
      by lia. reflexivity. }
  destruct (lcd_erase_effect 2 s2) as [W3 [D3 [C3 B3]]]; [exact B2 | lia |].
  assert (W : wire (lcd_erase 2 s2)
              = wire st
                ++ byte_xfer 0 0x80 42
                ++ typed 0 (repeat 0xFF n ++ repeat 0x20 (16 - n))
                ++ byte_xfer 0 0xC0 42
                ++ typed 16 (repeat 0x20 16)
                ++ byte_xfer 0 0xC0 42).
  { rewrite W3, W2, W1, W0, C2'.
    rewrite typed_app by lia. rewrite repeat_length.
    replace (advance 0 n) with (lcdCursor s1) by exact C1.
    rewrite <- !app_assoc. reflexivity. }
  exists (lcd_erase 2 s2). split; [reflexivity |].
  split; [exact W |]. split; [| split; [rewrite C3; exact C2' | exact B3]].
  rewrite W, !data_nibbles_app, !data_nibbles_typed, app_nil_r.
  unfold glyph_nibbles. rewrite !flat_map_app, <- !app_assoc. reflexivity.
Qed.

Lemma lcd_drawBar_bar_witness :
  exists st',
    lcd_drawBar 17 50 (lcd_init reset_state) = Done st'
    /\ data_nibbles (wire st')
       = data_nibbles (wire (lcd_init reset_state))
         ++ glyph_nibbles (repeat 0xFF 8 ++ repeat 0x20 8 ++ repeat 0x20 16)
    /\ lcdCursor st' = 16.
Proof.
  destruct (lcd_drawBar_bar 17 50 (lcd_init reset_state)) as [st' [E [_ [D [C _]]]]].
  - lia.
  - reflexivity.
  - exists st'. split; [exact E | split; [exact D | exact C]].
Defined.

(** ** Hexadecimal output *)

Lemma lcd_writeHexNibble_digit (number : Z) (st : state) :
  lcd_writeHexNibble number st = lcd_writeChar (Hex.digit (number mod 16)) st.
Proof.
  unfold lcd_writeHexNibble. cbv zeta. f_equal.
  assert (E : Z.land (uint8 number) 0x0f = number mod 16).
  { change 0x0f with (Z.ones 4). rewrite Z.land_ones, uint8_mod by lia.
    change (2 ^ 8) with 256. change (2 ^ 4) with 16.
    Z.div_mod_to_equations. lia. }
  rewrite E. pose proof (Z.mod_pos_bound number 16 ltac:(lia)) as R.
  by_cases (number mod 16) 0 16%nat.
Qed.

Lemma lcd_writeHexByte_digits (number : Z) (st : state) :
  lcd_writeHexByte number st = feed (Hex.of_uint 2 (uint8 number) []) st.
Proof.
  unfold lcd_writeHexByte, seq. cbv zeta. rewrite !lcd_writeHexNibble_digit.
  cbn [Hex.of_uint feed]. unfold seq, skip.
  pose proof (uint8_range number) as R. set (n := uint8 number) in *.
  replace (Z.shiftr n 4 mod 16) with (n / 16 mod 16)
    by (rewrite Z.shiftr_div_pow2 by lia; reflexivity).
  replace (Z.land n 0x0f mod 16) with (n mod 16); [reflexivity |].
  change 0x0f with (Z.ones 4). rewrite Z.land_ones by lia.
  change (2 ^ 4) with 16. rewrite Z.mod_mod by lia. reflexivity.
Qed.

Lemma of_uint_app (width : nat) :
  forall n less, Hex.of_uint width n less = Hex.of_uint width n [] ++ less.
Proof.
  induction width as [| width IH]; intros n less; [reflexivity |].
  cbn [Hex.of_uint]. rewrite (IH (n / 16) [_]), (IH (n / 16) (_ :: less)).
  rewrite <- app_assoc. reflexivity.
Qed.

Lemma feed_seq (a b : list Z) (st : state) :
  feed b (feed a st) = feed (a ++ b) st.
Proof. symmetry. apply feed_app. Qed.

Ltac bits_to_arith :=
  repeat first
    [ rewrite uint8_mod | rewrite uint16_mod | rewrite uint32_mod
    | rewrite Z.shiftr_div_pow2 by lia
    | progress change 0x0f with (Z.ones 4)
    | progress change 0x00ff with (Z.ones 8)
    | progress change 0x0000ffff with (Z.ones 16)
    | rewrite Z.land_ones by lia ];
  repeat first
    [ progress change (2 ^ 4) with 16
    | progress change (2 ^ 8) with 256
    | progress change (2 ^ 16) with 65536
    | progress change (2 ^ 32) with 4294967296 ].

Ltac same_hex_digits :=
  repeat (apply (f_equal2 (@cons Z));
          [apply (f_equal Hex.digit); Z.div_mod_to_equations; lia |]);
  reflexivity.

Lemma lcd_writeHexWord_digits (number : Z) (st : state) :
  lcd_writeHexWord number st = feed (Hex.of_uint 4 (uint16 number) []) st.
Proof.
  unfold lcd_writeHexWord, seq. cbv zeta.
  rewrite !lcd_writeHexByte_digits, feed_seq. f_equal.
  cbn [Hex.of_uint app]. bits_to_arith. same_hex_digits.
Qed.

Lemma lcd_write32bitHex_digits (number : Z) (st : state) :
  lcd_write32bitHex number st
  = feed ([48; 120] ++ Hex.of_uint 8 (uint32 number) []) st.
Proof.
  unfold lcd_write32bitHex, seq. cbv zeta.
  rewrite !lcd_writeHexWord_digits.
  rewrite lcd_writeProgString_feed by (repeat constructor; discriminate).
  rewrite !feed_seq. f_equal. f_equal.
  cbn [Hex.of_uint app]. bits_to_arith. same_hex_digits.
Qed.

Lemma digit_value_digit (d : Z) :
  0 <= d < 16 -> Hex.digit_value (Hex.digit d) = Some d.
Proof.
  intros H. unfold Hex.digit, Hex.digit_value.
  destruct (Z.ltb_spec d 10).
  - destruct (Z.leb_spec 48 (48 + d)); [| lia].
    destruct (Z.leb_spec (48 + d) 57); [| lia]. cbn [andb]. f_equal. lia.
  - destruct (Z.leb_spec 48 (87 + d)); [| lia].
    destruct (Z.leb_spec (87 + d) 57); [lia |]. cbn [andb].
    destruct (Z.leb_spec 97 (87 + d)); [| lia].
    destruct (Z.leb_spec (87 + d) 102); [| lia]. cbn [andb]. f_equal. lia.
Qed.

Lemma value_snoc (text : list Z) (d : Z) :
  forall a,
    Hex.value text = Some a -> 0 <= d < 16 ->
    Hex.value (text ++ [Hex.digit d]) = Some (16 * a + d).
Proof.
  intros a Ha Hd. unfold Hex.value in *.
  rewrite fold_left_app, Ha. cbn [fold_left].
  rewrite digit_value_digit by exact Hd. reflexivity.
Qed.

Lemma value_of_uint (width : nat) :
  forall n,
    0 <= n ->
    Hex.value (Hex.of_uint width n []) = Some (n mod 16 ^ Z.of_nat width).
Proof.
  induction width as [| width IH]; intros n Hn.
  - cbn. rewrite Z.mod_1_r. reflexivity.
  - cbn [Hex.of_uint]. rewrite of_uint_app.
    rewrite (value_snoc _ (n mod 16) _ (IH (n / 16) (Z.div_pos n 16 Hn ltac:(lia))))
      by (apply Z.mod_pos_bound; lia).
    f_equal. rewrite Nat2Z.inj_succ, Z.pow_succ_r by lia.
    assert (P : 0 < 16 ^ Z.of_nat width) by (apply Z.pow_pos_nonneg; lia).
    rewrite (Z.rem_mul_r n 16 (16 ^ Z.of_nat width)) by lia. lia.
Qed.

(** X9.  The fixed-width hexadecimal writers send their argument, cut to
    its type, as that many lower-case hexadecimal digits, most significant
    first, through [lcd_writeChar]: two for [lcd_writeHexByte], four for
    [lcd_writeHexWord], and [0x] followed by eight for [lcd_write32bitHex].
    Read back as a hexadecimal number, the digits give the argument. *)
Theorem hex_fixed_width (number : Z) (st : state) :
  lcd_writeHexNibble number st = feed [Hex.digit (number mod 16)] st
  /\ lcd_writeHexByte number st = feed (Hex.of_uint 2 (uint8 number) []) st
  /\ lcd_writeHexWord number st = feed (Hex.of_uint 4 (uint16 number) []) st
  /\ lcd_write32bitHex number st
     = feed ([48; 120] ++ Hex.of_uint 8 (uint32 number) []) st
  /\ Hex.value (Hex.of_uint 2 (uint8 number) []) = Some (uint8 number)
  /\ Hex.value (Hex.of_uint 4 (uint16 number) []) = Some (uint16 number)
  /\ Hex.value (Hex.of_uint 8 (uint32 number) []) = Some (uint32 number).
Proof.
  split; [apply lcd_writeHexNibble_digit |].
  split; [apply lcd_writeHexByte_digits |].
  split; [apply lcd_writeHexWord_digits |].
  split; [apply lcd_write32bitHex_digits |].
  split; [| split].
  - rewrite value_of_uint by (rewrite uint8_mod; apply Z.mod_pos_bound; lia).
    f_equal. rewrite uint8_mod. apply Z.mod_mod. lia.
  - rewrite value_of_uint by (rewrite uint16_mod; apply Z.mod_pos_bound; lia).
    f_equal. rewrite uint16_mod. apply Z.mod_mod. lia.
  - rewrite value_of_uint by (rewrite uint32_mod; apply Z.mod_pos_bound; lia).
    f_equal. rewrite uint32_mod. apply Z.mod_mod. lia.
Qed.

Lemma int8_small (x : Z) : -128 <= x < 128 -> int8 x = x.
Proof. intros H. unfold int8. rewrite uint8_small by lia. lia. Qed.

Lemma writeHex_skip_on (fuel : nat) (number shift : Z) :
  0 <= shift -> 2 ^ shift <= number ->
  writeHex_skip (S fuel) number shift = ShiftFound shift.
Proof.
  intros Hs Hn. cbn [writeHex_skip].
  destruct (Z.ltb_spec shift 0); [lia |].
  rewrite Z.shiftr_div_pow2 by lia.
  assert (P : 0 < 2 ^ shift) by (apply Z.pow_pos_nonneg; lia).
  destruct (Z.eqb_spec (number / 2 ^ shift) 0) as [E |]; [| reflexivity].
  apply Z.div_small_iff in E; lia.
Qed.

Lemma writeHex_skip_over (fuel : nat) (number shift : Z) :
  0 <= shift < 128 -> 0 <= number < 2 ^ shift ->
  writeHex_skip (S fuel) number shift = writeHex_skip fuel number (shift - 4).
Proof.
  intros Hs Hn. cbn [writeHex_skip].
  destruct (Z.ltb_spec shift 0); [lia |].
  rewrite Z.shiftr_div_pow2, Z.div_small by lia.
  rewrite int8_small by lia. reflexivity.
Qed.

Lemma writeHex_digits_step (fuel : nat) (number shift : Z) (st : state) :
  0 <= shift < 128 ->
  writeHex_digits (S fuel) number shift st
  = writeHex_digits fuel number (shift - 4)
      (feed [Hex.digit ((number / 2 ^ shift) mod 16)] st).
Proof.
  intros Hs. cbn [writeHex_digits].
  destruct (Z.geb_spec shift 0); [| lia].
  rewrite int8_small by lia. rewrite lcd_writeHexNibble_digit, feed_one.
  do 3 f_equal. bits_to_arith. apply Z.mod_mod. lia.
Qed.

Lemma writeHex_digits_end (fuel : nat) (number shift : Z) (st : state) :
  shift < 0 -> writeHex_digits (S fuel) number shift st = Done st.
Proof.
  intros Hs. cbn [writeHex_digits]. destruct (Z.geb_spec shift 0); [lia | reflexivity].
Qed.

Ltac hex_run :=
  repeat (rewrite writeHex_skip_over by (cbn; lia);
          first [ progress change (12 - 4) with 8
                | progress change (8 - 4) with 4
                | progress change (4 - 4) with 0 ]);
  rewrite writeHex_skip_on by (cbn; lia);
  repeat (rewrite writeHex_digits_step by lia;
          first [ progress change (12 - 4) with 8
                | progress change (8 - 4) with 4
                | progress change (4 - 4) with 0
                | progress change (0 - 4) with (-4) ]);
  rewrite writeHex_digits_end by lia;
  rewrite ?feed_seq; cbn [app].

Lemma lcd_writeHex_text (fuel : nat) (n : Z) (st : state) :
  (5 <= fuel)%nat -> 0 <= n < 65536 ->
  lcd_writeHex fuel n st = Done (feed (Hex.shortest 4 n []) st).
Proof.
  intros Hfuel Hn.
  do 5 (destruct fuel as [| fuel]; [lia |]). clear Hfuel.
  unfold lcd_writeHex. cbv zeta. rewrite (uint16_small n) by lia.
  change (8 * 2 - 4) with 12.
  destruct (Z.eqb_spec n 0) as [-> | Hpos]; [reflexivity |].
  change (2 ^ 0) with 1 in *.
  destruct (Z.ltb_spec n 16) as [H1 |];
    [| destruct (Z.ltb_spec n 256) as [H2 |];
       [| destruct (Z.ltb_spec n 4096) as [H3 |]]].
  - hex_run. do 2 f_equal. cbn [Hex.shortest].
    destruct (Z.ltb_spec n 16); [| lia].
    change (2 ^ 0) with 1. same_hex_digits.
  - hex_run. do 2 f_equal. cbn [Hex.shortest].
    destruct (Z.ltb_spec n 16); [lia |].
    destruct (Z.ltb_spec (n / 16) 16); [| Z.div_mod_to_equations; lia].
    change (2 ^ 4) with 16. change (2 ^ 0) with 1. same_hex_digits.
  - hex_run. do 2 f_equal. cbn [Hex.shortest].
    destruct (Z.ltb_spec n 16); [lia |].
    destruct (Z.ltb_spec (n / 16) 16); [Z.div_mod_to_equations; lia |].
    destruct (Z.ltb_spec (n / 16 / 16) 16); [| Z.div_mod_to_equations; lia].
    change (2 ^ 8) with 256. change (2 ^ 4) with 16. change (2 ^ 0) with 1.
    same_hex_digits.
  - hex_run. do 2 f_equal. cbn [Hex.shortest].
    destruct (Z.ltb_spec n 16); [lia |].
    destruct (Z.ltb_spec (n / 16) 16); [Z.div_mod_to_equations; lia |].
    destruct (Z.ltb_spec (n / 16 / 16) 16); [Z.div_mod_to_equations; lia |].
    destruct (Z.ltb_spec (n / 16 / 16 / 16) 16); [| Z.div_mod_to_equations; lia].
    change (2 ^ 12) with 4096. change (2 ^ 8) with 256.
    change (2 ^ 4) with 16. change (2 ^ 0) with 1.
    same_hex_digits.
Qed.

Lemma digit_nonzero (d : Z) : 1 <= d < 16 -> Hex.digit d <> 48.
Proof. intros H. unfold Hex.digit. destruct (d <? 10); lia. Qed.

Ltac hex_value :=
  unfold Hex.value; cbn [fold_left];
  rewrite !digit_value_digit by (Z.div_mod_to_equations; lia);
  apply (f_equal (@Some Z)); Z.div_mod_to_equations; lia.

Lemma shortest_sound (n : Z) :
  0 <= n < 65536 ->
  Hex.value (Hex.shortest 4 n []) = Some n
  /\ (n <> 0 -> hd 0 (Hex.shortest 4 n []) <> 48).
Proof.
  intros Hn. cbn [Hex.shortest].
  destruct (Z.ltb_spec n 16) as [H1 |];
    [| destruct (Z.ltb_spec (n / 16) 16) as [H2 |];
       [| destruct (Z.ltb_spec (n / 16 / 16) 16) as [H3 |];
          [| destruct (Z.ltb_spec (n / 16 / 16 / 16) 16) as [H4 |]]]].
  - split; [hex_value | intros Hne; apply digit_nonzero; lia].
  - split; [hex_value |].
    intros _. apply digit_nonzero. Z.div_mod_to_equations. lia.
  - split; [hex_value |].
    intros _. apply digit_nonzero. Z.div_mod_to_equations. lia.
  - split; [hex_value |].
    intros _. apply digit_nonzero. Z.div_mod_to_equations. lia.
  - exfalso. Z.div_mod_to_equations. lia.
Qed.

(** X10.  [lcd_writeHex] returns for every 16-bit number, zero included
    (five rounds of each loop are enough): it sends the hexadecimal digits of
    the number in lower case through [lcd_writeChar], most significant
    first and without leading zeros -- the single digit 0 for zero.  Read
    back, the digits give the number.  The test for zero at the top is
    needed: on zero the loop that looks for the first digit would go on to
    a negative shift count. *)
Theorem lcd_writeHex_shortest (fuel : nat) (number : Z) (st : state) :
  (5 <= fuel)%nat ->
  lcd_writeHex fuel number st
  = Done (feed (Hex.shortest 4 (uint16 number) []) st)
  /\ Hex.value (Hex.shortest 4 (uint16 number) []) = Some (uint16 number)
  /\ (uint16 number <> 0 -> hd 0 (Hex.shortest 4 (uint16 number) []) <> 48)
  /\ writeHex_skip fuel 0 12 = NegativeShift.
Proof.
  intros Hfuel.
  assert (R : 0 <= uint16 number < 65536)
    by (rewrite uint16_mod; apply Z.mod_pos_bound; lia).
  destruct (shortest_sound (uint16 number) R) as [V L].
  split; [| split; [exact V | split; [exact L |]]].
  - rewrite <- (lcd_writeHex_text fuel (uint16 number) st Hfuel R).
    unfold lcd_writeHex. cbv zeta. rewrite (uint16_small (uint16 number)) by exact R.
    reflexivity.
  - do 5 (destruct fuel as [| fuel]; [lia |]). reflexivity.
Qed.

Lemma lcd_writeHex_shortest_witness :
  lcd_writeHex 5 4095 reset_state = Done (feed [102; 102; 102] reset_state)
  /\ lcd_writeHex 5 0 reset_state = Done (feed [48] reset_state).
Proof.
  split.
  - apply (lcd_writeHex_shortest 5 4095 reset_state). lia.
  - apply (lcd_writeHex_shortest 5 0 reset_state). lia.
Defined.

(** ** Decimal output and voltages *)

(** X11.  For every number from 1 to 65535 [lcd_writeDec] returns (six
    rounds of each loop are enough) and has sent, through [lcd_writeChar],
    the decimal digits of the number: digits only, no leading zero, and
    read back they give the number. *)
Theorem lcd_writeDec_digits (n : Z) (st : state) :
  1 <= n <= 65535 ->
  lcd_writeDec 6 n st = Done (feed (Decimal.of_uint16 n) st)
  /\ Decimal.value (Decimal.of_uint16 n) = n
  /\ hd 0 (Decimal.of_uint16 n) <> 48
  /\ Forall (fun c => 48 <= c <= 57) (Decimal.of_uint16 n).
Proof.
  intros H. split; [apply lcd_writeDec_positive; exact H |].
  apply decimal_sound. exact H.
Qed.

Lemma lcd_writeDec_digits_witness :
  lcd_writeDec 6 4096 reset_state = Done (feed [52; 48; 57; 54] reset_state)
  /\ Decimal.value [52; 48; 57; 54] = 4096.
Proof.
  destruct (lcd_writeDec_digits 4096 reset_state) as [A [B _]].
  - lia.
  - split; [exact A | exact B].
Defined.

Lemma lcd_writeDec_zero (st : state) :
  lcd_writeDec 6 0 st = Faulted (lcd_writeChar 48 st).
Proof. reflexivity. Qed.

Lemma uint16_range (x : Z) : 0 <= uint16 x < 65536.
Proof. rewrite uint16_mod. apply Z.mod_pos_bound. lia. Qed.

(** X12.  [lcd_writeVoltage] in its three cases.  An upper bound of zero
    for the values is a division by zero at the first line.  A voltage
    below one volt has the integer part 0, for which [lcd_writeDec] writes
    a 0 and then divides by zero.  From one volt on the function returns,
    having sent the integer part in decimal, a point, the three digits of
    the millivolts and the letter V.  The millivolts are the quotient
    [voltage * 1000 * voltUpperBound / valueUpperBound] whenever the product
    fits 32 bits and the quotient 16 bits. *)
Theorem lcd_writeVoltage_cases (voltage valueUpperBound voltUpperBound : Z)
    (st : state) :
  lcd_writeVoltage 6 voltage valueUpperBound voltUpperBound st
  = (if uint16 valueUpperBound =? 0 then Faulted st
     else if voltage_millivolts voltage valueUpperBound voltUpperBound <? 1000
          then Faulted (lcd_writeChar 48 st)
          else
            Done (feed (Decimal.of_uint16
                          (voltage_millivolts voltage valueUpperBound voltUpperBound
                           / 1000)
                        ++ [46;
                            48 + voltage_millivolts voltage valueUpperBound
                                   voltUpperBound / 100 mod 10;
                            48 + voltage_millivolts voltage valueUpperBound
                                   voltUpperBound / 10 mod 10;
                            48 + voltage_millivolts voltage valueUpperBound
                                   voltUpperBound mod 10;
                            86]) st))
  /\ (uint16 valueUpperBound <> 0 ->
      uint16 voltage * 1000 * uint8 voltUpperBound < 2 ^ 32 ->
      uint16 voltage * 1000 * uint8 voltUpperBound / uint16 valueUpperBound < 2 ^ 16 ->
      voltage_millivolts voltage valueUpperBound voltUpperBound
      = uint16 voltage * 1000 * uint8 voltUpperBound / uint16 valueUpperBound).
Proof.
  split.
  - unfold lcd_writeVoltage. cbv zeta.
    destruct (uint16 valueUpperBound =? 0); [reflexivity |].
    fold (voltage_millivolts voltage valueUpperBound voltUpperBound).
    pose proof (uint16_range
                  (uint32 (uint32 (uint16 voltage * 1000) * uint8 voltUpperBound)
                   / uint16 valueUpperBound)) as R.
    fold (voltage_millivolts voltage valueUpperBound voltUpperBound) in R.
    set (mv := voltage_millivolts voltage valueUpperBound voltUpperBound) in *.
    clearbody mv.
    assert (Ei : uint16 (mv / 1000) = mv / 1000)
      by (apply uint16_small; Z.div_mod_to_equations; lia).
    rewrite Ei.
    destruct (Z.ltb_spec mv 1000) as [Hlow | Hhigh].
    + rewrite (Z.div_small mv 1000) by lia. rewrite lcd_writeDec_zero. reflexivity.
    + rewrite lcd_writeDec_positive by (Z.div_mod_to_equations; lia).
      unfold seq. rewrite <- !feed_one, !feed_seq. cbn [app].
      do 2 f_equal. f_equal.
      bits_to_arith.
      repeat (apply (f_equal2 (@cons Z)); [try reflexivity; Z.div_mod_to_equations; lia |]).
      reflexivity.
  - intros Hb Hprod Hquot. unfold voltage_millivolts.
    pose proof (uint16_range voltage) as Rv.
    pose proof (uint16_range valueUpperBound) as Rb.
    pose proof (uint8_range voltUpperBound) as Ru.
    set (v := uint16 voltage) in *. set (b := uint16 valueUpperBound) in *.
    set (u := uint8 voltUpperBound) in *.
    assert (E1 : uint32 (v * 1000) = v * 1000)
      by (rewrite uint32_mod; apply Z.mod_small; nia).
    rewrite E1.
    assert (E2 : uint32 (v * 1000 * u) = v * 1000 * u)
      by (rewrite uint32_mod; apply Z.mod_small; nia).
    rewrite E2. apply uint16_small. split; [| exact Hquot].
    apply Z.div_pos; nia.
Qed.

(** ** The glyph table *)

Lemma lcdCode_ascii_checked (cp : Z) :
  0 <= cp <= 0x80 ->
  lcdCode cp = (if cp =? 0x5C then LCD_CC_BACKSLASH
                else if cp =? 0x7E then LCD_CC_TILDE else cp).
Proof. intros H. by_cases cp 0 129%nat. Qed.

Lemma lcdCode_beyond (cp : Z) : 0x25AF < cp -> lcdCode cp = 0xFF.
Proof.
  intros H. unfold lcdCode, LCD_CC_BACKSLASH, LCD_CC_TILDE.
  set (other := if cp <=? 128 then uint8 cp else 255).
  assert (Hother : other = 255)
    by (unfold other; destruct (Z.leb_spec cp 128); [lia | reflexivity]).
  clearbody other. subst other.
  repeat match goal with
         | |- context [match ?x with _ => _ end] => destruct x
         end;
    first [reflexivity | exfalso; lia].
Qed.

(** X13.  The glyph table of [lcd_writeChar].  Code points up to 0x80 are
    sent as they are, except the backslash and the tilde, which go to the
    two custom glyphs [lcd_init] registers (slots 2 and 1); every code point
    past the last entry of the table, U+25AF, is sent as the black block
    0xFF; and whatever the code point, the code is a byte. *)
Theorem lcdCode_table (cp : Z) :
  (0 <= cp <= 0x80 ->
   lcdCode cp = (if cp =? 0x5C then LCD_CC_BACKSLASH
                 else if cp =? 0x7E then LCD_CC_TILDE else cp))
  /\ (0x25AF < cp -> lcdCode cp = 0xFF)
  /\ 0 <= lcdCode cp < 256.
Proof.
  split; [apply lcdCode_ascii_checked |].
  split; [apply lcdCode_beyond | apply lcdCode_range].
Qed.

(** ** What the driver does to the port, call after call *)

Lemma pins_kept_refl (st : state) : pins_kept st st.
Proof. unfold pins_kept. tauto. Qed.

Lemma pins_kept_trans (a b c : state) :
  pins_kept a b -> pins_kept b c -> pins_kept a c.
Proof.
  unfold pins_kept. intros [D1 [R1 [S1 E1]]] [D2 [R2 [S2 E2]]].
  rewrite D2, R2, S2. tauto.
Qed.

Lemma bytes_xfer_app (a b : list (Z * Z * Z)) :
  bytes_xfer (a ++ b) = bytes_xfer a ++ bytes_xfer b.
Proof. apply flat_map_app. Qed.

Lemma sends_bytes_refl (st : state) : sends_bytes st st.
Proof.
  exists []. unfold bytes_xfer. cbn [flat_map forallb]. rewrite app_nil_r.
  split; reflexivity.
Qed.

Lemma sends_bytes_trans (a b c : state) :
  sends_bytes a b -> sends_bytes b c -> sends_bytes a c.
Proof.
  intros [l1 [W1 F1]] [l2 [W2 F2]]. exists (l1 ++ l2).
  rewrite W2, W1, bytes_xfer_app, forallb_app, F1, F2, <- app_assoc.
  split; reflexivity.
Qed.

Lemma disciplined_refl (st : state) : disciplined st st.
Proof. split; [apply pins_kept_refl | apply sends_bytes_refl]. Qed.

Lemma disciplined_trans (a b c : state) :
  disciplined a b -> disciplined b c -> disciplined a c.
Proof.
  intros [P1 S1] [P2 S2].
  split; [exact (pins_kept_trans a b c P1 P2) | exact (sends_bytes_trans a b c S1 S2)].
Qed.

Lemma PORTA_set_PORTA (f : Z -> Z) (st : state) :
  PORTA (set_PORTA f st) = uint8 (f (PORTA st)).
Proof. reflexivity. Qed.

(** A store that changes one of the pins 0 to 5. *)
Lemma pins_kept_store (f : Z -> Z) (st : state) :
  (forall p i, 6 <= i < 8 -> Z.testbit (f p) i = Z.testbit p i) ->
  (forall p, Z.testbit p EN_PIN = false -> Z.testbit (f p) EN_PIN = false) ->
  pins_kept st (set_PORTA f st).
Proof.
  intros Hhigh Hen. unfold pins_kept. rewrite PORTA_set_PORTA.
  unfold RW_PIN, EN_PIN in *.
  rewrite !uint8_bit by lia. rewrite !Hhigh by lia.
  split; [reflexivity | split; [reflexivity | split; [reflexivity |]]].
  apply Hen.
Qed.

Lemma pins_kept_put (pin v : Z) (st : state) :
  0 <= pin < 5 -> v = 0 \/ v = 1 -> pins_kept st (set_PORTA (put_bit pin v) st).
Proof.
  intros Hpin Hv. apply pins_kept_store.
  - intros p i Hi. apply put_bit_other; lia.
  - intros p Hp. unfold EN_PIN in *. rewrite put_bit_other by lia.
    exact Hp.
Qed.

Lemma uint8_01 (rs : Z) : rs = 0 \/ rs = 1 -> uint8 rs = 0 \/ uint8 rs = 1.
Proof. intros [-> | ->]; [left | right]; reflexivity. Qed.

Lemma pins_kept_sendNibble (rs n : Z) (st : state) :
  rs = 0 \/ rs = 1 ->
  pins_kept st (sendNibble rs n st)
  /\ Z.testbit (PORTA (sendNibble rs n st)) EN_PIN = false.
Proof.
  intros Hrs. unfold sendNibble, seq. cbv zeta.
  set (s1 := set_PORTA (put_bit RS_PIN (uint8 rs)) st).
  set (s2 := set_PORTA (put_bit DB4_PIN (Z.land (Z.shiftr (uint8 n) 0) 1)) s1).
  set (s3 := set_PORTA (put_bit DB5_PIN (Z.land (Z.shiftr (uint8 n) 1) 1)) s2).
  set (s4 := set_PORTA (put_bit DB6_PIN (Z.land (Z.shiftr (uint8 n) 2) 1)) s3).
  set (s5 := set_PORTA (put_bit DB7_PIN (Z.land (Z.shiftr (uint8 n) 3) 1)) s4).
  set (s6 := _delay_us 1 s5).
  set (s7 := set_PORTA (set_bit EN_PIN) s6).
  set (s8 := _delay_us 1 s7).
  set (s9 := set_PORTA (clear_bit EN_PIN) s8).
  assert (P1 : pins_kept st s1)
    by (apply pins_kept_put; [unfold RS_PIN; lia | apply uint8_01; exact Hrs]).
  assert (P2 : pins_kept s1 s2)
    by (apply pins_kept_put; [unfold DB4_PIN; lia | apply nibble_bit_01]).
  assert (P3 : pins_kept s2 s3)
    by (apply pins_kept_put; [unfold DB5_PIN; lia | apply nibble_bit_01]).
  assert (P4 : pins_kept s3 s4)
    by (apply pins_kept_put; [unfold DB6_PIN; lia | apply nibble_bit_01]).
  assert (P5 : pins_kept s4 s5)
    by (apply pins_kept_put; [unfold DB7_PIN; lia | apply nibble_bit_01]).
  assert (E9 : Z.testbit (PORTA s9) EN_PIN = false).
  { unfold s9. rewrite PORTA_set_PORTA. unfold EN_PIN.
    rewrite uint8_bit by lia. apply clear_bit_same. lia. }
  assert (H9 : forall i, 6 <= i < 8 ->
                         Z.testbit (PORTA s9) i = Z.testbit (PORTA s5) i).
  { intros i Hi. unfold s9, s8, s7, s6.
    rewrite PORTA_set_PORTA. change (PORTA (_delay_us 1 ?s)) with (PORTA s).
    rewrite PORTA_set_PORTA. change (PORTA (_delay_us 1 ?s)) with (PORTA s).
    unfold EN_PIN. rewrite uint8_bit by lia. rewrite clear_bit_other by lia.
    rewrite uint8_bit by lia. apply set_bit_other; lia. }
  assert (P9 : pins_kept s5 s9).
  { unfold pins_kept. unfold RW_PIN. rewrite !H9 by lia.
    split; [reflexivity | split; [reflexivity | split; [reflexivity |]]].
    intros _. exact E9. }
  split.
  - change (_delay_us 1 s9) with (_delay_us 1 s9).
    apply (pins_kept_trans st s9); [| unfold pins_kept; tauto].
    apply (pins_kept_trans st s5); [| exact P9].
    apply (pins_kept_trans st s4); [| exact P5].
    apply (pins_kept_trans st s3); [| exact P4].
    apply (pins_kept_trans st s2); [| exact P3].
    apply (pins_kept_trans st s1); [exact P1 | exact P2].
  - exact E9.
Qed.

Lemma pins_kept_quiet (st st' : state) :
  PORTA st' = PORTA st -> DDRA st' = DDRA st -> pins_kept st st'.
Proof. intros P D. unfold pins_kept. rewrite P, D. tauto. Qed.

Lemma pins_kept_SEND_BYTE (rs c delay : Z) (st : state) :
  rs = 0 \/ rs = 1 -> pins_kept st (SEND_BYTE rs c delay st).
Proof.
  intros Hrs. unfold SEND_BYTE, sendByte, seq. cbv zeta.
  set (s1 := sendNibble rs (Z.shiftr (uint8 c) 4) st).
  set (s2 := sendNibble rs (Z.land (uint8 c) 15) s1).
  apply (pins_kept_trans st s2); [| apply pins_kept_quiet; reflexivity].
  apply (pins_kept_trans st s1); apply pins_kept_sendNibble; exact Hrs.
Qed.

Lemma transfer_ok_byte (rs c delay : Z) :
  rs = 0 \/ rs = 1 -> forallb transfer_ok [(rs, uint8 c, delay)] = true.
Proof.
  intros Hrs. pose proof (uint8_range c) as R. cbn [forallb].
  unfold transfer_ok. cbn [fst snd].
  rewrite andb_true_r, !andb_true_iff, orb_true_iff, !Z.eqb_eq, Z.leb_le, Z.ltb_lt.
  lia.
Qed.

Lemma after_SEND_BYTE_cmd (c delay : Z) (st s : state) :
  disciplined st s -> disciplined st (SEND_BYTE 0 c delay s).
Proof.
  intros H. apply (disciplined_trans st s); [exact H |]. split.
  - apply pins_kept_SEND_BYTE. left. reflexivity.
  - exists [(0, uint8 c, delay)]. rewrite SEND_BYTE_cmd.
    split; [unfold bytes_xfer; cbn [flat_map fst snd]; rewrite app_nil_r; reflexivity
           | apply transfer_ok_byte; lia].
Qed.

Lemma after_SEND_BYTE_data (c delay : Z) (st s : state) :
  disciplined st s -> disciplined st (SEND_BYTE 1 c delay s).
Proof.
  intros H. apply (disciplined_trans st s); [exact H |]. split.
  - apply pins_kept_SEND_BYTE. right. reflexivity.
  - exists [(1, uint8 c, delay)]. rewrite SEND_BYTE_data.
    split; [unfold bytes_xfer; cbn [flat_map fst snd]; rewrite app_nil_r; reflexivity
           | apply transfer_ok_byte; lia].
Qed.

Lemma after_set_lcdCursor (v : Z) (st s : state) :
  disciplined st s -> disciplined st (set_lcdCursor v s).
Proof.
  intros H. apply (disciplined_trans st s); [exact H |]. split.
  - apply pins_kept_quiet; reflexivity.
  - exists []. unfold bytes_xfer. cbn [flat_map forallb]. rewrite app_nil_r.
    split; reflexivity.
Qed.

Lemma after_set_utf8Buffer (v : Z) (st s : state) :
  disciplined st s -> disciplined st (set_utf8Buffer v s).
Proof.
  intros H. apply (disciplined_trans st s); [exact H |]. split.
  - apply pins_kept_quiet; reflexivity.
  - exists []. unfold bytes_xfer. cbn [flat_map forallb]. rewrite app_nil_r.
    split; reflexivity.
Qed.

Lemma after_updateCursor (st s : state) :
  disciplined st s -> disciplined st (updateCursor s).
Proof. intros H. unfold updateCursor. apply after_SEND_BYTE_cmd. exact H. Qed.

Ltac discipline :=
  repeat match goal with
         | H : disciplined ?a ?b |- disciplined ?a ?b => exact H
         | |- disciplined ?a ?a => apply disciplined_refl
         | |- disciplined _ (updateCursor _) => apply after_updateCursor
         | |- disciplined _ (set_lcdCursor _ _) => apply after_set_lcdCursor
         | |- disciplined _ (set_utf8Buffer _ _) => apply after_set_utf8Buffer
         | |- disciplined _ (SEND_BYTE 0 _ _ _) => apply after_SEND_BYTE_cmd
         | |- disciplined _ (SEND_BYTE 1 _ _ _) => apply after_SEND_BYTE_data
         end.

Lemma after_lcd_clear (st s : state) :
  disciplined st s -> disciplined st (lcd_clear s).
Proof. intros H. unfold lcd_clear, seq. discipline. Qed.

Lemma after_lcd_line2 (st s : state) :
  disciplined st s -> disciplined st (lcd_line2 s).
Proof. intros H. unfold lcd_line2, seq. discipline. Qed.

Lemma after_lcd_goto (row column : Z) (st s : state) :
  disciplined st s -> disciplined st (lcd_goto row column s).
Proof. intros H. rewrite lcd_goto_unfold. discipline. Qed.

Lemma after_lcd_putCode (codePoint : Z) (st s : state) :
  disciplined st s -> disciplined st (lcd_putCode codePoint s).
Proof.
  intros H. unfold lcd_putCode, seq. destruct (codePoint =? 10).
  - destruct (lcdCursor s <? 16); discipline.
  - apply after_set_lcdCursor, after_SEND_BYTE_data.
    destruct (lcdCursor s =? 32); [apply after_lcd_clear; exact H |].
    destruct (lcdCursor s =? 16); [apply after_lcd_line2; exact H | exact H].
Qed.

Lemma after_lcd_writeChar (character : Z) (st s : state) :
  disciplined st s -> disciplined st (lcd_writeChar character s).
Proof.
  intros H. rewrite lcd_writeChar_unfold.
  destruct (utf8_scan (utf8_push (utf8Buffer s) character)).
  - apply after_lcd_putCode. discipline.
  - discipline.
Qed.

Lemma after_feed (bytes : list Z) :
  forall st s, disciplined st s -> disciplined st (feed bytes s).
Proof.
  induction bytes as [| b bytes IH]; intros st s H; [exact H |].
  cbn [feed]. unfold seq. apply IH, after_lcd_writeChar, H.
Qed.

Lemma after_lcd_writeString (text : list Z) :
  forall st s, disciplined st s -> disciplined st (lcd_writeString text s).
Proof.
  induction text as [| b text IH]; intros st s H; [exact H |].
  cbn [lcd_writeString]. destruct (uint8 b =? 0); [exact H |].
  unfold seq. apply IH, after_lcd_writeChar, H.
Qed.

Lemma after_lcd_writeProgString (text : list Z) :
  forall st s, disciplined st s -> disciplined st (lcd_writeProgString text s).
Proof.
  induction text as [| b text IH]; intros st s H; [exact H |].
  cbn [lcd_writeProgString]. destruct (uint8 b =? 0); [exact H |].
  unfold seq. apply IH, after_lcd_writeChar, H.
Qed.

Lemma after_send_bitmap (rows : nat) :
  forall chr st s, disciplined st s -> disciplined st (send_bitmap rows chr s).
Proof.
  induction rows as [| rows IH]; intros chr st s H; [exact H |].
  cbn [send_bitmap]. unfold seq. apply IH, after_SEND_BYTE_data, H.
Qed.

Lemma after_exec (o : op) (st s : state) :
  disciplined st s -> disciplined st (exec o s).
Proof.
  intros H. destruct o; cbn [exec].
  - unfold lcd_line1, seq. discipline.
  - apply after_lcd_line2, H.
  - apply after_lcd_goto, H.
  - unfold lcd_move, seq. cbv zeta. discipline.
  - unfold lcd_back, seq. destruct (lcdCursor s =? 0); discipline.
  - unfold lcd_forward, seq. destruct (lcdCursor s =? 31); discipline.
  - unfold lcd_home, seq. discipline.
  - apply after_lcd_clear, H.
  - unfold lcd_erase, seq. cbv zeta.
    apply after_updateCursor, after_set_lcdCursor, after_lcd_writeProgString,
      after_lcd_goto, H.
  - apply after_lcd_writeChar, H.
Qed.

Lemma after_perform (c : call) (st s : state) :
  disciplined st s -> disciplined st (perform c s).
Proof.
  intros H. destruct c; cbn [perform].
  - apply after_exec, H.
  - unfold lcd_registerCustomChar, seq. cbv zeta.
    apply after_updateCursor, after_send_bitmap, after_SEND_BYTE_cmd, H.
  - unfold lcd_command. apply after_SEND_BYTE_cmd, H.
  - apply after_lcd_writeString, H.
  - apply after_lcd_writeProgString, H.
  - unfold lcd_writeHexNibble. cbv zeta. apply after_lcd_writeChar, H.
  - rewrite lcd_writeHexByte_digits. apply after_feed, H.
  - rewrite lcd_writeHexWord_digits. apply after_feed, H.
  - rewrite lcd_write32bitHex_digits. apply after_feed, H.
Qed.

Lemma perform_all_disciplined (calls : list call) :
  forall st s, disciplined st s -> disciplined st (perform_all calls s).
Proof.
  induction calls as [| c calls IH]; intros st s H; [exact H |].
  cbn [perform_all]. unfold seq. apply IH, after_perform, H.
Qed.

(** X14.  Whatever calls of the kinds of [call] are made (all of the
    driver but [lcd_init] and the four functions with loops of their own),
    in whatever state: the driver never writes the direction register, never
    changes the R/W line or the pin PA7 of the port it shares, and leaves EN
    low if it found it low. *)
Theorem driver_keeps_its_pins (calls : list call) (st : state) :
  DDRA (perform_all calls st) = DDRA st
  /\ Z.testbit (PORTA (perform_all calls st)) RW_PIN = Z.testbit (PORTA st) RW_PIN
  /\ Z.testbit (PORTA (perform_all calls st)) 7 = Z.testbit (PORTA st) 7
  /\ (Z.testbit (PORTA st) EN_PIN = false ->
      Z.testbit (PORTA (perform_all calls st)) EN_PIN = false).
Proof.
  exact (proj1 (perform_all_disciplined calls st st (disciplined_refl st))).
Qed.

(** X15.  Whatever calls of the kinds of [call] are made, what the
    controller receives from them is a sequence of whole bytes -- two
    nibbles with the same register select, then the delay --, so the two
    sides never lose step in 4-bit mode. *)
Theorem driver_sends_whole_bytes (calls : list call) (st : state) :
  exists l,
    wire (perform_all calls st) = wire st ++ bytes_xfer l
    /\ forallb transfer_ok l = true.
Proof.
  exact (proj2 (perform_all_disciplined calls st st (disciplined_refl st))).
Qed.

(** ** The pins after initialisation *)

Lemma pins_kept_delay_us (us : Z) (st : state) : pins_kept st (_delay_us us st).
Proof. apply pins_kept_quiet; reflexivity. Qed.

Lemma pins_kept_delayMs (ms : Z) (st : state) : pins_kept st (delayMs ms st).
Proof. apply pins_kept_quiet; reflexivity. Qed.

Lemma pins_kept_perform (c : call) (st : state) : pins_kept st (perform c st).
Proof. exact (proj1 (after_perform c st st (disciplined_refl st))). Qed.

Ltac pins_after :=
  repeat match goal with
         | |- pins_kept ?a ?a => apply pins_kept_refl
         | |- pins_kept ?a (_delay_us ?us ?s) =>
             apply (pins_kept_trans a s); [| apply pins_kept_delay_us]
         | |- pins_kept ?a (delayMs ?ms ?s) =>
             apply (pins_kept_trans a s); [| apply pins_kept_delayMs]
         | |- pins_kept ?a (sendNibble ?rs ?n ?s) =>
             apply (pins_kept_trans a s);
             [| apply pins_kept_sendNibble; left; reflexivity]
         | |- pins_kept ?a (SEND_BYTE ?rs ?c ?d ?s) =>
             apply (pins_kept_trans a s);
             [| apply pins_kept_SEND_BYTE; left; reflexivity]
         | |- pins_kept ?a (lcd_clear ?s) =>
             apply (pins_kept_trans a s);
             [| apply (pins_kept_perform (Op Clear))]
         | |- pins_kept ?a (lcd_registerCustomChar ?addr ?chr ?s) =>
             apply (pins_kept_trans a s);
             [| apply (pins_kept_perform (RegisterCustomChar addr chr))]
         end.

Ltac pin_chain :=
  repeat (rewrite uint8_bit by lia;
          first [ rewrite set_bit_same by lia
                | rewrite set_bit_other by lia
                | rewrite clear_bit_same by lia
                | rewrite clear_bit_other by lia ]).

(** X16.  [lcd_init], whatever the registers held before: the seven lines
    of the LCD are outputs and the eighth pin of the port keeps its
    direction and its level; R/W and EN are low -- and by X14 R/W stays low,
    the driver never reads from the controller --; the cursor is 0.  The
    UTF-8 accumulator is not touched: a display that is initialised again
    while a sequence is pending, or jammed, stays that way. *)
Theorem lcd_init_pins (st : state) :
  (forall i, 0 <= i < 7 -> Z.testbit (DDRA (lcd_init st)) i = true)
  /\ Z.testbit (DDRA (lcd_init st)) 7 = Z.testbit (DDRA st) 7
  /\ Z.testbit (PORTA (lcd_init st)) RW_PIN = false
  /\ Z.testbit (PORTA (lcd_init st)) EN_PIN = false
  /\ Z.testbit (PORTA (lcd_init st)) 7 = Z.testbit (PORTA st) 7
  /\ lcdCursor (lcd_init st) = 0
  /\ utf8Buffer (lcd_init st) = utf8Buffer st.
Proof.
  assert (G : exists s14,
             pins_kept s14 (lcd_init st)
             /\ DDRA s14
                = uint8 (set_bit DB7_PIN (uint8 (set_bit DB6_PIN
                    (uint8 (set_bit DB5_PIN (uint8 (set_bit DB4_PIN
                      (uint8 (set_bit EN_PIN (uint8 (set_bit RS_PIN
                        (uint8 (set_bit RW_PIN (DDRA st))))))))))))))
             /\ PORTA s14
                = uint8 (clear_bit DB7_PIN (uint8 (clear_bit DB6_PIN
                    (uint8 (clear_bit DB5_PIN (uint8 (clear_bit DB4_PIN
                      (uint8 (clear_bit EN_PIN (uint8 (clear_bit RS_PIN
                        (uint8 (clear_bit RW_PIN (PORTA st))))))))))))))).
  { unfold lcd_init, seq.
    set (s14 := set_DDRA (set_bit DB7_PIN) _).
    exists s14. split; [pins_after |].
    split; reflexivity. }
  destruct G as [s14 [[D [R [S E]]] [Hd Hp]]].
  unfold RW_PIN, RS_PIN, EN_PIN, DB4_PIN, DB5_PIN, DB6_PIN, DB7_PIN in *.
  assert (E14 : Z.testbit (PORTA s14) 5 = false) by (rewrite Hp; pin_chain; reflexivity).
  split; [| split; [| split; [| split; [| split; [| split]]]]].
  - intros i Hi. rewrite D, Hd.
    assert (C : i = 0 \/ i = 1 \/ i = 2 \/ i = 3 \/ i = 4 \/ i = 5 \/ i = 6) by lia.
    destruct C as [-> | [-> | [-> | [-> | [-> | [-> | ->]]]]]];
      pin_chain; reflexivity.
  - rewrite D, Hd. pin_chain. reflexivity.
  - rewrite R, Hp. pin_chain. reflexivity.
  - apply E. exact E14.
  - rewrite S, Hp. pin_chain. reflexivity.
  - reflexivity.
  - reflexivity.
Qed.

(** ** Cursor range and relative moves *)

Lemma feed_cursor_range (bytes : list Z) :
  forall st, 0 <= lcdCursor st <= 32 -> 0 <= lcdCursor (feed bytes st) <= 32.
Proof.
  induction bytes as [| b bytes IH]; intros st H; [exact H |].
  cbn [feed]. unfold seq. apply IH, lcd_writeChar_cursor, H.
Qed.

Lemma lcd_writeString_cursor_range (text : list Z) :
  forall st, 0 <= lcdCursor st <= 32 ->
             0 <= lcdCursor (lcd_writeString text st) <= 32.
Proof.
  induction text as [| b text IH]; intros st H; [exact H |].
  cbn [lcd_writeString]. destruct (uint8 b =? 0); [exact H |].
  unfold seq. apply IH, lcd_writeChar_cursor, H.
Qed.

Lemma lcd_writeProgString_cursor_range (text : list Z) :
  forall st, 0 <= lcdCursor st <= 32 ->
             0 <= lcdCursor (lcd_writeProgString text st) <= 32.
Proof.
  induction text as [| b text IH]; intros st H; [exact H |].
  cbn [lcd_writeProgString]. destruct (uint8 b =? 0); [exact H |].
  unfold seq. apply IH, lcd_writeChar_cursor, H.
Qed.

Lemma perform_cursor_range (c : call) (st : state) :
  c <> Op Forward -> 0 <= lcdCursor st <= 32 ->
  0 <= lcdCursor (perform c st) <= 32.
Proof.
  intros Hc H. destruct c; cbn [perform].
  - apply cursor_stays_in_range; [exact H |]. intros ->. contradiction.
  - rewrite (proj1 (lcd_registerCustomChar_globals addr chr st)). exact H.
  - exact H.
  - apply lcd_writeString_cursor_range, H.
  - apply lcd_writeProgString_cursor_range, H.
  - unfold lcd_writeHexNibble. cbv zeta. apply lcd_writeChar_cursor, H.
  - rewrite lcd_writeHexByte_digits. apply feed_cursor_range, H.
  - rewrite lcd_writeHexWord_digits. apply feed_cursor_range, H.
  - rewrite lcd_write32bitHex_digits. apply feed_cursor_range, H.
Qed.

(** X17.  The cursor invariant.  Started with [lcdCursor] between 0 and the
    sentinel 32, any sequence of calls of the kinds of [call] that does not
    contain [lcd_forward] leaves it there. *)
Theorem cursor_invariant (calls : list call) (st : state) :
  Forall (fun c => c <> Op Forward) calls ->
  0 <= lcdCursor st <= 32 ->
  0 <= lcdCursor (perform_all calls st) <= 32.
Proof.
  revert st. induction calls as [| c calls IH]; intros st Hcalls H; [exact H |].
  inversion Hcalls as [| ? ? Hc Hrest]; subst.
  cbn [perform_all]. unfold seq. apply IH; [exact Hrest |].
  apply perform_cursor_range; assumption.
Qed.

Lemma cursor_invariant_witness :
  0 <= lcdCursor (perform_all [Op (Goto 2 16); WriteString [72; 105; 33];
                               Op Back; WriteHexWord 0xBEEF; Op (Erase 1)]
                              reset_state) <= 32.
Proof.
  apply (cursor_invariant [Op (Goto 2 16); WriteString [72; 105; 33];
                           Op Back; WriteHexWord 0xBEEF; Op (Erase 1)]
                          reset_state).
  - repeat constructor; discriminate.
  - vm_compute. split; discriminate.
Defined.

(** X18.  [lcd_move(row, column)] on the 32 positions: the cursor moves by
    [row + 1] rows and [column - 1] columns, each taken modulo the size of
    the display, and stays on the display.  The call that leaves the cursor
    where it is is therefore [lcd_move(-1, 1)]; [lcd_move(0, 0)] moves it
    to the other row and one column back. *)
Theorem lcd_move_offsets (row column : Z) (st : state) :
  0 <= lcdCursor st <= 31 ->
  -128 <= row < 128 -> -128 <= column < 128 ->
  lcdCursor (lcd_move row column st)
  = ((lcdCursor st / 16 + row + 1) mod 2) * 16
    + (lcdCursor st mod 16 + column - 1) mod 16
  /\ 0 <= lcdCursor (lcd_move row column st) <= 31
  /\ lcdCursor (lcd_move (-1) 1 st) = lcdCursor st.
Proof.
  intros Hcur Hrow Hcol.
  assert (G : forall r c, -128 <= r < 128 -> -128 <= c < 128 ->
                lcdCursor (lcd_move r c st)
                = ((lcdCursor st / 16 + r + 1) mod 2) * 16
                  + (lcdCursor st mod 16 + c - 1) mod 16).
  { intros r c Hr Hc. rewrite lcd_move_cursor by lia.
    f_equal. Z.div_mod_to_equations. lia. }
  split; [apply G; assumption |].
  split.
  - rewrite G by assumption. Z.div_mod_to_equations. lia.
  - rewrite G by lia. Z.div_mod_to_equations. lia.
Qed.

Lemma lcd_move_offsets_witness :
  lcdCursor (lcd_move 0 0 (lcd_goto 1 5 reset_state)) = 19
  /\ lcdCursor (lcd_move (-1) 1 (lcd_goto 1 5 reset_state)) = 4.
Proof.
  destruct (lcd_move_offsets 0 0 (lcd_goto 1 5 reset_state)) as [A [_ B]].
  - vm_compute. split; discriminate.
  - lia.
  - lia.
  - split; [exact A | exact B].
Defined.

(** ** The frequency measurement of Tests/RTC/main.c *)

Lemma overflow_interrupts_count (n : nat) :
  forall g,
    RTC.overflows (RTC.captures0 (RTC.overflow_interrupts n g))
    = (RTC.overflows (RTC.captures0 g) + Z.of_nat n) mod 65536
      \/ (n = 0%nat /\ RTC.overflow_interrupts n g = g).
Proof.
  induction n as [| n IH]; intros g; [right; split; reflexivity |].
  left. cbn [RTC.overflow_interrupts].
  destruct (IH (RTC.TIMER1_OVF_vect g)) as [E | [-> E]].
  - rewrite E. cbn [RTC.TIMER1_OVF_vect RTC.captures0 RTC.overflows].
    rewrite uint16_mod. change (2 ^ 16) with 65536.
    rewrite Nat2Z.inj_succ. Z.div_mod_to_equations. lia.
  - rewrite E. cbn [RTC.TIMER1_OVF_vect RTC.captures0 RTC.overflows].
    rewrite uint16_mod. reflexivity.
Qed.

Lemma overflow_interrupts_frame (n : nat) :
  forall g,
    RTC.value (RTC.captures0 (RTC.overflow_interrupts n g))
    = RTC.value (RTC.captures0 g)
    /\ RTC.captures1 (RTC.overflow_interrupts n g) = RTC.captures1 g.
Proof.
  induction n as [| n IH]; intros g; [split; reflexivity |].
  cbn [RTC.overflow_interrupts]. destruct (IH (RTC.TIMER1_OVF_vect g)) as [V C].
  rewrite V, C. split; reflexivity.
Qed.

(** X19.  The expression of the main loop gives the number of timer ticks
    between the last two captures.  Let Timer1 count modulo 2^16, the
    capture interrupt run at the tick counts [t1] and [t2] with the timer's
    value in ICR1, and the overflow interrupt run once for every wrap of the
    timer in between; then, as long as the timer wrapped fewer than 2^16
    times, [clocks] is [t2 - t1] -- also when the second captured value is
    the smaller one. *)
Theorem clocks_counts_ticks (g : RTC.globals) (t1 t2 : Z) :
  0 <= t1 <= t2 -> t2 / 65536 - t1 / 65536 < 65536 ->
  RTC.clocks
    (RTC.TIMER1_CAPT_vect (t2 mod 65536)
       (RTC.overflow_interrupts (Z.to_nat (t2 / 65536 - t1 / 65536))
          (RTC.TIMER1_CAPT_vect (t1 mod 65536) g)))
  = t2 - t1.
Proof.
  intros Ht Hwraps.
  set (g1 := RTC.TIMER1_CAPT_vect (t1 mod 65536) g).
  set (n := Z.to_nat (t2 / 65536 - t1 / 65536)).
  assert (Hn : Z.of_nat n = t2 / 65536 - t1 / 65536)
    by (unfold n; rewrite Z2Nat.id; Z.div_mod_to_equations; lia).
  destruct (overflow_interrupts_frame n g1) as [V _].
  assert (O : RTC.overflows (RTC.captures0 (RTC.overflow_interrupts n g1))
              = Z.of_nat n).
  { destruct (overflow_interrupts_count n g1) as [E | [E0 E]].
    - rewrite E. change (RTC.overflows (RTC.captures0 g1)) with 0.
      apply Z.mod_small. Z.div_mod_to_equations. lia.
    - rewrite E, E0. reflexivity. }
  unfold RTC.clocks.
  cbn [RTC.TIMER1_CAPT_vect RTC.captures0 RTC.captures1 RTC.value RTC.overflows].
  rewrite O, V, Hn.
  change (RTC.value (RTC.captures0 g1)) with (uint16 (t1 mod 65536)).
  rewrite Z.shiftl_mul_pow2 by lia.
  bits_to_arith. Z.div_mod_to_equations. lia.
Qed.

Lemma clocks_counts_ticks_witness :
  RTC.clocks
    (RTC.TIMER1_CAPT_vect 10984
       (RTC.overflow_interrupts 306
          (RTC.TIMER1_CAPT_vect 65000 (RTC.mkGlobals 0 (RTC.mkCapture 0 0)
                                                     (RTC.mkCapture 0 0)))))
  = 20000000.
Proof.
  apply (clocks_counts_ticks
           (RTC.mkGlobals 0 (RTC.mkCapture 0 0) (RTC.mkCapture 0 0))
           65000 20065000).
  - lia.
  - vm_compute. reflexivity.
Defined.

(** ** The echo of Tests/Serial/main.c *)

(** X20.  The echo sends back every character but the ten vowels as it
    came; the vowels of either case it moves one step along A, E, I, O, U
    and round again, so that five passes through the echo give back any
    text, and no two characters are echoed as the same one. *)
Theorem vowel_shift_cycle (c d : Z) :
  vowel_shift (vowel_shift (vowel_shift (vowel_shift (vowel_shift c)))) = c
  /\ (vowel_shift c = vowel_shift d -> c = d)
  /\ (vowel_shift c <> c <->
      In c [65; 69; 73; 79; 85; 97; 101; 105; 111; 117]).
Proof.
  assert (E : forall y, y < 0 \/ 128 <= y -> vowel_shift y = y).
  { intros y Hy. unfold vowel_shift.
    repeat match goal with
           | |- context [match ?v with _ => _ end] => destruct v
           end; first [reflexivity | exfalso; lia]. }
  assert (F : forall x,
             vowel_shift (vowel_shift (vowel_shift (vowel_shift (vowel_shift x))))
             = x).
  { intros x.
    destruct (Z.ltb_spec x 0) as [Hneg |]; [do 5 rewrite (E x) by lia; reflexivity |].
    destruct (Z.ltb_spec x 128) as [Hlow | Hhigh]; [by_cases x 0 128%nat |].
    do 5 rewrite (E x) by lia. reflexivity. }
  split; [apply F |]. split.
  - intros H. rewrite <- (F c), <- (F d), H. reflexivity.
  - split.
    + intros H.
      destruct (Z.ltb_spec c 0) as [Hneg |]; [rewrite E in H by lia; contradiction |].
      destruct (Z.ltb_spec c 128) as [Hlow | Hhigh];
        [| rewrite E in H by lia; contradiction].
      assert (T : (vowel_shift c =? c)
                  || existsb (Z.eqb c) [65; 69; 73; 79; 85; 97; 101; 105; 111; 117]
                  = true).
      { apply (all_from_spec
                 (fun x => (vowel_shift x =? x)
                           || existsb (Z.eqb x)
                                [65; 69; 73; 79; 85; 97; 101; 105; 111; 117])
                 128 0); [vm_compute; reflexivity | simpl; lia]. }
      apply orb_true_iff in T. destruct T as [T | T].
      * apply Z.eqb_eq in T. contradiction.
      * apply existsb_exists in T. destruct T as [v [Hin Hv]].
        apply Z.eqb_eq in Hv. subst v. exact Hin.
    + intros Hin. repeat (destruct Hin as [<- | Hin]; [discriminate |]).
      destruct Hin.
Qed.

(** ** A byte on the pins *)

Lemma PORTA_delay_us (us : Z) (st : state) : PORTA (_delay_us us st) = PORTA st.
Proof. reflexivity. Qed.

(** X21.  One byte sent by [SEND_BYTE], whatever the port held before: the
    controller latches the high nibble and then the low nibble, both with
    the register select asked for; each falling edge of EN comes after the
    lines have been stable for two delays of 1 us and is followed by one
    more; the delay asked for comes last; and EN is left low. *)
Theorem send_byte_on_the_wire (regSel c delay : Z) (st : state) :
  regSel = 0 \/ regSel = 1 ->
  wire (SEND_BYTE regSel c delay st)
  = wire st
    ++ [WaitUs 1; WaitUs 1; Latch regSel (uint8 c / 16); WaitUs 1;
        WaitUs 1; WaitUs 1; Latch regSel (uint8 c mod 16); WaitUs 1;
        WaitUs delay]
  /\ Z.testbit (PORTA (SEND_BYTE regSel c delay st)) EN_PIN = false.
Proof.
  intros Hrs. split.
  - destruct Hrs as [-> | ->]; [apply SEND_BYTE_cmd | apply SEND_BYTE_data].
  - unfold SEND_BYTE, sendByte, seq. cbv zeta. rewrite PORTA_delay_us.
    match goal with
    | |- Z.testbit (PORTA (sendNibble ?rs ?n ?s)) _ = false =>
        exact (proj2 (pins_kept_sendNibble rs n s Hrs))
    end.
Qed.

Lemma send_byte_on_the_wire_witness :
  wire (SEND_BYTE 1 0x41 46 (set_PORTA (fun _ => 0xFF) reset_state))
  = [WaitUs 1; WaitUs 1; Latch 1 4; WaitUs 1;
     WaitUs 1; WaitUs 1; Latch 1 1; WaitUs 1; WaitUs 46].
Proof.
  destruct (send_byte_on_the_wire 1 0x41 46 (set_PORTA (fun _ => 0xFF) reset_state))
    as [W _].
  - right. reflexivity.
  - exact W.
Defined.

(** ** Glyph bitmaps *)

Lemma lor_low (k x y : Z) :
  0 <= k -> 0 <= y < 2 ^ k -> Z.lor y (Z.shiftl x k) = y + x * 2 ^ k.
Proof.
  intros Hk Hy.
  assert (E : Z.land y (Z.shiftl x k) = 0).
  { apply Z.bits_inj'. intros n Hn. rewrite Z.land_spec, Z.bits_0.
    destruct (Z.ltb_spec n k) as [Hlow | Hhigh].
    - rewrite Z.shiftl_spec_low by lia. apply andb_false_r.
    - rewrite <- (Z.mod_small y (2 ^ k)) by lia.
      rewrite Z.mod_pow2_bits_high by lia. reflexivity. }
  pose proof (Z.add_lor_land y (Z.shiftl x k)) as A.
  rewrite E, Z.add_0_r in A. rewrite A, Z.shiftl_mul_pow2 by lia. reflexivity.
Qed.

Lemma uint64_small (x : Z) : 0 <= x < 2 ^ 64 -> uint64 x = x.
Proof. intros H. rewrite uint64_mod. apply Z.mod_small. exact H. Qed.

Lemma CUSTOM_CHAR_sum (r0 r1 r2 r3 r4 r5 r6 r7 : Z) :
  0 <= r0 < 256 -> 0 <= r1 < 256 -> 0 <= r2 < 256 -> 0 <= r3 < 256 ->
  0 <= r4 < 256 -> 0 <= r5 < 256 -> 0 <= r6 < 256 -> 0 <= r7 < 256 ->
  CUSTOM_CHAR r0 r1 r2 r3 r4 r5 r6 r7
  = r0 + 256 * (r1 + 256 * (r2 + 256 * (r3 + 256 * (r4 + 256 * (r5
      + 256 * (r6 + 256 * r7)))))).
Proof.
  intros H0 H1 H2 H3 H4 H5 H6 H7. unfold CUSTOM_CHAR.
  rewrite !uint64_small by (change (2 ^ 64) with 18446744073709551616; lia).
  change (0 * 8) with 0. change (1 * 8) with 8. change (2 * 8) with 16.
  change (3 * 8) with 24. change (4 * 8) with 32. change (5 * 8) with 40.
  change (6 * 8) with 48. change (7 * 8) with 56.
  rewrite Z.shiftl_0_r, Z.lor_0_l.
  rewrite (lor_low 8) by (change (2 ^ 8) with 256; lia).
  rewrite (lor_low 16) by (change (2 ^ 8) with 256; change (2 ^ 16) with 65536; lia).
  change (2 ^ 8) with 256. change (2 ^ 16) with 65536.
  rewrite (lor_low 24) by (change (2 ^ 24) with 16777216; lia).
  change (2 ^ 24) with 16777216.
  rewrite (lor_low 32) by (change (2 ^ 32) with 4294967296; lia).
  change (2 ^ 32) with 4294967296.
  rewrite (lor_low 40) by (change (2 ^ 40) with 1099511627776; lia).
  change (2 ^ 40) with 1099511627776.
  rewrite (lor_low 48) by (change (2 ^ 48) with 281474976710656; lia).
  change (2 ^ 48) with 281474976710656.
  rewrite (lor_low 56) by (change (2 ^ 56) with 72057594037927936; lia).
  change (2 ^ 56) with 72057594037927936.
  lia.
Qed.

Lemma peel_row (r rest : Z) :
  0 <= r < 256 ->
  (r + 256 * rest) mod 256 = r /\ (r + 256 * rest) / 256 = rest.
Proof. intros H. Z.div_mod_to_equations. lia. Qed.

(** X22.  A glyph built with [CUSTOM_CHAR] from eight rows of pixels and
    passed to [lcd_registerCustomChar] reaches the controller as those
    eight rows in the order they were given, top row first, between the
    CGRAM address command and the DDRAM address command. *)
Theorem custom_char_rows (addr r0 r1 r2 r3 r4 r5 r6 r7 : Z) (st : state) :
  0 <= r0 < 256 -> 0 <= r1 < 256 -> 0 <= r2 < 256 -> 0 <= r3 < 256 ->
  0 <= r4 < 256 -> 0 <= r5 < 256 -> 0 <= r6 < 256 -> 0 <= r7 < 256 ->
  wire (lcd_registerCustomChar addr (CUSTOM_CHAR r0 r1 r2 r3 r4 r5 r6 r7) st)
  = wire st
    ++ byte_xfer 0 (uint8 (Z.lor 0x40 (8 * uint8 addr))) 42
    ++ (byte_xfer 1 r0 46 ++ byte_xfer 1 r1 46 ++ byte_xfer 1 r2 46
        ++ byte_xfer 1 r3 46 ++ byte_xfer 1 r4 46 ++ byte_xfer 1 r5 46
        ++ byte_xfer 1 r6 46 ++ byte_xfer 1 r7 46)
    ++ byte_xfer 0 (uint8 (Z.lor 0x80 (ddram_address (lcdCursor st)))) 42.
Proof.
  intros H0 H1 H2 H3 H4 H5 H6 H7.
  rewrite lcd_registerCustomChar_wire. do 2 f_equal.
  rewrite CUSTOM_CHAR_sum by assumption.
  rewrite uint64_small
    by (change (2 ^ 64) with 18446744073709551616; lia).
  cbn [bitmap_xfer].
  repeat match goal with
         | |- context [(?r + 256 * ?rest) mod 256] =>
             rewrite (proj1 (peel_row r rest ltac:(assumption)));
             rewrite (proj2 (peel_row r rest ltac:(assumption)))
         end.
  rewrite Z.mod_small by lia.
  rewrite app_nil_r, <- !app_assoc. reflexivity.
Qed.

Lemma custom_char_rows_witness :
  wire (lcd_registerCustomChar 3 (CUSTOM_CHAR 4 4 4 4 4 4 4 0) reset_state)
  = byte_xfer 0 0x58 42
    ++ (byte_xfer 1 4 46 ++ byte_xfer 1 4 46 ++ byte_xfer 1 4 46
        ++ byte_xfer 1 4 46 ++ byte_xfer 1 4 46 ++ byte_xfer 1 4 46
        ++ byte_xfer 1 4 46 ++ byte_xfer 1 0 46)
    ++ byte_xfer 0 0x80 42.
Proof.
  apply (custom_char_rows 3 4 4 4 4 4 4 4 0 reset_state); lia.
Defined.

(** ** Sequences RFC 3629 forbids *)

(** X23.  The decoder does not reject overlong forms.  The two-byte
    sequence that spells a code point below 0x80 -- first byte 0xC0 or
    0xC1 -- is taken for that code point: on an empty accumulator the first
    byte is buffered and the second has the effect of the plain character,
    the line feed included. *)
Theorem overlong_accepted (cp : Z) (st : state) :
  0 <= cp < 0x80 -> utf8Buffer st = 0 ->
  feed [Z.lor 0xC0 (Z.shiftr cp 6); Z.lor 0x80 (Z.land cp 0x3F)] st
  = lcd_putCode cp st
  /\ wire (feed [Z.lor 0xC0 (Z.shiftr cp 6)] st) = wire st.
Proof.
  intros Hcp Hempty.
  assert (T : trace_eqb
                (utf8_trace 0 [Z.lor 0xC0 (Z.shiftr cp 6);
                               Z.lor 0x80 (Z.land cp 0x3F)])
                [None; Some cp] = true).
  { apply (all_from_spec
             (fun x => trace_eqb
                         (utf8_trace 0 [Z.lor 0xC0 (Z.shiftr x 6);
                                        Z.lor 0x80 (Z.land x 0x3F)])
                         [None; Some x])
             128 0); [vm_compute; reflexivity | simpl; lia]. }
  apply trace_eqb_eq in T.
  split.
  - rewrite <- (set_utf8Buffer_same st Hempty) at 2.
    apply (feed_dispatch [Z.lor 0xC0 (Z.shiftr cp 6)]
                         (Z.lor 0x80 (Z.land cp 0x3F)) cp st).
    rewrite Hempty. exact T.
  - apply (feed_silent [Z.lor 0xC0 (Z.shiftr cp 6)] st).
    rewrite Hempty.
    pose proof (utf8_trace_firstn 1 [Z.lor 0xC0 (Z.shiftr cp 6);
                                     Z.lor 0x80 (Z.land cp 0x3F)] 0) as P.
    rewrite T in P. exact P.
Qed.

Lemma overlong_accepted_witness :
  wire (feed [0xC1; 0x81] reset_state) = byte_xfer 1 0x41 46.
Proof.
  destruct (overlong_accepted 0x41 reset_state) as [A _].
  - lia.
  - reflexivity.
  - change [0xC1; 0x81]
      with [Z.lor 0xC0 (Z.shiftr 0x41 6); Z.lor 0x80 (Z.land 0x41 0x3F)].
    rewrite A. vm_compute. reflexivity.
Defined.
